(** * LTC timecode tools: a shallow embedding and its verified properties

    The development follows the two TypeScript programs of the repository:

    - [read-timecode.ts]: the audio decoder (WAV header, digitizer,
      biphase-mark bit recovery, sync-word search, BCD field decoder, frame
      search, user-bit date display);
    - [sync-ltc-timecode.ts]: the text-form frame parser with its validation,
      the time-reference derivation, the choice of the reference frame, the
      metadata text and the sibling test. The methods that only talk to the
      file system, to [ltcdump] and [bwfmetaedit], or to the user are left
      out.

    JavaScript numbers that hold integers are modelled by [Z] (every value met
    here is far below 2^53, where doubles are exact); a number that may be
    [NaN] is an [option Z]; genuinely fractional arithmetic (frame rates, the
    adaptive bit period) uses the kernel's binary64 floats, which is what a
    JavaScript engine computes with. *)

From Stdlib Require Import ZArith List Bool Lia Ascii String Strings.Byte.
From Stdlib Require Import Floats.PrimFloat Floats.FloatOps Floats.SpecFloat.
From Stdlib Require Import Numbers.Cyclic.Int63.Uint63.
From Stdlib Require Import Numbers.DecimalString.
Import ListNotations.

Local Open Scope Z_scope.

(* Decimal literals such as 29.97 denote the nearest double, as in the source. *)
#[local] Set Warnings "-inexact-float".

(* ================================================================== *)
(** * Part I: definitions *)
(* ================================================================== *)

(** ** The fragment of JavaScript the programs rely on *)
Module JS.

(** An integer-valued number, or [NaN] ([None]). *)
Definition num := option Z.
Definition NaN : num := None.

(** An array element: a number, or [undefined] ([None]) past the end. *)
Definition value := option Z.

Definition add (a b : num) : num :=
  match a, b with Some x, Some y => Some (x + y) | _, _ => None end.

Definition mul (a b : num) : num :=
  match a, b with Some x, Some y => Some (x * y) | _, _ => None end.

(** [a % k] for a non-zero constant [k]: the remainder has the sign of [a]. *)
Definition rem (a : num) (k : Z) : num := option_map (fun x => Z.rem x k) a.

(** Relational operators: every comparison with [NaN] is [false]. *)
Definition ltb (a : num) (k : Z) : bool :=
  match a with Some x => x <? k | None => false end.
Definition gtb (a : num) (k : Z) : bool :=
  match a with Some x => k <? x | None => false end.
Definition geb (a : num) (k : Z) : bool :=
  match a with Some x => k <=? x | None => false end.
Definition leb (a : num) (k : Z) : bool :=
  match a with Some x => x <=? k | None => false end.

(** [ToInt32]: [undefined] becomes 0, a number wraps into [-2^31, 2^31). *)
Definition wrap32 (z : Z) : Z := (z + 2 ^ 31) mod 2 ^ 32 - 2 ^ 31.
Definition ToInt32 (v : value) : Z :=
  match v with Some z => wrap32 z | None => 0 end.

(** [v << k] and [a | b] on 32-bit integers. *)
Definition shl (v : value) (k : Z) : Z := wrap32 (Z.shiftl (ToInt32 v) k).
Definition bor (a b : Z) : Z := wrap32 (Z.lor (wrap32 a) (wrap32 b)).

(** [v === k] for a numeric constant [k]. *)
Definition strict_eq (v : value) (k : Z) : bool :=
  match v with Some z => z =? k | None => false end.

(** [xs.slice(a, b)] for [0 <= a <= b]. *)
Definition slice {A : Type} (xs : list A) (a b : nat) : list A :=
  firstn (b - a) (skipn a xs).

(** *** Doubles *)

(** The double that holds the integer [z] (exact for [|z| < 2^53]). *)
Definition toFloat (z : Z) : float :=
  if z <? 0 then PrimFloat.opp (PrimFloat.of_uint63 (Uint63.of_Z (- z)))
  else PrimFloat.of_uint63 (Uint63.of_Z z).

Definition numToFloat (a : num) : float :=
  match a with Some z => toFloat z | None => PrimFloat.nan end.

(** [Math.round]: the nearest integer, ties towards +infinity, computed
    exactly from the mantissa and exponent of the double; [NaN] and the
    infinities are returned as they are, which [num] renders as [None]. *)
Definition Math_round (x : float) : num :=
  match Prim2SF x with
  | S754_zero _ => Some 0
  | S754_finite s m e =>
      let sm := if s then Z.neg m else Z.pos m in
      if 0 <=? e then Some (sm * 2 ^ e)
      else Some ((2 * sm + 2 ^ (- e)) / 2 ^ (- e + 1))
  | S754_infinity _ | S754_nan => None
  end.

(** *** Strings *)

Definition code (c : ascii) : Z := Z.of_nat (nat_of_ascii c).

(** ASCII white space ([\s] and what [trim] removes, restricted to ASCII:
    the text the programs read is ASCII). *)
Definition isSpace (c : ascii) : bool :=
  let n := code c in
  (n =? 32) || ((9 <=? n) && (n <=? 13)).

Definition isDigit (c : ascii) : bool :=
  let n := code c in (48 <=? n) && (n <=? 57).

(** The value of [c] as a digit in the given radix, if it is one. *)
Definition digitOf (radix : Z) (c : ascii) : option Z :=
  let n := code c in
  let v := if (48 <=? n) && (n <=? 57) then Some (n - 48)
           else if (97 <=? n) && (n <=? 122) then Some (n - 87)
           else if (65 <=? n) && (n <=? 90) then Some (n - 55)
           else None in
  match v with
  | Some d => if d <? radix then Some d else None
  | None => None
  end.

Fixpoint trimStart (s : string) : string :=
  match s with
  | String c rest => if isSpace c then trimStart rest else s
  | EmptyString => EmptyString
  end.

Fixpoint rev_string (s acc : string) : string :=
  match s with
  | String c rest => rev_string rest (String c acc)
  | EmptyString => acc
  end.

Definition trimEnd (s : string) : string :=
  rev_string (trimStart (rev_string s EmptyString)) EmptyString.

Definition trim (s : string) : string := trimEnd (trimStart s).

(** The longest prefix of radix digits, read as a number; [acc] is [None]
    until a first digit has been seen. *)
Fixpoint parseDigits (radix : Z) (s : string) (acc : option Z) : option Z :=
  match s with
  | String c rest =>
      match digitOf radix c with
      | Some d =>
          parseDigits radix rest
            (Some (match acc with Some a => a * radix + d | None => d end))
      | None => acc
      end
  | EmptyString => acc
  end.

(** [parseInt(s)] with no radix argument: leading white space, an optional
    sign, an optional [0x]/[0X] prefix (then radix 16), the longest run of
    digits; [NaN] when there is no digit. *)
Definition parseInt (s : string) : num :=
  let s := trimStart s in
  let '(neg, s) :=
    match s with
    | String "-"%char rest => (true, rest)
    | String "+"%char rest => (false, rest)
    | _ => (false, s)
    end in
  let '(radix, s) :=
    match s with
    | String "0"%char (String "x"%char rest) => (16, rest)
    | String "0"%char (String "X"%char rest) => (16, rest)
    | _ => (10, s)
    end in
  option_map (fun v => if neg then - v else v) (parseDigits radix s None).

(** [n.toString()] of an integer. *)
Definition toString (z : Z) : string := NilZero.string_of_int (Z.to_int z).

Definition numToString (a : num) : string :=
  match a with Some z => toString z | None => "NaN"%string end.

(** [s.substring(a, b)] for [0 <= a <= b]. *)
Definition substring (s : string) (a b : nat) : string :=
  String.substring a (b - a) s.

Fixpoint includes (c : ascii) (s : string) : bool :=
  match s with
  | String d rest => Ascii.eqb c d || includes c rest
  | EmptyString => false
  end.

(** [s.split(c)] for a one-character separator: never an empty list. *)
Fixpoint splitChar (c : ascii) (s : string) : list string :=
  match s with
  | EmptyString => [EmptyString]
  | String d rest =>
      if Ascii.eqb c d then EmptyString :: splitChar c rest
      else match splitChar c rest with
           | tok :: toks => String d tok :: toks
           | [] => [String d EmptyString]
           end
  end.

(** [s.split(/\s+/)]: a run of white space is one separator. [inSep] tells
    that the previous character belonged to a separator. *)
Fixpoint splitSpacesFrom (inSep : bool) (s : string) : list string :=
  match s with
  | EmptyString => [EmptyString]
  | String d rest =>
      if isSpace d then
        if inSep then splitSpacesFrom true rest
        else EmptyString :: splitSpacesFrom true rest
      else match splitSpacesFrom false rest with
           | tok :: toks => String d tok :: toks
           | [] => [String d EmptyString]
           end
  end.

Definition splitSpaces (s : string) : list string := splitSpacesFrom false s.

(** [xs.join(sep)]. *)
Fixpoint join (sep : string) (xs : list string) : string :=
  match xs with
  | [] => EmptyString
  | [x] => x
  | x :: rest => (x ++ sep ++ join sep rest)%string
  end.

End JS.

(* ------------------------------------------------------------------ *)
(** ** [read-timecode.ts]: decoding LTC from audio samples *)
(* ------------------------------------------------------------------ *)
Module ReadTimecode.

(** The decoded frame ([interface LTCFrame]). *)
Record LTCFrame : Type := mkLTCFrame {
  frame : Z;
  second : Z;
  minute : Z;
  hour : Z;
  dropFrame : bool;
  colorFrame : bool;
  binaryGroup1 : Z;
  binaryGroup2 : Z;
  binaryGroup3 : Z;
  binaryGroup4 : Z;
  binaryGroup5 : Z;
  binaryGroup6 : Z;
  binaryGroup7 : Z;
  binaryGroup8 : Z
}.

(** *** Digitizer: [audioToDigital] *)

(** A [Buffer] read either returns or throws Node's range error; the
    program defines no error of its own. *)
Inductive exn : Type := ERR_OUT_OF_RANGE.

Inductive outcome (A : Type) : Type :=
| Return (a : A)
| Throw (e : exn).
Arguments Return {A} a.
Arguments Throw {A} e.

(** What a read decodes: an integer ([readInt8], [readInt16LE]) or a
    binary32 value ([readFloatLE]). *)
Inductive sample : Type :=
| IntSample (z : Z)
| FloatSample (f : spec_float).

(** [buffer[off]]: the byte as a number in [0, 255], [undefined] outside. *)
Definition byteAt (buffer : list byte) (off : Z) : option Z :=
  if off <? 0 then None
  else option_map (fun b => Z.of_N (Byte.to_N b)) (nth_error buffer (Z.to_nat off)).

Definition readInt8 (buffer : list byte) (off : Z) : outcome sample :=
  match byteAt buffer off with
  | Some v => Return (IntSample (if 128 <=? v then v - 256 else v))
  | None => Throw ERR_OUT_OF_RANGE
  end.

Definition readInt16LE (buffer : list byte) (off : Z) : outcome sample :=
  match byteAt buffer off, byteAt buffer (off + 1) with
  | Some first, Some last =>
      let v := first + last * 256 in
      Return (IntSample (if 32768 <=? v then v - 65536 else v))
  | _, _ => Throw ERR_OUT_OF_RANGE
  end.

(** The binary32 value of a 32-bit pattern. *)
Definition decodeFloat32 (w : Z) : spec_float :=
  let s := Z.testbit w 31 in
  let e := Z.land (Z.shiftr w 23) 255 in
  let m := Z.land w (2 ^ 23 - 1) in
  if e =? 255 then (if m =? 0 then S754_infinity s else S754_nan)
  else if e =? 0 then
    match m with
    | Z.pos p => S754_finite s p (-149)
    | _ => S754_zero s
    end
  else
    match m + 2 ^ 23 with
    | Z.pos p => S754_finite s p (e - 150)
    | _ => S754_zero s
    end.

Definition readFloatLE (buffer : list byte) (off : Z) : outcome sample :=
  match byteAt buffer off, byteAt buffer (off + 1),
        byteAt buffer (off + 2), byteAt buffer (off + 3) with
  | Some b0, Some b1, Some b2, Some b3 =>
      Return (FloatSample
                (decodeFloat32 (b0 + b1 * 2 ^ 8 + b2 * 2 ^ 16 + b3 * 2 ^ 24)))
  | _, _, _, _ => Throw ERR_OUT_OF_RANGE
  end.

(** [sample > threshold] with [threshold = 0]. *)
Definition aboveThreshold (s : sample) : bool :=
  match s with
  | IntSample z => 0 <? z
  | FloatSample f => SFltb (S754_zero false) f
  end.

(** A quotient that may be infinite or [NaN] (division by a zero
    [bytesPerSample]). *)
Inductive extnum : Type :=
| Fin (z : Z)
| PosInf
| NegInf
| NotANumber.

(** [Math.floor((buffer.length - dataOffset) / bytesPerSample)] with
    [bytesPerSample = bitsPerSample / 8], i.e. the floor of
    [8 * (length - dataOffset) / bitsPerSample]. (The double quotient has the
    same floor as the exact one for every buffer a process can hold.) *)
Definition availableSamples (len dataOffset bitsPerSample : Z) : extnum :=
  let diff := len - dataOffset in
  if bitsPerSample =? 0 then
    if 0 <? diff then PosInf else if diff <? 0 then NegInf else NotANumber
  else Fin (8 * diff / bitsPerSample).

(** [Math.min(availableSamples, maxSamples)]. *)
Definition numSamples (available : extnum) (maxSamples : Z) : extnum :=
  match available with
  | Fin a => Fin (Z.min a maxSamples)
  | PosInf => Fin maxSamples
  | NegInf => NegInf
  | NotANumber => NotANumber
  end.

(** How often [for (let i = 0; i < numSamples; i++)] runs its body. *)
Definition iterations (n : extnum) : nat :=
  match n with
  | Fin z => Z.to_nat z
  | PosInf | NegInf | NotANumber => 0%nat
  end.

(** [dataOffset + i * bytesPerSample], when it is an integer. *)
Definition sampleOffset (dataOffset bitsPerSample i : Z) : option Z :=
  if (i * bitsPerSample) mod 8 =? 0
  then Some (dataOffset + i * bitsPerSample / 8)
  else None.

(** The body of the loop up to [digital.push]: 32 bits are read as a float,
    16 as a signed 16-bit integer, and every other depth as a signed byte. *)
Definition readSample (buffer : list byte) (dataOffset bitsPerSample i : Z)
  : outcome sample :=
  match sampleOffset dataOffset bitsPerSample i with
  | None => Throw ERR_OUT_OF_RANGE
  | Some off =>
      if bitsPerSample =? 32 then readFloatLE buffer off
      else if bitsPerSample =? 16 then readInt16LE buffer off
      else readInt8 buffer off
  end.

Fixpoint digitize (buffer : list byte) (dataOffset bitsPerSample : Z)
    (n : nat) (i : Z) (digital : list bool) : outcome (list bool) :=
  match n with
  | O => Return digital
  | S n' =>
      match readSample buffer dataOffset bitsPerSample i with
      | Throw e => Throw e
      | Return s =>
          digitize buffer dataOffset bitsPerSample n' (i + 1)
                   (digital ++ [aboveThreshold s])
      end
  end.

Definition defaultMaxSamples : Z := 48000 * 10.

Definition audioToDigital (buffer : list byte)
    (dataOffset sampleRate bitsPerSample maxSamples : Z) : outcome (list bool) :=
  let available :=
    availableSamples (Z.of_nat (List.length buffer)) dataOffset bitsPerSample in
  let n := numSamples available maxSamples in
  digitize buffer dataOffset bitsPerSample (iterations n) 0 [].

(** *** Bit recoverer: the loops of [detectManchesterBits] and
    [detectManchesterBitsFromPosition]

    The two loops are the same text up to three constants: the smoothing
    weights ([0.99]/[0.01] against [0.95]/[0.05]) and the bit budget ([1000]
    against [80]); they are written once over these. *)

Record DecoderState : Type := mkState {
  currentState : Z;
  samplesPerBit : float;
  samplesSinceChange : Z;
  bits : list Z;
  pendingBit : bool
}.

Definition bitsPerSecond : float := 2400%float.

Definition initialState (digital : list bool) (sampleRate : Z) : DecoderState :=
  {| currentState := match digital with d :: _ => if d then 1 else 0 | [] => 0 end;
     samplesPerBit := (JS.toFloat sampleRate / bitsPerSecond)%float;
     samplesSinceChange := 0;
     bits := [];
     pendingBit := false |}.

Section Recoverer.
Variables keep gain : float.
Variable budget : nat.

(** The body of [if (newState !== currentState)], entered with
    [samplesSinceChange] already incremented. *)
Definition transition (st : DecoderState) (newState : Z) : DecoderState :=
  let elapsed := JS.toFloat (samplesSinceChange st) in
  let halfBitPeriod := (samplesPerBit st * 0.5)%float in
  let fullBitPeriod := samplesPerBit st in
  if (elapsed <? halfBitPeriod * 1.5)%float then
    if pendingBit st then
      {| currentState := newState; samplesPerBit := samplesPerBit st;
         samplesSinceChange := 0;
         bits := bits st ++ [1]; pendingBit := false |}
    else
      {| currentState := newState; samplesPerBit := samplesPerBit st;
         samplesSinceChange := 0;
         bits := bits st; pendingBit := true |}
  else if (elapsed <? fullBitPeriod * 1.5)%float then
    {| currentState := newState;
       samplesPerBit :=
         (samplesPerBit st * keep + elapsed * gain)%float;
       samplesSinceChange := 0;
       bits := (if pendingBit st then bits st ++ [1] else bits st) ++ [0];
       pendingBit := false |}
  else
    if pendingBit st then
      {| currentState := newState; samplesPerBit := samplesPerBit st;
         samplesSinceChange := 0;
         bits := bits st ++ [1]; pendingBit := false |}
    else
      {| currentState := newState; samplesPerBit := samplesPerBit st;
         samplesSinceChange := 0;
         bits := bits st; pendingBit := false |}.

(** One iteration of the loop body on the sample [d = digital[i]]. *)
Definition sampleStep (st : DecoderState) (d : bool) : DecoderState :=
  let newState := if d then 1 else 0 in
  let st' := {| currentState := currentState st;
                samplesPerBit := samplesPerBit st;
                samplesSinceChange := samplesSinceChange st + 1;
                bits := bits st; pendingBit := pendingBit st |} in
  if newState =? currentState st then st' else transition st' newState.

(** [for (i = 1; i < digital.length && bits.length < budget; i++)] over
    the samples that remain. *)
Fixpoint decodeLoop (st : DecoderState) (rest : list bool) : DecoderState :=
  match rest with
  | [] => st
  | d :: rest' =>
      if (List.length (bits st) <? budget)%nat
      then decodeLoop (sampleStep st d) rest'
      else st
  end.
End Recoverer.

(** Lines 128-175 of [detectManchesterBits]: the bits collected by the free
    scan, with the trailing half bit flushed. *)
Definition collectBits (digital : list bool) (sampleRate : Z) : list Z :=
  let st := decodeLoop 0.99%float 0.01%float 1000
              (initialState digital sampleRate) (tl digital) in
  if pendingBit st then bits st ++ [1] else bits st.

(** Lines 223-275 of [detectManchesterBitsFromPosition]. *)
Definition collectBitsFromPosition (digital : list bool) (sampleRate : Z)
  : list Z :=
  let st := decodeLoop 0.95%float 0.05%float 80
              (initialState digital sampleRate) (tl digital) in
  if pendingBit st && (List.length (bits st) <? 80)%nat
  then bits st ++ [1] else bits st.

(** *** Frame synchronizer: the search of [detectManchesterBits] *)

Definition syncPattern : list Z := [0; 0; 1; 1; 1; 1; 1; 1; 1; 1; 1; 1; 1; 1; 0; 1].

(** [candidateSync.filter((bit, idx) => bit === pattern[idx]).length]. *)
Definition countMatches (candidateSync pattern : list Z) : nat :=
  List.length (filter (fun bp => fst bp =? snd bp) (combine candidateSync pattern)).

Definition frameCandidateAt (bits : list Z) (i : nat) : list Z :=
  JS.slice bits i (i + 80).

(** [for (i = 0; i <= bits.length - 80; i++)], with [n] iterations left. *)
Fixpoint findSyncFrom (bits : list Z) (n i : nat) : list Z :=
  match n with
  | O => []
  | S n' =>
      if (i + 80 <=? List.length bits)%nat then
        let frameCandidate := frameCandidateAt bits i in
        let candidateSync := JS.slice frameCandidate 64 80 in
        let matches := countMatches candidateSync syncPattern in
        if (15 <=? matches)%nat then frameCandidate
        else findSyncFrom bits n' (S i)
      else findSyncFrom bits n' (S i)
  end.

Definition findSync (bits : list Z) : list Z :=
  findSyncFrom bits (List.length bits + 1 - 80) 0.

Definition detectManchesterBits (digital : list bool) (sampleRate : Z) : list Z :=
  findSync (collectBits digital sampleRate).

Definition detectManchesterBitsFromPosition (digital : list bool)
    (sampleRate : Z) : list Z :=
  JS.slice (collectBitsFromPosition digital sampleRate) 0 80.

(** *** Frame field decoder: [parseLTCFrame]

    The decoder is written over a log of the array indices it reads, in
    the order the source evaluates them, so that statements about which
    elements of [bits] are touched can be made about the same definition
    that computes the frame. *)

Definition Reads (A : Type) : Type := (A * list nat)%type.

Definition ret {A : Type} (a : A) : Reads A := (a, []).

Definition bind {A B : Type} (m : Reads A) (k : A -> Reads B) : Reads B :=
  let (a, log1) := m in
  let (b, log2) := k a in
  (b, log1 ++ log2).

Notation "x <- m ;; k" := (bind m (fun x => k))
  (at level 61, m at next level, right associativity).

(** [bits[i]]. *)
Definition get (bits : list Z) (i : nat) : Reads JS.value :=
  (nth_error bits i, [i]).

(** [bits.slice(a, b)] reads the elements it copies. *)
Definition sliceR (bits : list Z) (a b : nat) : Reads (list Z) :=
  (JS.slice bits a b, seq a (List.length (JS.slice bits a b))).

(** [(bits[i3] << 3) | (bits[i2] << 2) | (bits[i1] << 1) | bits[i0]]. *)
Definition nibble4 (bits : list Z) (i3 i2 i1 i0 : nat) : Reads Z :=
  b3 <- get bits i3 ;; b2 <- get bits i2 ;;
  b1 <- get bits i1 ;; b0 <- get bits i0 ;;
  ret (JS.bor (JS.bor (JS.bor (JS.shl b3 3) (JS.shl b2 2)) (JS.shl b1 1))
              (JS.ToInt32 b0)).

(** [(bits[i2] << 2) | (bits[i1] << 1) | bits[i0]]. *)
Definition nibble3 (bits : list Z) (i2 i1 i0 : nat) : Reads Z :=
  b2 <- get bits i2 ;; b1 <- get bits i1 ;; b0 <- get bits i0 ;;
  ret (JS.bor (JS.bor (JS.shl b2 2) (JS.shl b1 1)) (JS.ToInt32 b0)).

(** [(bits[i1] << 1) | bits[i0]]. *)
Definition nibble2 (bits : list Z) (i1 i0 : nat) : Reads Z :=
  b1 <- get bits i1 ;; b0 <- get bits i0 ;;
  ret (JS.bor (JS.shl b1 1) (JS.ToInt32 b0)).

Definition expectedSync : list Z := [0; 0; 1; 1; 1; 1; 1; 1; 1; 1; 1; 1; 1; 1; 0; 1].

(** [parseLTCFrame(bits)] with [debug = false] (the debug branch only
    prints). *)
Definition parseLTCFrameR (bits : list Z) : Reads (option LTCFrame) :=
  if (List.length bits <? 80)%nat then ret None
  else
    frame_units <- nibble4 bits 3 2 1 0 ;;
    frame_tens <- nibble2 bits 9 8 ;;
    second_units <- nibble4 bits 19 18 17 16 ;;
    second_tens <- nibble3 bits 26 25 24 ;;
    minute_units <- nibble4 bits 35 34 33 32 ;;
    minute_tens <- nibble3 bits 42 41 40 ;;
    hour_units <- nibble4 bits 51 50 49 48 ;;
    hour_tens <- nibble2 bits 57 56 ;;
    syncWord <- sliceR bits 64 80 ;;
    let syncMatches := countMatches syncWord expectedSync in
    if (syncMatches <? 14)%nat then ret None
    else
      binaryGroup1 <- nibble4 bits 7 6 5 4 ;;
      binaryGroup2 <- nibble4 bits 15 14 13 12 ;;
      binaryGroup3 <- nibble4 bits 23 22 21 20 ;;
      binaryGroup4 <- nibble4 bits 31 30 29 28 ;;
      binaryGroup5 <- nibble4 bits 39 38 37 36 ;;
      binaryGroup6 <- nibble4 bits 47 46 45 44 ;;
      binaryGroup7 <- nibble4 bits 55 54 53 52 ;;
      binaryGroup8 <- nibble4 bits 63 62 61 60 ;;
      b10 <- get bits 10 ;;
      b11 <- get bits 11 ;;
      ret (Some {| frame := frame_tens * 10 + frame_units;
                   second := second_tens * 10 + second_units;
                   minute := minute_tens * 10 + minute_units;
                   hour := hour_tens * 10 + hour_units;
                   dropFrame := JS.strict_eq b10 1;
                   colorFrame := JS.strict_eq b11 1;
                   binaryGroup1 := binaryGroup1;
                   binaryGroup2 := binaryGroup2;
                   binaryGroup3 := binaryGroup3;
                   binaryGroup4 := binaryGroup4;
                   binaryGroup5 := binaryGroup5;
                   binaryGroup6 := binaryGroup6;
                   binaryGroup7 := binaryGroup7;
                   binaryGroup8 := binaryGroup8 |}).

(** The frame returned, and the indices of [bits] read on the way. *)
Definition parseLTCFrame (bits : list Z) : option LTCFrame :=
  fst (parseLTCFrameR bits).
Definition parseLTCFrame_reads (bits : list Z) : list nat :=
  snd (parseLTCFrameR bits).

(** *** The user bits as a date: [displayLTCFrame] *)

(** The template string that concatenates groups 8 down to 1. *)
Definition userBitsString (f : LTCFrame) : string :=
  (JS.toString (binaryGroup8 f) ++ JS.toString (binaryGroup7 f) ++
   JS.toString (binaryGroup6 f) ++ JS.toString (binaryGroup5 f) ++
   JS.toString (binaryGroup4 f) ++ JS.toString (binaryGroup3 f) ++
   JS.toString (binaryGroup2 f) ++ JS.toString (binaryGroup1 f))%string.

(** [year < 50 ? 2000 + year : 1900 + year]. *)
Definition fullYearOf (year : JS.num) : JS.num :=
  if JS.ltb year 50 then JS.add (Some 2000) year else JS.add (Some 1900) year.

Definition monthNames : list string :=
  ["January"; "February"; "March"; "April"; "May"; "June"; "July";
   "August"; "September"; "October"; "November"; "December"]%string.

(** What the date block works out before printing. *)
Record UserDate : Type := mkUserDate {
  fullYear : JS.num;
  month : JS.num;
  day : JS.num;
  extra : string
}.

(** The block guarded by [userBitsString.length === 8] and by the range
    check on month and day: the date it derives, if it derives one. *)
Definition userBitsDate (f : LTCFrame) : option UserDate :=
  let userBitsString := userBitsString f in
  if (String.length userBitsString =? 8)%nat then
    let year := JS.parseInt (JS.substring userBitsString 0 2) in
    let month := JS.parseInt (JS.substring userBitsString 2 4) in
    let day := JS.parseInt (JS.substring userBitsString 4 6) in
    let extra := JS.substring userBitsString 6 8 in
    if JS.geb month 1 && JS.leb month 12 && JS.geb day 1 && JS.leb day 31
    then Some {| fullYear := fullYearOf year; month := month;
                 day := day; extra := extra |}
    else None
  else None.

(** The [Date: ...] line written to the console, if any. *)
Definition dateLine (f : LTCFrame) : option string :=
  match userBitsDate f with
  | Some d =>
      let name :=
        match month d with
        | Some m => nth (Z.to_nat (m - 1)) monthNames "undefined"%string
        | None => "undefined"%string
        end in
      Some ("Date: " ++ name ++ " " ++ JS.numToString (day d) ++ ", " ++
            JS.numToString (fullYear d) ++
            (if String.eqb (extra d) "00" then ""
             else " (extra: " ++ extra d ++ ")"))%string
  | None => None
  end.

End ReadTimecode.

(* ------------------------------------------------------------------ *)
(** ** [sync-ltc-timecode.ts]: text-form frames and the time reference *)
(* ------------------------------------------------------------------ *)
Module SyncLtc.

(** The frame built from one line of [ltcdump] output. The numeric fields
    come out of [parseInt] and may be [NaN]. *)
Record LTCFrame : Type := mkLTCFrame {
  userBits : string;
  timecode : string;
  position : string;
  year : JS.num;
  month : JS.num;
  day : JS.num;
  hour : JS.num;
  minute : JS.num;
  second : JS.num;
  frame : JS.num;
  dropFrame : bool
}.

(** What [new Date()] is asked for: the wall clock is an input. *)
Record Date : Type := mkDate {
  getFullYear : Z;
  getMonth : Z;      (* 0-based *)
  getDate : Z
}.

(** The corrections reported with [console.warn], in place of their text.
    [InvalidMinute m r] and [InvalidSecond s r] carry the value [r] the
    message announces. *)
Inductive Warning : Type :=
| InvalidDate (userBits : string)
| InvalidHour (hour corrected : JS.num)
| InvalidMinute (minute announced : JS.num)
| InvalidSecond (second announced : JS.num).

(** [line.trim().split("|")], accepted when there are exactly two parts,
    each then trimmed. *)
Definition leftRight (line : string) : option (string * string) :=
  match JS.splitChar "|" (JS.trim line) with
  | [p0; p1] => Some (JS.trim p0, JS.trim p1)
  | _ => None
  end.

(** [leftPart.split(/\s+/)]: its first token, and the rest joined again. *)
Definition userBitsOf (leftPart : string) : string :=
  hd EmptyString (JS.splitSpaces leftPart).
Definition timecodeOf (leftPart : string) : string :=
  JS.join " " (tl (JS.splitSpaces leftPart)).

(** [/(\d{2}):(\d{2}):(\d{2})[.:](\d{2})/] anchored at the head of [s]. *)
Definition matchHere (s : string) : option (string * string * string * string) :=
  match s with
  | String h1 (String h2 (String c1 (String m1 (String m2 (String c2
      (String s1 (String s2 (String sep (String f1 (String f2 _)))))))))) =>
      if JS.isDigit h1 && JS.isDigit h2 && Ascii.eqb c1 ":" &&
         JS.isDigit m1 && JS.isDigit m2 && Ascii.eqb c2 ":" &&
         JS.isDigit s1 && JS.isDigit s2 &&
         (Ascii.eqb sep "." || Ascii.eqb sep ":") &&
         JS.isDigit f1 && JS.isDigit f2
      then Some (String h1 (String h2 EmptyString),
                 String m1 (String m2 EmptyString),
                 String s1 (String s2 EmptyString),
                 String f1 (String f2 EmptyString))
      else None
  | _ => None
  end.

(** [timecode.match(...)]: the leftmost match. *)
Fixpoint matchTimecode (s : string) : option (string * string * string * string) :=
  match matchHere s with
  | Some groups => Some groups
  | None =>
      match s with
      | String _ rest => matchTimecode rest
      | EmptyString => None
      end
  end.

(** [rightPart.split(/\s+/)[0] || "0"]. *)
Definition positionOf (rightPart : string) : string :=
  match hd EmptyString (JS.splitSpaces rightPart) with
  | EmptyString => "0"%string
  | tok => tok
  end.

(** [parseLTCFrame(line)]: the frame or [null], and the warnings issued.
    Nothing in the body throws, so the [catch] branch is never taken. *)
Definition parseLTCFrame (now : Date) (line : string)
  : option LTCFrame * list Warning :=
  match leftRight line with
  | None => (None, [])
  | Some (leftPart, rightPart) =>
      let userBits := userBitsOf leftPart in
      let timecode := timecodeOf leftPart in
      if negb (String.length userBits =? 8)%nat then (None, [])
      else
        let year := JS.parseInt ("20" ++ JS.substring userBits 0 2)%string in
        let month := JS.parseInt (JS.substring userBits 2 4) in
        let day := JS.parseInt (JS.substring userBits 4 6) in
        let invalidDate :=
          JS.ltb month 1 || JS.gtb month 12 || JS.ltb day 1 || JS.gtb day 31 in
        let year := if invalidDate then Some (getFullYear now) else year in
        let month := if invalidDate then Some (getMonth now + 1) else month in
        let day := if invalidDate then Some (getDate now) else day in
        let w1 := if invalidDate then [InvalidDate userBits] else [] in
        match matchTimecode timecode with
        | None => (None, w1)
        | Some (hh, mm, ss, ff) =>
            let hour := JS.parseInt hh in
            let minute := JS.parseInt mm in
            let second := JS.parseInt ss in
            let frame := JS.parseInt ff in
            let dropFrame := JS.includes "." timecode in
            let w2 := if JS.geb hour 24
                      then [InvalidHour hour (JS.rem hour 24)] else [] in
            let hour := if JS.geb hour 24 then JS.rem hour 24 else hour in
            let w3 := if JS.geb minute 60
                      then [InvalidMinute minute (JS.rem minute 60)] else [] in
            let w4 := if JS.geb second 60
                      then [InvalidSecond second (JS.rem second 60)] else [] in
            (Some {| userBits := userBits;
                     timecode := timecode;
                     position := positionOf rightPart;
                     year := year; month := month; day := day;
                     hour := hour; minute := minute; second := second;
                     frame := frame; dropFrame := dropFrame |},
             w1 ++ w2 ++ w3 ++ w4)
        end
  end.

(** [calculateTimeReference(frame)]: the timecode as a sample count at
    48 kHz. The seconds are an integer; the products with the frame rate,
    the sum, the scaling and the quotient are double arithmetic. *)
Definition frameRateOf (f : LTCFrame) : float :=
  if dropFrame f then 29.97%float else 30%float.

Definition totalFramesOf (f : LTCFrame) : float :=
  let seconds :=
    JS.add (JS.add (JS.mul (hour f) (Some 3600)) (JS.mul (minute f) (Some 60)))
           (second f) in
  (JS.numToFloat seconds * frameRateOf f + JS.numToFloat (frame f))%float.

Definition calculateTimeReference (f : LTCFrame) : JS.num :=
  let frameRate := frameRateOf f in
  let totalFrames := totalFramesOf f in
  JS.Math_round ((totalFrames * 48000) / frameRate)%float.

End SyncLtc.

(* ------------------------------------------------------------------ *)
(** ** [read-timecode.ts], continued: the WAV header and the frame search *)
(* ------------------------------------------------------------------ *)
Module WavHeader.

(** [parseWavHeader] ends in one of two ways besides returning: a [Buffer]
    read outside the buffer, or its own [Error("Data chunk not found")].
    (Node reports a read from a buffer shorter than the integer itself under
    another code, [ERR_BUFFER_OUT_OF_BOUNDS]; both are [RangeError]s and the
    model does not tell them apart.) *)
Inductive exn : Type :=
| ERR_OUT_OF_RANGE
| DataChunkNotFound.

Inductive outcome (A : Type) : Type :=
| Return (a : A)
| Throw (e : exn).
Arguments Return {A} a.
Arguments Throw {A} e.

(** The object [parseWavHeader] returns. *)
Record WavInfo : Type := mkWavInfo {
  dataOffset : Z;
  dataSize : Z;
  sampleRate : Z;
  bitsPerSample : Z;
  numChannels : Z
}.

Definition readUInt16LE (buffer : list byte) (off : Z) : outcome Z :=
  match ReadTimecode.byteAt buffer off, ReadTimecode.byteAt buffer (off + 1) with
  | Some first, Some last => Return (first + last * 2 ^ 8)
  | _, _ => Throw ERR_OUT_OF_RANGE
  end.

Definition readUInt32LE (buffer : list byte) (off : Z) : outcome Z :=
  match ReadTimecode.byteAt buffer off, ReadTimecode.byteAt buffer (off + 1),
        ReadTimecode.byteAt buffer (off + 2), ReadTimecode.byteAt buffer (off + 3) with
  | Some first, Some b1, Some b2, Some last =>
      Return (first + b1 * 2 ^ 8 + b2 * 2 ^ 16 + last * 2 ^ 24)
  | _, _, _, _ => Throw ERR_OUT_OF_RANGE
  end.

(** The character an ASCII decoder makes of a byte: the high bit is
    dropped. *)
Definition asciiChar (b : byte) : ascii :=
  ascii_of_N (N.modulo (Byte.to_N b) 128).

Fixpoint asciiString (bs : list byte) : string :=
  match bs with
  | [] => EmptyString
  | b :: rest => String (asciiChar b) (asciiString rest)
  end.

(** [buffer.toString("ascii", start, end)]: the range is clamped to the
    buffer, and an empty or inverted range gives the empty string. *)
Definition toStringAscii (buffer : list byte) (start stop : Z) : string :=
  let len := Z.of_nat (List.length buffer) in
  let from := Z.max start 0 in
  let to := Z.min stop len in
  asciiString (firstn (Z.to_nat (to - from)) (skipn (Z.to_nat from) buffer)).

(** The [while (offset < buffer.length)] loop. [fuel] bounds the number of
    iterations; [None] is returned only when it runs out. *)
Fixpoint chunkWalk (fuel : nat) (buffer : list byte)
    (offset sampleRate bitsPerSample numChannels : Z)
  : option (outcome WavInfo) :=
  if offset <? Z.of_nat (List.length buffer) then
    match fuel with
    | O => None
    | S fuel' =>
        let chunkId := toStringAscii buffer offset (offset + 4) in
        let offset := offset + 4 in
        match readUInt32LE buffer offset with
        | Throw e => Some (Throw e)
        | Return chunkSize =>
            let offset := offset + 4 in
            if String.eqb chunkId "fmt " then
              match readUInt16LE buffer offset,
                    readUInt16LE buffer (offset + 2),
                    readUInt32LE buffer (offset + 4),
                    readUInt32LE buffer (offset + 8),
                    readUInt16LE buffer (offset + 12),
                    readUInt16LE buffer (offset + 14) with
              | Return audioFormat, Return numChannels', Return sampleRate',
                Return byteRate, Return blockAlign, Return bitsPerSample' =>
                  chunkWalk fuel' buffer (offset + chunkSize)
                            sampleRate' bitsPerSample' numChannels'
              | _, _, _, _, _, _ => Some (Throw ERR_OUT_OF_RANGE)
              end
            else if String.eqb chunkId "data" then
              Some (Return {| dataOffset := offset;
                              dataSize := chunkSize;
                              sampleRate := sampleRate;
                              bitsPerSample := bitsPerSample;
                              numChannels := numChannels |})
            else
              chunkWalk fuel' buffer (offset + chunkSize)
                        sampleRate bitsPerSample numChannels
        end
    end
  else Some (Throw DataChunkNotFound).

(** [parseWavHeader(buffer)]. The RIFF and WAVE tags are read and printed
    but not compared with anything; the file size is read (and may throw).
    Every iteration moves the offset forward by at least 8, so the length of
    the buffer is fuel enough. *)
Definition parseWavHeader (buffer : list byte) : option (outcome WavInfo) :=
  let riffHeader := toStringAscii buffer 0 4 in
  match readUInt32LE buffer 4 with
  | Throw e => Some (Throw e)
  | Return fileSize =>
      let waveHeader := toStringAscii buffer 8 12 in
      chunkWalk (List.length buffer) buffer 12 48000 16 1
  end.

End WavHeader.

Module FrameSearch.

(** [xs.slice(start, end)] for arbitrary integers: a negative bound counts
    from the end, and both are clamped to the array. *)
Definition sliceZ {A : Type} (xs : list A) (start stop : Z) : list A :=
  let len := Z.of_nat (List.length xs) in
  let from := if start <? 0 then Z.max (len + start) 0 else Z.min start len in
  let to := if stop <? 0 then Z.max (len + stop) 0 else Z.min stop len in
  firstn (Z.to_nat (to - from)) (skipn (Z.to_nat from) xs).

(** What [findFirstValidLTCFrame] returns when it finds a frame. *)
Record Found : Type := mkFound {
  frame : ReadTimecode.LTCFrame;
  samplePosition : Z
}.

Definition expectedSamplesPerBit (sampleRate : Z) : float :=
  (JS.toFloat sampleRate / ReadTimecode.bitsPerSecond)%float.

(** [frameSamples * 4] with [frameSamples = Math.round(expectedSamplesPerBit * 80)]. *)
Definition chunkSizeOf (sampleRate : Z) : JS.num :=
  JS.mul (JS.Math_round (expectedSamplesPerBit sampleRate * 80)%float) (Some 4).

(** [Math.round(expectedSamplesPerBit * 10)]. *)
Definition stepOf (sampleRate : Z) : JS.num :=
  JS.Math_round (expectedSamplesPerBit sampleRate * 10)%float.

(** The [for (startPos = 0; startPos < digital.length - chunkSize;
    startPos += step)] loop from [startPos] on. [None]: the fuel ran out.
    Nothing in the body throws, so the [catch] branch is never taken. *)
Fixpoint searchFrom (fuel : nat) (digital : list bool) (sampleRate : Z)
    (chunkSize step startPos : Z) : option (option Found) :=
  if startPos <? Z.of_nat (List.length digital) - chunkSize then
    match fuel with
    | O => None
    | S fuel' =>
        let chunk := sliceZ digital startPos (startPos + chunkSize) in
        let bits := ReadTimecode.detectManchesterBits chunk sampleRate in
        if (80 <=? List.length bits)%nat then
          match ReadTimecode.parseLTCFrame bits with
          | Some frame =>
              Some (Some {| frame := frame; samplePosition := startPos |})
          | None =>
              searchFrom fuel' digital sampleRate chunkSize step (startPos + step)
          end
        else searchFrom fuel' digital sampleRate chunkSize step (startPos + step)
    end
  else Some None.

(** [findFirstValidLTCFrame(digital, sampleRate)]. The fuel is the number of
    start positions below [digital.length - chunkSize]: enough whenever the
    step is positive. With a step of zero the source loops for ever unless
    the first chunk holds a frame, and the model then returns [None]. (The
    chunk size and the step are numbers for every integer sample rate; were
    they [NaN], the loop condition would be false.) *)
Definition findFirstValidLTCFrame (digital : list bool) (sampleRate : Z)
  : option (option Found) :=
  match chunkSizeOf sampleRate, stepOf sampleRate with
  | Some chunkSize, Some step =>
      searchFrom (Z.to_nat (Z.of_nat (List.length digital) - chunkSize))
                 digital sampleRate chunkSize step 0
  | _, _ => Some None
  end.

End FrameSearch.

(* ------------------------------------------------------------------ *)
(** ** [read-timecode.ts]: from the bytes of the file to the first frame *)
(* ------------------------------------------------------------------ *)
Module ReadTool.

(** The program ends with the error of the header or with that of a sample
    read; nothing catches either. *)
Inductive exn : Type :=
| HeaderError (e : WavHeader.exn)
| SampleError (e : ReadTimecode.exn).

Inductive outcome (A : Type) : Type :=
| Return (a : A)
| Throw (e : exn).
Arguments Return {A} a.
Arguments Throw {A} e.

(** [const wavInfo = parseWavHeader(buffer)] followed by
    [parseFirstLTCFrame()], which reads [buffer] and [wavInfo]: the samples
    are thresholded from the data offset on with the default limit, and the
    trace is searched at the sample rate of the header. [None]: the search
    does not end. *)
Definition parseFirstLTCFrame (buffer : list byte)
  : option (outcome (option FrameSearch.Found)) :=
  match WavHeader.parseWavHeader buffer with
  | None => None
  | Some (WavHeader.Throw e) => Some (Throw (HeaderError e))
  | Some (WavHeader.Return wavInfo) =>
      match ReadTimecode.audioToDigital buffer
              (WavHeader.dataOffset wavInfo) (WavHeader.sampleRate wavInfo)
              (WavHeader.bitsPerSample wavInfo) ReadTimecode.defaultMaxSamples with
      | ReadTimecode.Throw e => Some (Throw (SampleError e))
      | ReadTimecode.Return digital =>
          match FrameSearch.findFirstValidLTCFrame
                  digital (WavHeader.sampleRate wavInfo) with
          | None => None
          | Some result => Some (Return result)
          end
      end
  end.

End ReadTool.

(* ------------------------------------------------------------------ *)
(** ** [sync-ltc-timecode.ts], continued: the other methods of the tool *)
(* ------------------------------------------------------------------ *)
Module SyncTool.

(** *** More of JavaScript's strings *)

(** [s.startsWith(p)]. *)
Fixpoint startsWith (p s : string) : bool :=
  match p, s with
  | EmptyString, _ => true
  | String a p', String b s' => Ascii.eqb a b && startsWith p' s'
  | String _ _, EmptyString => false
  end.

(** [s.includes(p)] for a string [p]. *)
Fixpoint includesString (p s : string) : bool :=
  startsWith p s ||
  match s with
  | String _ s' => includesString p s'
  | EmptyString => false
  end.

(** [n] characters taken from [pad] over and over; [cur] is what is left of
    the current copy. *)
Fixpoint cycle (n : nat) (cur pad : string) : string :=
  match n with
  | O => EmptyString
  | S k =>
      match cur with
      | String c rest => String c (cycle k rest pad)
      | EmptyString =>
          match pad with
          | String c rest => String c (cycle k rest pad)
          | EmptyString => EmptyString
          end
      end
  end.

(** [s.padStart(targetLength, padString)]. *)
Definition padStart (s : string) (targetLength : nat) (padString : string)
  : string :=
  if (targetLength <=? String.length s)%nat then s
  else match padString with
       | EmptyString => s
       | _ => (cycle (targetLength - String.length s) padString padString ++ s)%string
       end.

(** *** Sibling files *)

(** [isSiblingFile(sourceBase, targetBase)]. *)
Definition isSiblingFile (sourceBase targetBase : string) : bool :=
  let sourceParts := JS.splitChar "_" sourceBase in
  let targetParts := JS.splitChar "_" targetBase in
  if ((List.length sourceParts <? 3) || (List.length targetParts <? 3))%nat
  then false
  else
    let sourcePrefix := JS.join "_" (JS.slice sourceParts 0 2) in
    let targetPrefix := JS.join "_" (JS.slice targetParts 0 2) in
    String.eqb sourcePrefix targetPrefix.

(** *** From the output of [ltcdump] to the reference frame *)

Inductive exn : Type :=
| NoLTCFramesFound        (* "No LTC frames found in the source file" *)
| NoValidLTCFramesFound.  (* "No valid LTC frames found" *)

Inductive outcome (A : Type) : Type :=
| Return (a : A)
| Throw (e : exn).
Arguments Return {A} a.
Arguments Throw {A} e.

(** The filter on the lines of the output: not blank, not a comment, not a
    discontinuity notice. *)
Definition keepLine (line : string) : bool :=
  negb (String.eqb (JS.trim line) EmptyString)
  && negb (startsWith "#" line)
  && negb (includesString "DISCONTINUITY" line).

(** The loop that parses the lines and keeps the frames; [clock k] is the
    wall clock read while line [k] is parsed. *)
Fixpoint framesFrom (clock : nat -> SyncLtc.Date) (k : nat) (lines : list string)
  : list SyncLtc.LTCFrame :=
  match lines with
  | [] => []
  | line :: rest =>
      match fst (SyncLtc.parseLTCFrame (clock k) line) with
      | Some frame => frame :: framesFrom clock (S k) rest
      | None => framesFrom clock (S k) rest
      end
  end.

(** [runLTCdump()] after [execSync]: from the text [ltcdump] printed to the
    frames. The error thrown inside the [try] is thrown again by the
    [catch]. *)
Definition runLTCdump (clock : nat -> SyncLtc.Date) (output : string)
  : outcome (list SyncLtc.LTCFrame) :=
  let lines := filter keepLine (JS.splitChar "010" output) in
  match lines with
  | [] => Throw NoLTCFramesFound
  | _ => Return (framesFrom clock 0 lines)
  end.

(** [getFirstValidFrame(frames)]. *)
Definition getFirstValidFrame (frames : list SyncLtc.LTCFrame)
  : outcome SyncLtc.LTCFrame :=
  match frames with
  | [] => Throw NoValidLTCFramesFound
  | frame :: _ => Return frame
  end.

(** *** The metadata values *)

(** [formatCreationTime(frame)]. *)
Definition formatCreationTime (f : SyncLtc.LTCFrame) : string :=
  (padStart (JS.numToString (SyncLtc.hour f)) 2 "0" ++ ":" ++
   padStart (JS.numToString (SyncLtc.minute f)) 2 "0" ++ ":" ++
   padStart (JS.numToString (SyncLtc.second f)) 2 "0")%string.

(** The [originationDate] string of [updateFileMetadata]. *)
Definition originationDate (f : SyncLtc.LTCFrame) : string :=
  (JS.numToString (SyncLtc.year f) ++ "-" ++
   padStart (JS.numToString (SyncLtc.month f)) 2 "0" ++ "-" ++
   padStart (JS.numToString (SyncLtc.day f)) 2 "0")%string.

End SyncTool.

(* ------------------------------------------------------------------ *)
(** ** Reference definitions

    What the properties below compare the programs with: the formulas of the
    design, written independently of the code, and the construction of test
    inputs. *)
(* ------------------------------------------------------------------ *)
Module Reference.

(** The derivation written with exact rationals, as the formula reads on
    paper: the frame rate is 2997/100 or 30, and rounding is to the nearest
    integer, halves upwards. [num / den] is the value before rounding. *)
Definition exactTimeReference (h m s fr : Z) (drop : bool) : Z :=
  let '(rateNum, rateDen) := if drop then (2997, 100) else (30, 1) in
  (* totalFrames = ((h*3600 + m*60 + s) * rateNum + fr * rateDen) / rateDen *)
  let totalNum := (h * 3600 + m * 60 + s) * rateNum + fr * rateDen in
  (* totalFrames * 48000 / rate = totalNum * 48000 / rateNum *)
  let num := totalNum * 48000 in
  let den := rateNum in
  (2 * num + den) / (2 * den).

(** A text-form frame that carries just a timecode. *)
Definition timecodeFrame (h m s fr : Z) (drop : bool) : SyncLtc.LTCFrame :=
  {| SyncLtc.userBits := EmptyString; SyncLtc.timecode := EmptyString;
     SyncLtc.position := EmptyString;
     SyncLtc.year := None; SyncLtc.month := None; SyncLtc.day := None;
     SyncLtc.hour := Some h; SyncLtc.minute := Some m;
     SyncLtc.second := Some s; SyncLtc.frame := Some fr;
     SyncLtc.dropFrame := drop |}.

(** *** The LTC frame layout, as a table *)

Definition isBit (z : Z) : Prop := z = 0 \/ z = 1.

(** Bit [i] of an 80-bit frame. *)
Definition bitAt (bits : list Z) (i : nat) : Z := nth i bits 0.

(** The number whose binary digits are [bs], least significant first. *)
Fixpoint lsbFirst (bs : list Z) : Z :=
  match bs with
  | [] => 0
  | b :: rest => b + 2 * lsbFirst rest
  end.

(** The value held by the bit positions [positions], least significant
    position first. *)
Definition field (bits : list Z) (positions : list nat) : Z :=
  lsbFirst (map (bitAt bits) positions).

(** The frame the layout table assigns to 80 bits. *)
Definition decodeByLayout (bits : list Z) : ReadTimecode.LTCFrame :=
  {| ReadTimecode.frame := field bits [8; 9]%nat * 10 + field bits [0; 1; 2; 3]%nat;
     ReadTimecode.second := field bits [24; 25; 26]%nat * 10 + field bits [16; 17; 18; 19]%nat;
     ReadTimecode.minute := field bits [40; 41; 42]%nat * 10 + field bits [32; 33; 34; 35]%nat;
     ReadTimecode.hour := field bits [56; 57]%nat * 10 + field bits [48; 49; 50; 51]%nat;
     ReadTimecode.dropFrame := bitAt bits 10 =? 1;
     ReadTimecode.colorFrame := bitAt bits 11 =? 1;
     ReadTimecode.binaryGroup1 := field bits [4; 5; 6; 7]%nat;
     ReadTimecode.binaryGroup2 := field bits [12; 13; 14; 15]%nat;
     ReadTimecode.binaryGroup3 := field bits [20; 21; 22; 23]%nat;
     ReadTimecode.binaryGroup4 := field bits [28; 29; 30; 31]%nat;
     ReadTimecode.binaryGroup5 := field bits [36; 37; 38; 39]%nat;
     ReadTimecode.binaryGroup6 := field bits [44; 45; 46; 47]%nat;
     ReadTimecode.binaryGroup7 := field bits [52; 53; 54; 55]%nat;
     ReadTimecode.binaryGroup8 := field bits [60; 61; 62; 63]%nat |}.

(** Binary digit [k] of [x], as 0 or 1. *)
Definition bit (x : Z) (k : Z) : Z := Z.b2z (Z.testbit x k).

Definition flag (b : bool) : Z := if b then 1 else 0.

(** The four bits of a nibble, least significant first. *)
Definition nibbleBits (x : Z) : list Z := [bit x 0; bit x 1; bit x 2; bit x 3].

(** An 80-bit frame built from field values: BCD units and tens of each time
    field, the two flags, the eight user-bit groups, zero in the four
    positions the decoder ignores (27, 43, 58, 59), and the sync word. *)
Definition encodeLTCFrame (f : ReadTimecode.LTCFrame) : list Z :=
  let fr := ReadTimecode.frame f in
  let s := ReadTimecode.second f in
  let m := ReadTimecode.minute f in
  let h := ReadTimecode.hour f in
  nibbleBits (fr mod 10) ++ nibbleBits (ReadTimecode.binaryGroup1 f) ++
  [bit (fr / 10) 0; bit (fr / 10) 1;
   flag (ReadTimecode.dropFrame f); flag (ReadTimecode.colorFrame f)] ++
  nibbleBits (ReadTimecode.binaryGroup2 f) ++
  nibbleBits (s mod 10) ++ nibbleBits (ReadTimecode.binaryGroup3 f) ++
  [bit (s / 10) 0; bit (s / 10) 1; bit (s / 10) 2; 0] ++
  nibbleBits (ReadTimecode.binaryGroup4 f) ++
  nibbleBits (m mod 10) ++ nibbleBits (ReadTimecode.binaryGroup5 f) ++
  [bit (m / 10) 0; bit (m / 10) 1; bit (m / 10) 2; 0] ++
  nibbleBits (ReadTimecode.binaryGroup6 f) ++
  nibbleBits (h mod 10) ++ nibbleBits (ReadTimecode.binaryGroup7 f) ++
  [bit (h / 10) 0; bit (h / 10) 1; 0; 0] ++
  nibbleBits (ReadTimecode.binaryGroup8 f) ++
  ReadTimecode.syncPattern.

(** The field values an 80-bit frame can carry: two BCD digits per time
    field, the tens digit on two bits (frame, hour) or three (second,
    minute), and four bits per user-bit group. *)
Definition encodable (f : ReadTimecode.LTCFrame) : Prop :=
  0 <= ReadTimecode.frame f < 40 /\ 0 <= ReadTimecode.second f < 80 /\
  0 <= ReadTimecode.minute f < 80 /\ 0 <= ReadTimecode.hour f < 40 /\
  0 <= ReadTimecode.binaryGroup1 f < 16 /\ 0 <= ReadTimecode.binaryGroup2 f < 16 /\
  0 <= ReadTimecode.binaryGroup3 f < 16 /\ 0 <= ReadTimecode.binaryGroup4 f < 16 /\
  0 <= ReadTimecode.binaryGroup5 f < 16 /\ 0 <= ReadTimecode.binaryGroup6 f < 16 /\
  0 <= ReadTimecode.binaryGroup7 f < 16 /\ 0 <= ReadTimecode.binaryGroup8 f < 16.

(** *** Sync-word agreement of a window *)

(** How many of the 16 bits at offsets 64..79 of the window that starts at
    offset [i] agree with the sync pattern, and how many disagree. *)
Definition syncMatchesAt (bits : list Z) (i : nat) : nat :=
  ReadTimecode.countMatches
    (JS.slice (ReadTimecode.frameCandidateAt bits i) 64 80)
    ReadTimecode.syncPattern.


(** Offset [i] holds a whole window whose sync word passes the free scan. *)
Definition qualifies (bits : list Z) (i : nat) : Prop :=
  (i + 80 <= List.length bits /\ 15 <= syncMatchesAt bits i)%nat.

(** The sync word the decoder compares, and its verdict. *)
Definition decoderSyncMatches (bits : list Z) : nat :=
  ReadTimecode.countMatches (JS.slice bits 64 80) ReadTimecode.expectedSync.

(** The timecode 01:02:03:04 (non-drop), user bits 25 09 15 00. *)
Definition frame_01020304 : ReadTimecode.LTCFrame :=
  {| ReadTimecode.frame := 4; ReadTimecode.second := 3;
     ReadTimecode.minute := 2; ReadTimecode.hour := 1;
     ReadTimecode.dropFrame := false; ReadTimecode.colorFrame := false;
     ReadTimecode.binaryGroup1 := 0; ReadTimecode.binaryGroup2 := 0;
     ReadTimecode.binaryGroup3 := 5; ReadTimecode.binaryGroup4 := 1;
     ReadTimecode.binaryGroup5 := 9; ReadTimecode.binaryGroup6 := 0;
     ReadTimecode.binaryGroup7 := 5; ReadTimecode.binaryGroup8 := 2 |}.


(** *** Polarity traces *)

(** [n] samples that change polarity at every sample, starting with [b]. *)
Fixpoint alternating (n : nat) (b : bool) : list bool :=
  match n with
  | O => []
  | S k => b :: alternating k (negb b)
  end.

(** A 48 kHz trace (20 samples per bit): 1999 transitions one sample apart
    (999 one-bits and a pending half bit), then a transition a full bit
    period later. *)
Definition overshootTrace : list bool :=
  false :: alternating 1999 true ++ repeat true 19 ++ [false].

(** The biphase-mark waveform of a bit sequence at 20 samples per bit,
    starting from polarity [level]: a transition at every bit boundary, and
    one more in the middle of a one. *)
Fixpoint biphaseMark (bs : list Z) (level : bool) : list bool :=
  match bs with
  | [] => [level]
  | b :: rest =>
      if b =? 0 then repeat level 20 ++ biphaseMark rest (negb level)
      else repeat level 10 ++ repeat (negb level) 10 ++ biphaseMark rest level
  end.

(** *** The bit recoverer as the design states it

    Written from the description of the recoverer, not from its loops: the
    trace is first cut into the intervals between polarity changes, and each
    interval is then classified against the current bit period. The loops
    of the source are compared with this. *)

(** The elapsed intervals of a trace: one for each sample whose polarity
    differs from the polarity before it, counting the samples since the
    previous change (or since the first sample of the trace), the changing
    sample included. *)
Fixpoint intervalsFrom (level : bool) (since : Z) (samples : list bool)
  : list Z :=
  match samples with
  | [] => []
  | d :: rest =>
      if Bool.eqb d level then intervalsFrom level (since + 1) rest
      else (since + 1) :: intervalsFrom d 0 rest
  end.

Definition intervals (digital : list bool) : list Z :=
  match digital with
  | [] => []
  | first :: rest => intervalsFrom first 0 rest
  end.

(** What the recoverer holds between two polarity changes. *)
Record Recovered : Type := mkRecovered {
  period : float;          (* samplesPerBit *)
  emitted : list Z;
  halfPending : bool
}.

(** The bits once a pending half bit is closed as a "1". *)
Definition closePending (r : Recovered) : list Z :=
  if halfPending r then emitted r ++ [1] else emitted r.

(** The classification of one elapsed interval, with smoothing factor
    [alpha]: short, medium or long. *)
Definition classify (alpha : float) (r : Recovered) (elapsed : Z) : Recovered :=
  let e := JS.toFloat elapsed in
  let halfBitPeriod := (period r * 0.5)%float in
  let fullBitPeriod := period r in
  if (e <? halfBitPeriod * 1.5)%float then
    (* a "1" if a half bit is pending, otherwise the flag is set *)
    {| period := period r;
       emitted := closePending r;
       halfPending := negb (halfPending r) |}
  else if (e <? fullBitPeriod * 1.5)%float then
    (* a "1" for a pending half bit, then a "0"; the period is smoothed *)
    {| period := (period r * (1 - alpha) + e * alpha)%float;
       emitted := closePending r ++ [0];
       halfPending := false |}
  else
    (* a pending half bit is closed; no "0", no update *)
    {| period := period r;
       emitted := closePending r;
       halfPending := false |}.

(** The intervals classified one after the other while fewer than [budget]
    bits are emitted. *)
Fixpoint recover (alpha : float) (budget : nat) (r : Recovered)
    (elapsed : list Z) : Recovered :=
  match elapsed with
  | [] => r
  | e :: rest =>
      if (List.length (emitted r) <? budget)%nat
      then recover alpha budget (classify alpha r e) rest
      else r
  end.

(** Before the first interval: the nominal period of [sampleRate / 2400]
    samples, no bit, nothing pending. *)
Definition nominal (sampleRate : Z) : Recovered :=
  {| period := (JS.toFloat sampleRate / 2400)%float;
     emitted := [];
     halfPending := false |}.

(** The recovered bits of a whole trace. *)
Definition recovered (alpha : float) (budget : nat) (digital : list bool)
    (sampleRate : Z) : Recovered :=
  recover alpha budget (nominal sampleRate) (intervals digital).

(** What the state of a loop and the design-level state have in common. *)
Definition agree (st : ReadTimecode.DecoderState) (r : Recovered) : Prop :=
  ReadTimecode.bits st = emitted r
  /\ ReadTimecode.pendingBit st = halfPending r
  /\ ReadTimecode.samplesPerBit st = period r.

(** *** The bit budget *)

(** What every iteration of the loop maintains: the collected bits exceed
    the budget by at most one, and never while a half bit is pending. *)
Definition withinBudget (budget : nat) (st : ReadTimecode.DecoderState) : Prop :=
  (List.length (ReadTimecode.bits st) <= budget + 1)%nat
  /\ (ReadTimecode.pendingBit st = true -> (List.length (ReadTimecode.bits st) < budget)%nat).

(** *** User bits *)

(** The character of a decimal digit. *)
Definition digitChar (g : Z) : ascii := ascii_of_nat (48 + Z.to_nat g).

(** Every user-bit group of [f] is a single decimal digit. *)
Definition allDecimal (f : ReadTimecode.LTCFrame) : Prop :=
  ReadTimecode.binaryGroup1 f <= 9 /\ ReadTimecode.binaryGroup2 f <= 9 /\
  ReadTimecode.binaryGroup3 f <= 9 /\ ReadTimecode.binaryGroup4 f <= 9 /\
  ReadTimecode.binaryGroup5 f <= 9 /\ ReadTimecode.binaryGroup6 f <= 9 /\
  ReadTimecode.binaryGroup7 f <= 9 /\ ReadTimecode.binaryGroup8 f <= 9.

(** 01:02:03:04 again, with the hexadecimal digit A in user-bit group 1. *)
Definition frame_hexUserBits : ReadTimecode.LTCFrame :=
  {| ReadTimecode.frame := 4; ReadTimecode.second := 3;
     ReadTimecode.minute := 2; ReadTimecode.hour := 1;
     ReadTimecode.dropFrame := false; ReadTimecode.colorFrame := false;
     ReadTimecode.binaryGroup1 := 10; ReadTimecode.binaryGroup2 := 0;
     ReadTimecode.binaryGroup3 := 5; ReadTimecode.binaryGroup4 := 1;
     ReadTimecode.binaryGroup5 := 9; ReadTimecode.binaryGroup6 := 0;
     ReadTimecode.binaryGroup7 := 5; ReadTimecode.binaryGroup8 := 2 |}.

(** User bits 75 01 01 00: the first of January of a year that ends in 75. *)
Definition frame_year75 : ReadTimecode.LTCFrame :=
  {| ReadTimecode.frame := 4; ReadTimecode.second := 3;
     ReadTimecode.minute := 2; ReadTimecode.hour := 1;
     ReadTimecode.dropFrame := false; ReadTimecode.colorFrame := false;
     ReadTimecode.binaryGroup1 := 0; ReadTimecode.binaryGroup2 := 0;
     ReadTimecode.binaryGroup3 := 1; ReadTimecode.binaryGroup4 := 0;
     ReadTimecode.binaryGroup5 := 1; ReadTimecode.binaryGroup6 := 0;
     ReadTimecode.binaryGroup7 := 5; ReadTimecode.binaryGroup8 := 7 |}.

(** *** Text-form lines *)

(** A string of exactly two decimal digits. *)
Definition twoDigits (x : string) : Prop :=
  exists a b, x = String a (String b EmptyString)
              /\ JS.isDigit a = true /\ JS.isDigit b = true.

(** The wall clock of the examples: 2 November 2026. *)
Definition sampleNow : SyncLtc.Date :=
  {| SyncLtc.getFullYear := 2026; SyncLtc.getMonth := 10; SyncLtc.getDate := 2 |}.

(** A line of [ltcdump] output with corrupted user bits, an hour of 30 and
    a second of 61. *)
Definition corruptedLine : string :=
  "ce410081   30:04:61.16 |  2660708  2662667 R".

(** A line whose user bits carry the date 75-01-01. *)
Definition year75Line : string :=
  "75010100   01:02:03:04 |  2660708  2662667 R".

(** *** Ideal waveforms *)

(** The polarity a waveform is at after the bits [bs], having started at
    [level]: a zero has one transition, a one has two. *)
Fixpoint levelAfter (bs : list Z) (level : bool) : bool :=
  match bs with
  | [] => level
  | b :: rest => levelAfter rest (if b =? 0 then negb level else level)
  end.

Definition polarity (level : bool) : Z := if level then 1 else 0.

(** The decoder state with [n] more samples counted since the last
    transition. *)
Definition advance (st : ReadTimecode.DecoderState) (n : nat)
  : ReadTimecode.DecoderState :=
  {| ReadTimecode.currentState := ReadTimecode.currentState st;
     ReadTimecode.samplesPerBit := ReadTimecode.samplesPerBit st;
     ReadTimecode.samplesSinceChange :=
       ReadTimecode.samplesSinceChange st + Z.of_nat n;
     ReadTimecode.bits := ReadTimecode.bits st;
     ReadTimecode.pendingBit := ReadTimecode.pendingBit st |}.

(** The decoder state right after the transition that opens a bit cell, at
    20 samples per bit, with [acc] collected and no half bit pending. *)
Definition cellState (level : bool) (acc : list Z) : ReadTimecode.DecoderState :=
  {| ReadTimecode.currentState := polarity level;
     ReadTimecode.samplesPerBit := 20%float;
     ReadTimecode.samplesSinceChange := 0;
     ReadTimecode.bits := acc;
     ReadTimecode.pendingBit := false |}.

(** *** The frame search *)

(** What one iteration of [findFirstValidLTCFrame] makes of the chunk that
    starts at [startPos]: the frame it would return, if any. *)
Definition chunkFrame (digital : list bool) (sampleRate chunkSize startPos : Z)
  : option ReadTimecode.LTCFrame :=
  let bits :=
    ReadTimecode.detectManchesterBits
      (FrameSearch.sliceZ digital startPos (startPos + chunkSize)) sampleRate in
  if (80 <=? List.length bits)%nat then ReadTimecode.parseLTCFrame bits else None.

(** A trace longer than one chunk whose frame comes late: 4900 samples of
    silence at the high level, the waveform of 01:02:03:04 starting low, and
    200 more samples. The chunk that starts at sample 0 ends inside the
    frame; the one that starts at sample 200 holds all of it. *)
Definition lateFrameTrace : list bool :=
  repeat true 4900
  ++ biphaseMark (encodeLTCFrame frame_01020304) false
  ++ repeat true 200.

(** *** WAV files *)

(** What the header loop guarantees of a header it returns. *)
Definition headerInRange (buffer : list byte) (info : WavHeader.WavInfo) : Prop :=
  20 <= WavHeader.dataOffset info <= Z.of_nat (List.length buffer)
  /\ 0 <= WavHeader.dataSize info < 2 ^ 32
  /\ 0 <= WavHeader.sampleRate info < 2 ^ 32
  /\ 0 <= WavHeader.bitsPerSample info < 2 ^ 16
  /\ 0 <= WavHeader.numChannels info < 2 ^ 16.

(** The byte that holds [z mod 256]. *)
Definition byteOfZ (z : Z) : byte :=
  match Byte.of_N (Z.to_N (z mod 256)) with
  | Some b => b
  | None => x00
  end.

(** Little-endian unsigned integers on two and four bytes. *)
Definition u16le (z : Z) : list byte := [byteOfZ z; byteOfZ (z / 2 ^ 8)].
Definition u32le (z : Z) : list byte :=
  [byteOfZ z; byteOfZ (z / 2 ^ 8); byteOfZ (z / 2 ^ 16); byteOfZ (z / 2 ^ 24)].

(** A RIFF chunk ahead of the audio data: a format chunk (its six fields,
    and whatever extension follows them), or any chunk with another tag. *)
Inductive Chunk : Type :=
| FmtChunk (audioFormat numChannels sampleRate byteRate blockAlign
            bitsPerSample : Z) (extension : list byte)
| OtherChunk (id payload : list byte).

(** The bytes of a chunk: tag, size, payload, laid out back to back. *)
Definition encodeChunk (c : Chunk) : list byte :=
  match c with
  | FmtChunk audioFormat numChannels sampleRate byteRate blockAlign
             bitsPerSample extension =>
      ["f"; "m"; "t"; " "]%byte
      ++ u32le (16 + Z.of_nat (List.length extension))
      ++ u16le audioFormat ++ u16le numChannels ++ u32le sampleRate
      ++ u32le byteRate ++ u16le blockAlign ++ u16le bitsPerSample
      ++ extension
  | OtherChunk id payload =>
      id ++ u32le (Z.of_nat (List.length payload)) ++ payload
  end.

Definition wellFormedChunk (c : Chunk) : Prop :=
  match c with
  | FmtChunk audioFormat numChannels sampleRate byteRate blockAlign
             bitsPerSample extension =>
      0 <= audioFormat < 2 ^ 16 /\ 0 <= numChannels < 2 ^ 16
      /\ 0 <= sampleRate < 2 ^ 32 /\ 0 <= byteRate < 2 ^ 32
      /\ 0 <= blockAlign < 2 ^ 16 /\ 0 <= bitsPerSample < 2 ^ 16
      /\ 16 + Z.of_nat (List.length extension) < 2 ^ 32
  | OtherChunk id payload =>
      List.length id = 4%nat
      /\ WavHeader.asciiString id <> "fmt "%string
      /\ WavHeader.asciiString id <> "data"%string
      /\ Z.of_nat (List.length payload) < 2 ^ 32
  end.

(** The format in force after the chunks: that of the last format chunk,
    or the one given. *)
Fixpoint formatAfter (chunks : list Chunk) (sampleRate bitsPerSample numChannels : Z)
  : Z * Z * Z :=
  match chunks with
  | [] => (sampleRate, bitsPerSample, numChannels)
  | FmtChunk _ numChannels' sampleRate' _ _ bitsPerSample' _ :: rest =>
      formatAfter rest sampleRate' bitsPerSample' numChannels'
  | OtherChunk _ _ :: rest =>
      formatAfter rest sampleRate bitsPerSample numChannels
  end.

(** A file: twelve leading bytes, chunks, then the tag and the size of the
    data chunk and whatever follows. *)
Definition wavFile (riff : list byte) (chunks : list Chunk) (dataSize : Z)
    (rest : list byte) : list byte :=
  riff ++ List.concat (map encodeChunk chunks)
  ++ ["d"; "a"; "t"; "a"]%byte ++ u32le dataSize ++ rest.

(** The header such a file describes when the chunks start at [start] and
    the format in force before them is the one given: the data begins
    eight bytes after the chunks, with the size its chunk header states. *)
Definition headerOf (start : Z) (chunks : list Chunk)
    (sampleRate bitsPerSample numChannels dataSize : Z) : WavHeader.WavInfo :=
  let '(sampleRate', bitsPerSample', numChannels') :=
    formatAfter chunks sampleRate bitsPerSample numChannels in
  {| WavHeader.dataOffset :=
       start + Z.of_nat (List.length (List.concat (map encodeChunk chunks))) + 8;
     WavHeader.dataSize := dataSize;
     WavHeader.sampleRate := sampleRate';
     WavHeader.bitsPerSample := bitsPerSample';
     WavHeader.numChannels := numChannels' |}.

(** Signed 16-bit samples as the bytes of the data chunk. *)
Definition sample16 (v : Z) : list byte := u16le (v mod 2 ^ 16).
Definition pcm16 (vs : list Z) : list byte := flat_map sample16 vs.

(** A two-level signal of a given amplitude. *)
Definition signal (amplitude : Z) (levels : list bool) : list Z :=
  map (fun level : bool => if level then amplitude else - amplitude) levels.

(** *** Metadata text *)

(** A number below 100 written with two decimal digits. *)
Definition pad2 (z : Z) : string :=
  String (digitChar (z / 10)) (String (digitChar (z mod 10)) EmptyString).

(** What the tool makes of [corruptedLine] on [sampleNow]. *)
Definition corruptedFrame : SyncLtc.LTCFrame :=
  {| SyncLtc.userBits := "ce410081"; SyncLtc.timecode := "30:04:61.16";
     SyncLtc.position := "2660708";
     SyncLtc.year := Some 2026; SyncLtc.month := Some 11; SyncLtc.day := Some 2;
     SyncLtc.hour := Some 6; SyncLtc.minute := Some 4;
     SyncLtc.second := Some 61; SyncLtc.frame := Some 16;
     SyncLtc.dropFrame := true |}.

Definition corruptedWarnings : list SyncLtc.Warning :=
  [SyncLtc.InvalidDate "ce410081"; SyncLtc.InvalidHour (Some 30) (Some 6);
   SyncLtc.InvalidSecond (Some 61) (Some 1)].

(** A line of [ltcdump] output whose user bits hold a hexadecimal digit
    where the month starts. *)
Definition hexMonthLine : string :=
  "25c10581   06:04:00:16 |  2660708  2662667 R".

(** What the tool makes of [hexMonthLine]: the month is [NaN]. *)
Definition hexMonthFrame : SyncLtc.LTCFrame :=
  {| SyncLtc.userBits := "25c10581"; SyncLtc.timecode := "06:04:00:16";
     SyncLtc.position := "2660708";
     SyncLtc.year := Some 2025; SyncLtc.month := JS.NaN; SyncLtc.day := Some 5;
     SyncLtc.hour := Some 6; SyncLtc.minute := Some 4;
     SyncLtc.second := Some 0; SyncLtc.frame := Some 16;
     SyncLtc.dropFrame := false |}.

(** What the tool makes of [year75Line]. *)
Definition year75Frame : SyncLtc.LTCFrame :=
  {| SyncLtc.userBits := "75010100"; SyncLtc.timecode := "01:02:03:04";
     SyncLtc.position := "2660708";
     SyncLtc.year := Some 2075; SyncLtc.month := Some 1; SyncLtc.day := Some 1;
     SyncLtc.hour := Some 1; SyncLtc.minute := Some 2;
     SyncLtc.second := Some 3; SyncLtc.frame := Some 4;
     SyncLtc.dropFrame := false |}.

End Reference.

(* ================================================================== *)
(** * Part II: properties *)
(* ================================================================== *)

(** ** Generic helpers *)

(** A boolean check that holds on [0, 1, ..., n-1] holds on every integer of
    that range. *)
Lemma forallb_Z_range (P : Z -> bool) (n : nat) :
  forallb P (map Z.of_nat (seq 0 n)) = true ->
  forall x, 0 <= x < Z.of_nat n -> P x = true.
Proof.
  intros Hall x Hx.
  rewrite forallb_forall in Hall.
  apply Hall.
  apply in_map_iff. exists (Z.to_nat x). split.
  - lia.
  - apply in_seq. lia.
Qed.

(** ** Time reference ([calculateTimeReference]) *)

(** The double computation and the exact one agree on every timecode of the
    first two minutes, at both frame rates (7200 frames, by evaluation). *)
Lemma calculateTimeReference_exact_first_minutes :
  forall m s fr drop,
    0 <= m < 2 -> 0 <= s < 60 -> 0 <= fr < 30 ->
    SyncLtc.calculateTimeReference (Reference.timecodeFrame 0 m s fr drop)
    = Some (Reference.exactTimeReference 0 m s fr drop).
Proof.
  intros m s fr drop Hm Hs Hf.
  pose (P := fun drop m => forallb (fun s => forallb (fun fr =>
      match SyncLtc.calculateTimeReference (Reference.timecodeFrame 0 m s fr drop) with
      | Some v => v =? Reference.exactTimeReference 0 m s fr drop
      | None => false
      end) (map Z.of_nat (seq 0 30))) (map Z.of_nat (seq 0 60))).
  assert (Hall : forallb (P drop) (map Z.of_nat (seq 0 2)) = true)
    by (destruct drop; vm_compute; reflexivity).
  pose proof (forallb_Z_range _ _ Hall m Hm) as H1. unfold P in H1.
  pose proof (forallb_Z_range _ _ H1 s Hs) as H2. cbv beta in H2.
  pose proof (forallb_Z_range _ _ H2 fr Hf) as H3. cbv beta in H3.
  destruct (SyncLtc.calculateTimeReference (Reference.timecodeFrame 0 m s fr drop));
    [ apply Z.eqb_eq in H3; congruence | discriminate ].
Qed.



(** ** Frame field decoder ([parseLTCFrame] of [read-timecode.ts]) *)

Section ReadTimecodeProperties.
Import ReadTimecode.

Lemma fst_bind {A B : Type} (m : Reads A) (k : A -> Reads B) :
  fst (bind m k) = fst (k (fst m)).
Proof. unfold bind. destruct m as [a l1]. cbn. destruct (k a). reflexivity. Qed.

Lemma snd_bind {A B : Type} (m : Reads A) (k : A -> Reads B) :
  snd (bind m k) = snd m ++ snd (k (fst m)).
Proof. unfold bind. destruct m as [a l1]. cbn. destruct (k a). reflexivity. Qed.

Lemma nth_error_bitAt (bits : list Z) (i : nat) :
  (i < List.length bits)%nat -> nth_error bits i = Some (Reference.bitAt bits i).
Proof. intros Hi. unfold Reference.bitAt. apply nth_error_nth'. exact Hi. Qed.

Lemma bitAt_isBit (bits : list Z) (i : nat) :
  Forall Reference.isBit bits -> (i < List.length bits)%nat ->
  Reference.isBit (Reference.bitAt bits i).
Proof.
  intros Hall Hi. unfold Reference.bitAt.
  rewrite Forall_forall in Hall. apply Hall. apply nth_In. exact Hi.
Qed.

(** On bits, the shift-and-or expressions of the source are binary
    numerals read least significant bit first. *)
Lemma fst_nibble4 (bits : list Z) (i3 i2 i1 i0 : nat) :
  Forall Reference.isBit bits ->
  (i3 < List.length bits)%nat -> (i2 < List.length bits)%nat ->
  (i1 < List.length bits)%nat -> (i0 < List.length bits)%nat ->
  fst (nibble4 bits i3 i2 i1 i0) = Reference.field bits [i0; i1; i2; i3].
Proof.
  intros Hall H3 H2 H1 H0.
  unfold nibble4, get. rewrite !fst_bind. cbn [fst ret].
  rewrite !nth_error_bitAt by assumption.
  unfold Reference.field. cbn [map Reference.lsbFirst].
  destruct (bitAt_isBit bits i3 Hall H3) as [-> | ->];
    destruct (bitAt_isBit bits i2 Hall H2) as [-> | ->];
    destruct (bitAt_isBit bits i1 Hall H1) as [-> | ->];
    destruct (bitAt_isBit bits i0 Hall H0) as [-> | ->];
    reflexivity.
Qed.

Lemma fst_nibble3 (bits : list Z) (i2 i1 i0 : nat) :
  Forall Reference.isBit bits ->
  (i2 < List.length bits)%nat ->
  (i1 < List.length bits)%nat -> (i0 < List.length bits)%nat ->
  fst (nibble3 bits i2 i1 i0) = Reference.field bits [i0; i1; i2].
Proof.
  intros Hall H2 H1 H0.
  unfold nibble3, get. rewrite !fst_bind. cbn [fst ret].
  rewrite !nth_error_bitAt by assumption.
  unfold Reference.field. cbn [map Reference.lsbFirst].
  destruct (bitAt_isBit bits i2 Hall H2) as [-> | ->];
    destruct (bitAt_isBit bits i1 Hall H1) as [-> | ->];
    destruct (bitAt_isBit bits i0 Hall H0) as [-> | ->];
    reflexivity.
Qed.

Lemma fst_nibble2 (bits : list Z) (i1 i0 : nat) :
  Forall Reference.isBit bits ->
  (i1 < List.length bits)%nat -> (i0 < List.length bits)%nat ->
  fst (nibble2 bits i1 i0) = Reference.field bits [i0; i1].
Proof.
  intros Hall H1 H0.
  unfold nibble2, get. rewrite !fst_bind. cbn [fst ret].
  rewrite !nth_error_bitAt by assumption.
  unfold Reference.field. cbn [map Reference.lsbFirst].
  destruct (bitAt_isBit bits i1 Hall H1) as [-> | ->];
    destruct (bitAt_isBit bits i0 Hall H0) as [-> | ->];
    reflexivity.
Qed.


Lemma parseLTCFrame_by_layout (bits : list Z) :
  (80 <= List.length bits)%nat -> Forall Reference.isBit bits ->
  parseLTCFrame bits
  = if (Reference.decoderSyncMatches bits <? 14)%nat then None
    else Some (Reference.decodeByLayout bits).
Proof.
  intros Hlen Hall. unfold parseLTCFrame, parseLTCFrameR.
  replace (List.length bits <? 80)%nat with false
    by (symmetry; apply Nat.ltb_ge; exact Hlen).
  rewrite !fst_bind. cbn [sliceR fst].
  fold (Reference.decoderSyncMatches bits).
  destruct (Reference.decoderSyncMatches bits <? 14)%nat; [reflexivity|].
  rewrite !fst_bind. cbn [fst ret].
  rewrite !fst_nibble4, !fst_nibble3, !fst_nibble2 by (assumption || lia).
  unfold get. cbn [fst].
  rewrite !nth_error_bitAt by lia.
  reflexivity.
Qed.

(** *** Round trip through the layout *)

Lemma nibble_roundtrip (x : Z) :
  0 <= x < 16 ->
  Reference.lsbFirst
    [Reference.bit x 0; Reference.bit x 1; Reference.bit x 2; Reference.bit x 3] = x.
Proof.
  intros Hx. apply Z.eqb_eq.
  apply (forallb_Z_range
           (fun x => Reference.lsbFirst
                       [Reference.bit x 0; Reference.bit x 1;
                        Reference.bit x 2; Reference.bit x 3] =? x) 16);
    [vm_compute; reflexivity | exact Hx].
Qed.

Lemma bcd_tens2_roundtrip (x : Z) :
  0 <= x < 40 ->
  Reference.lsbFirst [Reference.bit (x / 10) 0; Reference.bit (x / 10) 1] * 10
  + Reference.lsbFirst
      [Reference.bit (x mod 10) 0; Reference.bit (x mod 10) 1;
       Reference.bit (x mod 10) 2; Reference.bit (x mod 10) 3] = x.
Proof.
  intros Hx. apply Z.eqb_eq.
  apply (forallb_Z_range
           (fun x =>
              Reference.lsbFirst
                [Reference.bit (x / 10) 0; Reference.bit (x / 10) 1] * 10
              + Reference.lsbFirst
                  [Reference.bit (x mod 10) 0; Reference.bit (x mod 10) 1;
                   Reference.bit (x mod 10) 2; Reference.bit (x mod 10) 3]
              =? x) 40);
    [vm_compute; reflexivity | exact Hx].
Qed.

Lemma bcd_tens3_roundtrip (x : Z) :
  0 <= x < 80 ->
  Reference.lsbFirst
    [Reference.bit (x / 10) 0; Reference.bit (x / 10) 1; Reference.bit (x / 10) 2] * 10
  + Reference.lsbFirst
      [Reference.bit (x mod 10) 0; Reference.bit (x mod 10) 1;
       Reference.bit (x mod 10) 2; Reference.bit (x mod 10) 3] = x.
Proof.
  intros Hx. apply Z.eqb_eq.
  apply (forallb_Z_range
           (fun x =>
              Reference.lsbFirst
                [Reference.bit (x / 10) 0; Reference.bit (x / 10) 1;
                 Reference.bit (x / 10) 2] * 10
              + Reference.lsbFirst
                  [Reference.bit (x mod 10) 0; Reference.bit (x mod 10) 1;
                   Reference.bit (x mod 10) 2; Reference.bit (x mod 10) 3]
              =? x) 80);
    [vm_compute; reflexivity | exact Hx].
Qed.

Lemma flag_roundtrip (b : bool) : (Reference.flag b =? 1) = b.
Proof. destruct b; reflexivity. Qed.

Lemma bit_isBit (x k : Z) : Reference.isBit (Reference.bit x k).
Proof. unfold Reference.bit, Reference.isBit. destruct (Z.testbit x k); cbn; auto. Qed.

Lemma flag_isBit (b : bool) : Reference.isBit (Reference.flag b).
Proof. unfold Reference.isBit. destruct b; cbn; auto. Qed.

Lemma encodeLTCFrame_length (f : ReadTimecode.LTCFrame) :
  List.length (Reference.encodeLTCFrame f) = 80%nat.
Proof. reflexivity. Qed.

Lemma encodeLTCFrame_bits (f : ReadTimecode.LTCFrame) :
  Forall Reference.isBit (Reference.encodeLTCFrame f).
Proof.
  unfold Reference.encodeLTCFrame, Reference.nibbleBits, ReadTimecode.syncPattern.
  cbn [app].
  repeat (apply Forall_cons;
          [first [apply bit_isBit | apply flag_isBit
                 | left; reflexivity | right; reflexivity] |]).
  apply Forall_nil.
Qed.

Lemma encodeLTCFrame_sync (f : ReadTimecode.LTCFrame) :
  Reference.decoderSyncMatches (Reference.encodeLTCFrame f) = 16%nat.
Proof. reflexivity. Qed.

Lemma decodeByLayout_encode (f : ReadTimecode.LTCFrame) :
  Reference.encodable f ->
  Reference.decodeByLayout (Reference.encodeLTCFrame f) = f.
Proof.
  destruct f as [fr s m h drop color g1 g2 g3 g4 g5 g6 g7 g8].
  unfold Reference.encodable. cbn [ReadTimecode.frame ReadTimecode.second
    ReadTimecode.minute ReadTimecode.hour ReadTimecode.binaryGroup1
    ReadTimecode.binaryGroup2 ReadTimecode.binaryGroup3 ReadTimecode.binaryGroup4
    ReadTimecode.binaryGroup5 ReadTimecode.binaryGroup6 ReadTimecode.binaryGroup7
    ReadTimecode.binaryGroup8].
  intros (Hfr & Hs & Hm & Hh & H1 & H2 & H3 & H4 & H5 & H6 & H7 & H8).
  unfold Reference.decodeByLayout, Reference.field, Reference.encodeLTCFrame,
    Reference.nibbleBits, Reference.bitAt, ReadTimecode.syncPattern.
  cbn [app map nth ReadTimecode.frame ReadTimecode.second
    ReadTimecode.minute ReadTimecode.hour ReadTimecode.dropFrame
    ReadTimecode.colorFrame ReadTimecode.binaryGroup1
    ReadTimecode.binaryGroup2 ReadTimecode.binaryGroup3 ReadTimecode.binaryGroup4
    ReadTimecode.binaryGroup5 ReadTimecode.binaryGroup6 ReadTimecode.binaryGroup7
    ReadTimecode.binaryGroup8].
  rewrite (bcd_tens2_roundtrip fr Hfr), (bcd_tens3_roundtrip s Hs),
    (bcd_tens3_roundtrip m Hm), (bcd_tens2_roundtrip h Hh).
  rewrite !flag_roundtrip.
  rewrite (nibble_roundtrip g1 H1), (nibble_roundtrip g2 H2),
    (nibble_roundtrip g3 H3), (nibble_roundtrip g4 H4),
    (nibble_roundtrip g5 H5), (nibble_roundtrip g6 H6),
    (nibble_roundtrip g7 H7), (nibble_roundtrip g8 H8).
  reflexivity.
Qed.

(** C2. For every 80-bit frame (elements 0 or 1) that passes the decoder's
    sync check, [parseLTCFrame] returns exactly the frame the layout table
    describes: each time field is tens * 10 + units with the bits read least
    significant first (frame 0-3 and 8-9, second 16-19 and 24-26, minute
    32-35 and 40-42, hour 48-51 and 56-57), dropFrame is bit 10, colorFrame
    is bit 11, and the eight user-bit groups are the nibbles at 4-7, 12-15,
    ..., 60-63. Consequently a frame built from encodable field values
    decodes to exactly those values. *)
Theorem parseLTCFrame_layout_roundtrip :
  forall (bits : list Z) (f : ReadTimecode.LTCFrame),
    (List.length bits = 80%nat -> Forall Reference.isBit bits ->
     (14 <= ReadTimecode.countMatches (JS.slice bits 64 80)
                                      ReadTimecode.expectedSync)%nat ->
     ReadTimecode.parseLTCFrame bits = Some (Reference.decodeByLayout bits))
    /\ (Reference.encodable f ->
        ReadTimecode.parseLTCFrame (Reference.encodeLTCFrame f) = Some f).
Proof.
  intros bits f. split.
  - intros Hlen Hall Hsync.
    rewrite parseLTCFrame_by_layout by (assumption || lia).
    unfold Reference.decoderSyncMatches.
    replace (_ <? 14)%nat with false
      by (symmetry; apply Nat.ltb_ge; exact Hsync).
    reflexivity.
  - intros Hf.
    rewrite parseLTCFrame_by_layout
      by (apply encodeLTCFrame_bits || (rewrite encodeLTCFrame_length; lia)).
    rewrite encodeLTCFrame_sync. cbn [Nat.ltb Nat.leb].
    rewrite (decodeByLayout_encode f Hf). reflexivity.
Qed.

Lemma parseLTCFrame_layout_roundtrip_witness :
  ReadTimecode.parseLTCFrame (Reference.encodeLTCFrame Reference.frame_01020304)
  = Some (Reference.decodeByLayout (Reference.encodeLTCFrame Reference.frame_01020304))
  /\ ReadTimecode.parseLTCFrame (Reference.encodeLTCFrame Reference.frame_01020304)
     = Some Reference.frame_01020304.
Proof.
  pose proof (parseLTCFrame_layout_roundtrip
                (Reference.encodeLTCFrame Reference.frame_01020304) Reference.frame_01020304)
    as [Hlayout Hround].
  split.
  - apply Hlayout.
    + reflexivity.
    + apply encodeLTCFrame_bits.
    + vm_compute. lia.
  - apply Hround. unfold Reference.encodable. cbn. lia.
Defined.

(** Below 80 elements the decoder stops at its first statement. *)
Lemma parseLTCFrameR_short (bits : list Z) :
  (List.length bits < 80)%nat -> parseLTCFrameR bits = ret None.
Proof.
  intros Hlen. unfold parseLTCFrameR.
  replace (List.length bits <? 80)%nat with true
    by (symmetry; apply Nat.ltb_lt; exact Hlen).
  reflexivity.
Qed.

(** C10. On fewer than 80 elements [parseLTCFrame] returns [null] and has
    read no element of [bits] at all: the length test comes before every
    field extraction and before the sync comparison. *)
Theorem parseLTCFrame_short_input :
  forall bits : list Z,
    (List.length bits < 80)%nat ->
    ReadTimecode.parseLTCFrame bits = None
    /\ ReadTimecode.parseLTCFrame_reads bits = [].
Proof.
  intros bits Hlen.
  unfold parseLTCFrame, parseLTCFrame_reads.
  rewrite (parseLTCFrameR_short bits Hlen).
  split; reflexivity.
Qed.

Lemma parseLTCFrame_short_input_witness :
  ReadTimecode.parseLTCFrame [0; 1; 1] = None
  /\ ReadTimecode.parseLTCFrame_reads [0; 1; 1] = [].
Proof.
  apply (parseLTCFrame_short_input [0; 1; 1]). cbn. lia.
Defined.

Lemma slice_length {A : Type} (xs : list A) (a b : nat) :
  (b <= List.length xs)%nat -> List.length (JS.slice xs a b) = (b - a)%nat.
Proof.
  intros Hb. unfold JS.slice. rewrite length_firstn, length_skipn. lia.
Qed.

(** On any input, every index the decoder reads lies inside [bits]. *)
Lemma parseLTCFrame_reads_in_range (bits : list Z) (i : nat) :
  In i (ReadTimecode.parseLTCFrame_reads bits) -> (i < List.length bits)%nat.
Proof.
  destruct (Nat.ltb_spec (List.length bits) 80) as [Hshort | Hlong].
  - unfold parseLTCFrame_reads. rewrite (parseLTCFrameR_short bits Hshort).
    intros [].
  - unfold parseLTCFrame_reads, parseLTCFrameR.
    replace (List.length bits <? 80)%nat with false
      by (symmetry; apply Nat.ltb_ge; exact Hlong).
    rewrite !snd_bind, ?fst_bind.
    unfold nibble4, nibble3, nibble2, get, sliceR.
    rewrite !snd_bind. cbn [snd fst ret].
    rewrite (slice_length bits 64 80 Hlong).
    cbn [Nat.sub seq app].
    destruct (countMatches _ _ <? 14)%nat.
    + cbn [snd ret]. intros Hin.
      assert (i < 80)%nat; [|lia].
      cbn in Hin. repeat (destruct Hin as [<- | Hin]; [lia|]). destruct Hin.
    + rewrite !snd_bind. cbn [snd fst ret app]. intros Hin.
      assert (i < 80)%nat; [|lia].
      cbn in Hin. repeat (destruct Hin as [<- | Hin]; [lia|]). destruct Hin.
Qed.

(** ** Frame synchronizer (the search of [detectManchesterBits]) *)



Lemma frameCandidateAt_whole (bits : list Z) :
  List.length bits = 80%nat -> frameCandidateAt bits 0 = bits.
Proof.
  intros Hlen. unfold frameCandidateAt, JS.slice. cbn [skipn Nat.add Nat.sub].
  apply firstn_all2. lia.
Qed.

Lemma frameCandidateAt_length (bits : list Z) (i : nat) :
  (i + 80 <= List.length bits)%nat ->
  List.length (frameCandidateAt bits i) = 80%nat.
Proof.
  intros Hi. unfold frameCandidateAt. rewrite slice_length; lia.
Qed.

(** The scan from offset [i] over [n] offsets returns the window of the
    first qualifying offset, or nothing when none qualifies. *)
Lemma findSyncFrom_first (bits : list Z) (n i : nat) :
  (findSyncFrom bits n i = []
   /\ forall j, (i <= j < i + n)%nat -> ~ Reference.qualifies bits j)
  \/ (exists k, (i <= k < i + n)%nat /\ Reference.qualifies bits k
        /\ (forall j, (i <= j < k)%nat -> ~ Reference.qualifies bits j)
        /\ findSyncFrom bits n i = frameCandidateAt bits k).
Proof.
  revert i. induction n as [| n IH]; intros i.
  - left. split; [reflexivity | intros j Hj; lia].
  - cbn [findSyncFrom].
    fold (Reference.syncMatchesAt bits i).
    destruct (Nat.leb_spec (i + 80) (List.length bits)) as [Hfit | Hfit];
      [destruct (Nat.leb_spec 15 (Reference.syncMatchesAt bits i)) as [Hm | Hm]|].
    + right. exists i. repeat split; try lia; try assumption.
    + assert (Hnot : ~ Reference.qualifies bits i)
        by (unfold Reference.qualifies; lia).
      destruct (IH (S i)) as [[Hnil Hnone] | (k & Hk & Hq & Hfirst & Hres)].
      * left. split; [exact Hnil|].
        intros j Hj. destruct (Nat.eq_dec j i) as [-> | Hne];
          [exact Hnot | apply Hnone; lia].
      * right. exists k. repeat split; try lia; try apply Hq; try exact Hres.
        intros j Hj. destruct (Nat.eq_dec j i) as [-> | Hne];
          [exact Hnot | apply Hfirst; lia].
    + assert (Hnot : ~ Reference.qualifies bits i)
        by (unfold Reference.qualifies; lia).
      destruct (IH (S i)) as [[Hnil Hnone] | (k & Hk & Hq & Hfirst & Hres)].
      * left. split; [exact Hnil|].
        intros j Hj. destruct (Nat.eq_dec j i) as [-> | Hne];
          [exact Hnot | apply Hnone; lia].
      * right. exists k. repeat split; try lia; try apply Hq; try exact Hres.
        intros j Hj. destruct (Nat.eq_dec j i) as [-> | Hne];
          [exact Hnot | apply Hfirst; lia].
Qed.

Lemma findSync_first (bits : list Z) :
  (findSync bits = [] /\ forall j, ~ Reference.qualifies bits j)
  \/ (exists k, Reference.qualifies bits k
        /\ (forall j, (j < k)%nat -> ~ Reference.qualifies bits j)
        /\ findSync bits = frameCandidateAt bits k).
Proof.
  unfold findSync.
  destruct (findSyncFrom_first bits (List.length bits + 1 - 80) 0)
    as [[Hnil Hnone] | (k & Hk & Hq & Hfirst & Hres)].
  - left. split; [exact Hnil|].
    intros j Hq.
    destruct (Nat.lt_ge_cases j (List.length bits + 1 - 80)) as [Hj | Hj].
    + apply (Hnone j); [lia | exact Hq].
    + unfold Reference.qualifies in Hq. lia.
  - right. exists k. repeat split; try apply Hq; try exact Hres.
    intros j Hj. apply Hfirst. lia.
Qed.




(** ** Bit recoverer (the loops of the two [detectManchesterBits] functions) *)

(** One step of the loop body on a polarity change, taken apart: the
    classification of the claim read off [sampleStep]. *)
Lemma sampleStep_classification (alpha : float) (st : DecoderState) (d : bool) :
  let st' := sampleStep (1 - alpha)%float alpha st d in
  let elapsed := JS.toFloat (samplesSinceChange st + 1) in
  let halfBitPeriod := (samplesPerBit st * 0.5)%float in
  let fullBitPeriod := samplesPerBit st in
  let closed := if pendingBit st then bits st ++ [1] else bits st in
  (if d then 1 else 0) <> currentState st ->
  ((elapsed <? halfBitPeriod * 1.5)%float = true ->
     bits st' = closed
     /\ pendingBit st' = negb (pendingBit st)
     /\ samplesPerBit st' = samplesPerBit st)
  /\ ((elapsed <? halfBitPeriod * 1.5)%float = false ->
      (elapsed <? fullBitPeriod * 1.5)%float = true ->
      bits st' = closed ++ [0]
      /\ pendingBit st' = false
      /\ samplesPerBit st'
         = (samplesPerBit st * (1 - alpha) + elapsed * alpha)%float)
  /\ ((elapsed <? halfBitPeriod * 1.5)%float = false ->
      (elapsed <? fullBitPeriod * 1.5)%float = false ->
      bits st' = closed
      /\ pendingBit st' = false
      /\ samplesPerBit st' = samplesPerBit st).
Proof.
  intros st' elapsed halfBitPeriod fullBitPeriod closed Hchange.
  unfold st', sampleStep, transition.
  destruct (Z.eqb_spec (if d then 1 else 0) (currentState st)) as [Heq | _];
    [contradiction|].
  cbn [samplesSinceChange samplesPerBit pendingBit bits].
  fold elapsed. fold halfBitPeriod. fold fullBitPeriod.
  unfold closed.
  destruct (elapsed <? halfBitPeriod * 1.5)%float;
    destruct (elapsed <? fullBitPeriod * 1.5)%float;
    destruct (pendingBit st);
    repeat split; intros; cbn; try reflexivity; try discriminate.
Qed.

Lemma recover_full (alpha : float) (budget : nat) (r : Reference.Recovered)
    (elapsed : list Z) :
  (budget <= List.length (Reference.emitted r))%nat ->
  Reference.recover alpha budget r elapsed = r.
Proof.
  intros Hfull. destruct elapsed as [| e rest]; [reflexivity|].
  cbn [Reference.recover].
  replace (_ <? _)%nat with false by (symmetry; apply Nat.ltb_ge; exact Hfull).
  reflexivity.
Qed.

(** On a polarity change the loop body does to its state what the
    classification does to the design-level state, and restarts the count
    at the new polarity. *)
Lemma sampleStep_classify (alpha : float) (st : DecoderState) (d : bool)
    (r : Reference.Recovered) :
  Reference.agree st r ->
  (if d then 1 else 0) <> currentState st ->
  let st' := sampleStep (1 - alpha)%float alpha st d in
  Reference.agree st' (Reference.classify alpha r (samplesSinceChange st + 1))
  /\ currentState st' = (if d then 1 else 0)
  /\ samplesSinceChange st' = 0.
Proof.
  intros (Hbits & Hpending & Hperiod) Hchange. cbv zeta.
  unfold sampleStep, transition, Reference.classify, Reference.closePending, Reference.agree.
  destruct (Z.eqb_spec (if d then 1 else 0) (currentState st)) as [Heq | _];
    [contradiction|].
  cbn [samplesSinceChange samplesPerBit pendingBit bits].
  rewrite Hperiod, Hpending, Hbits.
  destruct (_ <? _)%float; [|destruct (_ <? _)%float];
    destruct (Reference.halfPending r); cbn; repeat split; reflexivity.
Qed.

(** A sample at the current polarity only lengthens the interval. *)
Lemma sampleStep_same (keep gain : float) (st : DecoderState) (d : bool)
    (r : Reference.Recovered) :
  Reference.agree st r ->
  (if d then 1 else 0) = currentState st ->
  let st' := sampleStep keep gain st d in
  Reference.agree st' r
  /\ currentState st' = currentState st
  /\ samplesSinceChange st' = samplesSinceChange st + 1.
Proof.
  intros Hagree Hsame. cbv zeta. unfold sampleStep.
  rewrite Hsame, Z.eqb_refl. cbn. repeat split; apply Hagree.
Qed.

(** The loop refines the design: run from a state that agrees with a
    design-level state, over the samples that remain, it ends in a state
    that agrees with the classification of the intervals that remain. *)
Lemma decodeLoop_recover (alpha : float) (budget : nat) (rest : list bool) :
  forall (st : DecoderState) (level : bool) (r : Reference.Recovered),
    Reference.agree st r ->
    currentState st = (if level then 1 else 0) ->
    Reference.agree (decodeLoop (1 - alpha)%float alpha budget st rest)
          (Reference.recover alpha budget r
             (Reference.intervalsFrom level (samplesSinceChange st) rest)).
Proof.
  induction rest as [| d rest IH]; intros st level r Hagree Hlevel.
  - exact Hagree.
  - cbn [decodeLoop Reference.intervalsFrom].
    destruct (Nat.ltb_spec (List.length (bits st)) budget) as [Hroom | Hfull].
    + destruct (Bool.eqb d level) eqn:Hd.
      * apply Bool.eqb_prop in Hd. subst d.
        destruct (sampleStep_same (1 - alpha)%float alpha st level r Hagree
                    (eq_sym Hlevel)) as (Hagree' & Hcur & Hsince).
        cbv zeta in Hagree', Hcur, Hsince. rewrite <- Hsince.
        apply IH; [exact Hagree' | rewrite Hcur; exact Hlevel].
      * assert (Hchange : (if d then 1 else 0) <> currentState st)
          by (rewrite Hlevel; destruct d, level; discriminate).
        destruct (sampleStep_classify alpha st d r Hagree Hchange)
          as (Hagree' & Hcur & Hsince).
        cbv zeta in Hagree', Hcur, Hsince.
        cbn [Reference.recover].
        replace (List.length (Reference.emitted r) <? budget)%nat with true
          by (symmetry; apply Nat.ltb_lt;
              destruct Hagree as (Hb & _); rewrite <- Hb; exact Hroom).
        rewrite <- Hsince.
        apply IH; [exact Hagree' | exact Hcur].
    + rewrite recover_full; [exact Hagree|].
      destruct Hagree as (Hb & _). rewrite <- Hb. exact Hfull.
Qed.

(** C4. For every polarity trace and sample rate, both loops do what the
    design says of the bit recoverer, interval by interval. Cut the trace
    into the elapsed intervals between its polarity changes and, starting
    from the nominal period with no bit and nothing pending, classify each
    one while the budget lasts: shorter than 1.5 half periods, a pending
    half bit is closed as a "1" and otherwise the pending flag is set;
    shorter than 1.5 full periods, a pending half bit is closed as a "1", a
    "0" follows, and [samplesPerBit] becomes
    [old * (1 - alpha) + elapsed * alpha]; any longer interval closes a
    pending half bit as a "1", emits no "0" and leaves [samplesPerBit]
    alone. The loop of the source ends with exactly these bits, this pending
    flag and this period, for every [alpha] and budget; the free scan is the
    case [alpha = 0.01] with a budget of 1000, the position-anchored decode
    the case [alpha = 0.05] with a budget of 80, each followed by its final
    flush. *)
Theorem bit_recoverer_classification :
  forall (digital : list bool) (sampleRate : Z),
    (forall (alpha : float) (budget : nat),
       let final := ReadTimecode.decodeLoop (1 - alpha)%float alpha budget
                      (ReadTimecode.initialState digital sampleRate)
                      (tl digital) in
       let design := Reference.recovered alpha budget digital sampleRate in
       ReadTimecode.bits final = Reference.emitted design
       /\ ReadTimecode.pendingBit final = Reference.halfPending design
       /\ ReadTimecode.samplesPerBit final = Reference.period design)
    /\ ReadTimecode.collectBits digital sampleRate
       = Reference.closePending
           (Reference.recovered 0.01%float 1000 digital sampleRate)
    /\ ReadTimecode.collectBitsFromPosition digital sampleRate
       = (let design := Reference.recovered 0.05%float 80 digital sampleRate in
          if Reference.halfPending design
             && (List.length (Reference.emitted design) <? 80)%nat
          then Reference.emitted design ++ [1]
          else Reference.emitted design).
Proof.
  intros digital sampleRate.
  assert (Hloop : forall alpha budget,
             Reference.agree (decodeLoop (1 - alpha)%float alpha budget
                      (initialState digital sampleRate) (tl digital))
                   (Reference.recovered alpha budget digital sampleRate)).
  { intros alpha budget. unfold Reference.recovered, Reference.intervals.
    destruct digital as [| first rest]; [repeat split|].
    cbn [tl].
    change 0 with (samplesSinceChange (initialState (first :: rest) sampleRate))
      at 1.
    apply decodeLoop_recover; [repeat split | reflexivity]. }
  split; [|split].
  - intros alpha budget. exact (Hloop alpha budget).
  - unfold collectBits, Reference.closePending.
    destruct (Hloop 0.01%float 1000%nat) as (Hb & Hp & _).
    change (1 - 0.01)%float with 0.99%float in Hb, Hp.
    rewrite Hb, Hp. reflexivity.
  - unfold collectBitsFromPosition, Reference.closePending. cbv zeta.
    destruct (Hloop 0.05%float 80%nat) as (Hb & Hp & _).
    change (1 - 0.05)%float with 0.95%float in Hb, Hp.
    rewrite Hb, Hp. reflexivity.
Qed.

Lemma bit_recoverer_classification_witness :
  Reference.intervals (Reference.biphaseMark [1; 0; 0; 1] false)
  = [10; 10; 20; 20; 10; 10]
  /\ ReadTimecode.collectBits (Reference.biphaseMark [1; 0; 0; 1] false) 48000
     = [1; 0; 0; 1].
Proof.
  split; [reflexivity|].
  destruct (bit_recoverer_classification
              (Reference.biphaseMark [1; 0; 0; 1] false) 48000) as (_ & H & _).
  rewrite H. vm_compute. reflexivity.
Defined.

(** *** The bit budget *)

Lemma sampleStep_withinBudget (keep gain : float) (budget : nat)
    (st : DecoderState) (d : bool) :
  (List.length (bits st) < budget)%nat ->
  Reference.withinBudget budget (sampleStep keep gain st d).
Proof.
  intros Hlt. unfold Reference.withinBudget, sampleStep, transition.
  destruct (Z.eqb_spec (if d then 1 else 0) (currentState st)) as [_ | _].
  - cbn. split; [lia | intros _; exact Hlt].
  - cbn [samplesSinceChange samplesPerBit pendingBit bits].
    destruct (_ <? _)%float; [|destruct (_ <? _)%float];
      destruct (pendingBit st); cbn; rewrite ?length_app; cbn;
      (split; [lia | intros Hp; try discriminate Hp; lia]).
Qed.

Lemma decodeLoop_withinBudget (keep gain : float) (budget : nat)
    (rest : list bool) (st : DecoderState) :
  Reference.withinBudget budget st ->
  Reference.withinBudget budget (decodeLoop keep gain budget st rest).
Proof.
  revert st. induction rest as [| d rest IH]; intros st Hinv; [exact Hinv|].
  cbn [decodeLoop].
  destruct (Nat.ltb_spec (List.length (bits st)) budget) as [Hlt | _].
  - apply IH. apply sampleStep_withinBudget. exact Hlt.
  - exact Hinv.
Qed.

Lemma initialState_withinBudget (budget : nat) (digital : list bool)
    (sampleRate : Z) :
  Reference.withinBudget budget (initialState digital sampleRate).
Proof. split; cbn; [lia | discriminate]. Qed.

(** The free scan collects at most 1001 bits, flushes a trailing half bit
    only below the budget, and hands at most 80 bits on. *)
Lemma collectBits_length (digital : list bool) (sampleRate : Z) :
  (List.length (collectBits digital sampleRate) <= 1001)%nat.
Proof.
  unfold collectBits.
  pose proof (decodeLoop_withinBudget 0.99%float 0.01%float 1000 (tl digital) _
                (initialState_withinBudget 1000 digital sampleRate)) as [Hle Hp].
  destruct (pendingBit _); [rewrite length_app; cbn; specialize (Hp eq_refl)|]; lia.
Qed.

Lemma collectBits_flush (digital : list bool) (sampleRate : Z) :
  let final := decodeLoop 0.99%float 0.01%float 1000
                 (initialState digital sampleRate) (tl digital) in
  collectBits digital sampleRate <> bits final ->
  pendingBit final = true /\ (List.length (bits final) < 1000)%nat
  /\ collectBits digital sampleRate = bits final ++ [1].
Proof.
  intros final. unfold collectBits. fold final.
  pose proof (decodeLoop_withinBudget 0.99%float 0.01%float 1000 (tl digital) _
                (initialState_withinBudget 1000 digital sampleRate)) as [_ Hp].
  fold final in Hp.
  destruct (pendingBit final); [auto | intros H; contradiction H; reflexivity].
Qed.

Lemma collectBitsFromPosition_flush (digital : list bool) (sampleRate : Z) :
  let final := decodeLoop 0.95%float 0.05%float 80
                 (initialState digital sampleRate) (tl digital) in
  collectBitsFromPosition digital sampleRate <> bits final ->
  pendingBit final = true /\ (List.length (bits final) < 80)%nat
  /\ collectBitsFromPosition digital sampleRate = bits final ++ [1].
Proof.
  intros final. unfold collectBitsFromPosition. fold final.
  destruct (pendingBit final); cbn [andb];
    [destruct (Nat.ltb_spec (List.length (bits final)) 80) as [Hlt | Hge]|];
    try (intros H; contradiction H; reflexivity).
  intros _. repeat split. exact Hlt.
Qed.

Lemma detectManchesterBitsFromPosition_length (digital : list bool)
    (sampleRate : Z) :
  (List.length (detectManchesterBitsFromPosition digital sampleRate) <= 80)%nat.
Proof.
  unfold detectManchesterBitsFromPosition, JS.slice.
  rewrite length_firstn. lia.
Qed.

Lemma detectManchesterBits_length (digital : list bool) (sampleRate : Z) :
  (List.length (detectManchesterBits digital sampleRate) <= 80)%nat.
Proof.
  unfold detectManchesterBits.
  destruct (findSync_first (collectBits digital sampleRate))
    as [[Hnil _] | (k & Hq & _ & Hres)].
  - rewrite Hnil. cbn. lia.
  - rewrite Hres, frameCandidateAt_length; [lia | apply Hq].
Qed.

(** C5. At the trace [overshootTrace] (48 kHz) the free scan holds 999 bits
    and a pending half bit when a full-period transition arrives; it pushes
    a "1" and a "0" in the same iteration and ends with 1001 bits, one more
    than the budget of 1000 its loop condition tests. *)
Theorem collectBits_overshoot :
  List.length (ReadTimecode.collectBits Reference.overshootTrace 48000) = 1001%nat.
Proof. vm_compute. reflexivity. Qed.

(** ** Digitizer ([audioToDigital]) *)

Lemma byteAt_in_range (buffer : list byte) (off : Z) :
  0 <= off < Z.of_nat (List.length buffer) ->
  exists v, byteAt buffer off = Some v.
Proof.
  intros Hoff. unfold byteAt.
  replace (off <? 0) with false by (symmetry; apply Z.ltb_ge; lia).
  destruct (nth_error buffer (Z.to_nat off)) as [b |] eqn:Hnth.
  - eexists. reflexivity.
  - apply nth_error_None in Hnth. lia.
Qed.

(** Inside the sample count every read succeeds, whatever the (whole-byte)
    depth. *)
Lemma readSample_in_range (buffer : list byte) (dataOffset bytes i : Z) :
  0 <= dataOffset -> 0 < bytes ->
  0 <= i < (Z.of_nat (List.length buffer) - dataOffset) / bytes ->
  exists s, readSample buffer dataOffset (8 * bytes) i = Return s.
Proof.
  intros Hoff Hbytes Hi.
  assert (Hfit : dataOffset + i * bytes + bytes
                 <= Z.of_nat (List.length buffer)).
  { pose proof (Z.mul_div_le (Z.of_nat (List.length buffer) - dataOffset)
                  bytes Hbytes). nia. }
  unfold readSample, sampleOffset.
  replace (i * (8 * bytes)) with (i * bytes * 8) by lia.
  rewrite Z.mod_mul, Z.div_mul by lia. cbn [Z.eqb].
  destruct (Z.eqb_spec (8 * bytes) 32) as [H32 | _];
    [| destruct (Z.eqb_spec (8 * bytes) 16) as [H16 | _]].
  - unfold readFloatLE.
    destruct (byteAt_in_range buffer (dataOffset + i * bytes)) as [b0 ->]; [lia|].
    destruct (byteAt_in_range buffer (dataOffset + i * bytes + 1)) as [b1 ->]; [lia|].
    destruct (byteAt_in_range buffer (dataOffset + i * bytes + 2)) as [b2 ->]; [lia|].
    destruct (byteAt_in_range buffer (dataOffset + i * bytes + 3)) as [b3 ->]; [lia|].
    eexists. reflexivity.
  - unfold readInt16LE.
    destruct (byteAt_in_range buffer (dataOffset + i * bytes)) as [b0 ->]; [lia|].
    destruct (byteAt_in_range buffer (dataOffset + i * bytes + 1)) as [b1 ->]; [lia|].
    eexists. reflexivity.
  - unfold readInt8.
    destruct (byteAt_in_range buffer (dataOffset + i * bytes)) as [b0 ->]; [lia|].
    eexists. reflexivity.
Qed.

(** The loop pushes one polarity per sample, in order. *)
Lemma digitize_returns (buffer : list byte) (dataOffset bitsPerSample : Z)
    (n : nat) :
  forall (i0 : Z) (acc : list bool),
    (forall k, 0 <= k < Z.of_nat n ->
       exists s, readSample buffer dataOffset bitsPerSample (i0 + k) = Return s) ->
    exists out,
      digitize buffer dataOffset bitsPerSample n i0 acc = Return (acc ++ out)
      /\ List.length out = n
      /\ forall k, (k < n)%nat ->
           exists s,
             readSample buffer dataOffset bitsPerSample (i0 + Z.of_nat k) = Return s
             /\ nth_error out k = Some (aboveThreshold s).
Proof.
  induction n as [| n IH]; intros i0 acc Hreads.
  - exists []. cbn. rewrite app_nil_r. repeat split. intros k Hk. lia.
  - destruct (Hreads 0) as [s0 Hs0]; [lia|].
    rewrite Z.add_0_r in Hs0.
    destruct (IH (i0 + 1) (acc ++ [aboveThreshold s0])) as (out & Hrun & Hlen & Hnth).
    { intros k Hk. destruct (Hreads (1 + k)) as [s Hs]; [lia|].
      exists s. rewrite <- Hs. f_equal. lia. }
    exists (aboveThreshold s0 :: out).
    cbn [digitize]. rewrite Hs0, Hrun, <- app_assoc. cbn [app].
    repeat split; [cbn; lia|].
    intros [| k] Hk.
    + exists s0. rewrite Z.add_0_r. split; [exact Hs0 | reflexivity].
    + destruct (Hnth k) as (s & Hs & Hk'); [lia|].
      exists s. split; [|exact Hk'].
      rewrite <- Hs. f_equal. lia.
Qed.

(** C6 (amended). For a buffer, a data offset inside it and any depth of
    whole bytes, [audioToDigital] returns normally: the trace has
    min(available, cap) entries, with [available] the floor of
    (length - dataOffset) / bytesPerSample, and entry [i] tells whether the
    value decoded at byte [dataOffset + i * bytesPerSample] is strictly
    positive, where the value is read as a binary32 float when the depth is
    32, as a signed 16-bit integer when it is 16, and as a signed byte at
    every other depth. No depth is rejected. *)
Theorem audioToDigital_trace :
  forall (buffer : list byte) (dataOffset sampleRate bytesPerSample maxSamples : Z),
    0 <= dataOffset -> 0 < bytesPerSample ->
    let bitsPerSample := 8 * bytesPerSample in
    let available :=
      (Z.of_nat (List.length buffer) - dataOffset) / bytesPerSample in
    exists digital,
      ReadTimecode.audioToDigital buffer dataOffset sampleRate bitsPerSample maxSamples
      = ReadTimecode.Return digital
      /\ List.length digital = Z.to_nat (Z.min available maxSamples)
      /\ forall i, (i < List.length digital)%nat ->
           let off := dataOffset + Z.of_nat i * bytesPerSample in
           exists s,
             (if bitsPerSample =? 32 then ReadTimecode.readFloatLE buffer off
              else if bitsPerSample =? 16 then ReadTimecode.readInt16LE buffer off
              else ReadTimecode.readInt8 buffer off) = ReadTimecode.Return s
             /\ nth_error digital i = Some (ReadTimecode.aboveThreshold s).
Proof.
  intros buffer dataOffset sampleRate bytesPerSample maxSamples Hoff Hbytes
         bitsPerSample available.
  unfold audioToDigital, availableSamples, numSamples, iterations.
  replace (bitsPerSample =? 0) with false
    by (symmetry; apply Z.eqb_neq; unfold bitsPerSample; lia).
  replace (8 * (Z.of_nat (List.length buffer) - dataOffset) / bitsPerSample)
    with available
    by (unfold available, bitsPerSample; rewrite Z.div_mul_cancel_l; lia).
  destruct (digitize_returns buffer dataOffset bitsPerSample
              (Z.to_nat (Z.min available maxSamples)) 0 [])
    as (out & Hrun & Hlen & Hnth).
  { intros k Hk. apply readSample_in_range; lia. }
  exists out. cbn [app] in Hrun. repeat split; [exact Hrun | exact Hlen |].
  intros i Hi. cbv zeta. rewrite Hlen in Hi.
  destruct (Hnth i Hi) as (s & Hs & Hi'). exists s. split; [|exact Hi'].
  rewrite <- Hs. unfold readSample, sampleOffset, bitsPerSample.
  replace ((0 + Z.of_nat i) * (8 * bytesPerSample))
    with (Z.of_nat i * bytesPerSample * 8) by lia.
  rewrite Z.mod_mul, Z.div_mul by lia. reflexivity.
Qed.

Lemma audioToDigital_trace_witness :
  exists digital,
    ReadTimecode.audioToDigital [x01; x00; xff; x7f; x00; x80]%byte 0 48000 16 2
    = ReadTimecode.Return digital
    /\ List.length digital = 2%nat.
Proof.
  destruct (audioToDigital_trace [x01; x00; xff; x7f; x00; x80]%byte 0 48000 2 2)
    as (digital & Hrun & Hlen & _); [lia | lia |].
  exists digital. split; [exact Hrun | exact Hlen].
Defined.

(** C6, as stated, fails at a depth of 24 bits, which is none of 8, 16 and
    32: the call returns a trace instead of failing. Each sample is digitized
    from its low byte alone: the first (0xFF0001, negative) comes out [true],
    the second (0x000080, positive) comes out [false]. *)
Lemma audioToDigital_depth24_returns :
  24 <> 8 /\ 24 <> 16 /\ 24 <> 32
  /\ ReadTimecode.audioToDigital [x01; x00; xff; x80; x00; x00]%byte 0 48000 24
       ReadTimecode.defaultMaxSamples
     = ReadTimecode.Return [true; false].
Proof. repeat split; try discriminate. Qed.

End ReadTimecodeProperties.

(** ** Text-form frames ([parseLTCFrame] of [sync-ltc-timecode.ts]) *)

Section SyncLtcProperties.
Import SyncLtc.

(** Case analysis on a character known to be a decimal digit. *)
Ltac digit_cases c Hc :=
  destruct c as [[] [] [] [] [] [] [] []];
  vm_compute in Hc; try discriminate Hc; clear Hc.

Lemma digit_range (c : ascii) :
  JS.isDigit c = true -> 0 <= JS.code c - 48 <= 9.
Proof.
  unfold JS.isDigit. intros H. apply andb_true_iff in H as [H1 H2].
  apply Z.leb_le in H1. apply Z.leb_le in H2. lia.
Qed.

(** [parseInt] of two decimal digits is the number they spell. *)
Lemma parseInt_two_digits (a b : ascii) :
  JS.isDigit a = true -> JS.isDigit b = true ->
  JS.parseInt (String a (String b EmptyString))
  = Some (10 * (JS.code a - 48) + (JS.code b - 48)).
Proof.
  intros Ha Hb. digit_cases a Ha; digit_cases b Hb; reflexivity.
Qed.

(** With the century prefixed, two digits [yy] are read as [2000 + yy]. *)
Lemma parseInt_century_prefix (a b : ascii) :
  JS.isDigit a = true -> JS.isDigit b = true ->
  JS.parseInt ("20" ++ String a (String b EmptyString))%string
  = Some (2000 + (10 * (JS.code a - 48) + (JS.code b - 48))).
Proof.
  intros Ha Hb. digit_cases a Ha; digit_cases b Hb; reflexivity.
Qed.

(** The groups of a timecode match are pairs of digits. *)
Lemma matchHere_digits (s hh mm ss ff : string) :
  matchHere s = Some (hh, mm, ss, ff) ->
  Reference.twoDigits hh /\ Reference.twoDigits mm /\ Reference.twoDigits ss /\ Reference.twoDigits ff.
Proof.
  unfold matchHere.
  destruct s as [| h1 [| h2 [| c1 [| m1 [| m2 [| c2 [| s1 [| s2 [| sep
              [| f1 [| f2 rest]]]]]]]]]]]; try discriminate.
  destruct (JS.isDigit h1) eqn:Hh1; [|discriminate].
  destruct (JS.isDigit h2) eqn:Hh2; [|discriminate].
  destruct (Ascii.eqb c1 ":"); [|discriminate].
  destruct (JS.isDigit m1) eqn:Hm1; [|discriminate].
  destruct (JS.isDigit m2) eqn:Hm2; [|discriminate].
  destruct (Ascii.eqb c2 ":"); [|discriminate].
  destruct (JS.isDigit s1) eqn:Hs1; [|discriminate].
  destruct (JS.isDigit s2) eqn:Hs2; [|discriminate].
  destruct (Ascii.eqb sep "." || Ascii.eqb sep ":"); [|discriminate].
  destruct (JS.isDigit f1) eqn:Hf1; [|discriminate].
  destruct (JS.isDigit f2) eqn:Hf2; [|discriminate].
  cbn. intros H. injection H as <- <- <- <-.
  repeat split; eexists; eexists; repeat split; assumption.
Qed.

Lemma matchTimecode_digits (s hh mm ss ff : string) :
  matchTimecode s = Some (hh, mm, ss, ff) ->
  Reference.twoDigits hh /\ Reference.twoDigits mm /\ Reference.twoDigits ss /\ Reference.twoDigits ff.
Proof.
  induction s as [| c rest IH]; cbn [matchTimecode].
  - destruct (matchHere EmptyString) as [[[[a b] c] d] |] eqn:Hm; [|discriminate].
    intros H. injection H as <- <- <- <-. exact (matchHere_digits _ _ _ _ _ Hm).
  - destruct (matchHere (String c rest)) as [[[[a b] c'] d] |] eqn:Hm.
    + intros H. injection H as <- <- <- <-. exact (matchHere_digits _ _ _ _ _ Hm).
    + exact IH.
Qed.

Lemma twoDigits_parseInt (x : string) :
  Reference.twoDigits x -> exists v, JS.parseInt x = Some v /\ 0 <= v <= 99.
Proof.
  intros (a & b & -> & Ha & Hb).
  exists (10 * (JS.code a - 48) + (JS.code b - 48)).
  split; [apply parseInt_two_digits; assumption|].
  pose proof (digit_range a Ha). pose proof (digit_range b Hb). lia.
Qed.

(** The date test of the source, on a month and a day that are numbers. *)
Lemma invalidDate_spec (mo d : Z) :
  (JS.ltb (Some mo) 1 || JS.gtb (Some mo) 12
   || JS.ltb (Some d) 1 || JS.gtb (Some d) 31)%bool = true
  <-> (mo < 1 \/ 12 < mo \/ d < 1 \/ 31 < d).
Proof.
  cbn [JS.ltb JS.gtb].
  destruct (Z.ltb_spec mo 1), (Z.ltb_spec 12 mo), (Z.ltb_spec d 1),
    (Z.ltb_spec 31 d); cbn; split; intros Hside;
    try reflexivity; try lia; discriminate Hside.
Qed.

(** The corrections, where the month and the day read from the user bits
    are numbers. Whenever a line yields a frame, the corrections are reported and
    the frame is still returned: an hour of 24 or more is stored modulo 24
    with an [InvalidHour] warning; a minute or second of 60 or more is
    reported ([InvalidMinute], [InvalidSecond], announcing the value modulo
    60) while the stored value stays as parsed; and when the month read from
    the user bits is a number outside [1,12] or the day a number outside
    [1,31], the date of the frame is the wall-clock date and [InvalidDate] is
    reported. In range, values are kept and nothing is reported. *)
Theorem parseLTCFrame_validation :
  forall (now : SyncLtc.Date) (line leftPart rightPart hh mm ss ff : string)
         (h m s : Z),
    SyncLtc.leftRight line = Some (leftPart, rightPart) ->
    String.length (SyncLtc.userBitsOf leftPart) = 8%nat ->
    SyncLtc.matchTimecode (SyncLtc.timecodeOf leftPart) = Some (hh, mm, ss, ff) ->
    JS.parseInt hh = Some h -> JS.parseInt mm = Some m -> JS.parseInt ss = Some s ->
    let userBits := SyncLtc.userBitsOf leftPart in
    exists (fr : SyncLtc.LTCFrame) (warnings : list SyncLtc.Warning),
      SyncLtc.parseLTCFrame now line = (Some fr, warnings)
      (* hour *)
      /\ (24 <= h ->
          SyncLtc.hour fr = Some (h mod 24)
          /\ In (SyncLtc.InvalidHour (Some h) (Some (h mod 24))) warnings)
      /\ (h < 24 ->
          SyncLtc.hour fr = Some h
          /\ forall a b, ~ In (SyncLtc.InvalidHour a b) warnings)
      (* minute and second: reported, not corrected *)
      /\ SyncLtc.minute fr = Some m
      /\ (60 <= m <-> In (SyncLtc.InvalidMinute (Some m) (Some (m mod 60))) warnings)
      /\ SyncLtc.second fr = Some s
      /\ (60 <= s <-> In (SyncLtc.InvalidSecond (Some s) (Some (s mod 60))) warnings)
      (* date *)
      /\ ((exists mo, JS.parseInt (JS.substring userBits 2 4) = Some mo
                       /\ (mo < 1 \/ 12 < mo))
          \/ (exists d, JS.parseInt (JS.substring userBits 4 6) = Some d
                         /\ (d < 1 \/ 31 < d)) ->
          SyncLtc.year fr = Some (SyncLtc.getFullYear now)
          /\ SyncLtc.month fr = Some (SyncLtc.getMonth now + 1)
          /\ SyncLtc.day fr = Some (SyncLtc.getDate now)
          /\ In (SyncLtc.InvalidDate userBits) warnings)
      /\ (forall mo d,
            JS.parseInt (JS.substring userBits 2 4) = Some mo ->
            JS.parseInt (JS.substring userBits 4 6) = Some d ->
            1 <= mo <= 12 /\ 1 <= d <= 31 ->
            SyncLtc.year fr
            = JS.parseInt ("20" ++ JS.substring userBits 0 2)%string
            /\ SyncLtc.month fr = Some mo /\ SyncLtc.day fr = Some d
            /\ ~ In (SyncLtc.InvalidDate userBits) warnings).
Proof.
  intros now line leftPart rightPart hh mm ss ff h m s
         Hlr Hlen Hmatch Hh Hm Hs userBits.
  destruct (matchTimecode_digits _ _ _ _ _ Hmatch) as (Dh & Dm & Ds & _).
  destruct (twoDigits_parseInt hh Dh) as (h' & Hh' & Hhr).
  destruct (twoDigits_parseInt mm Dm) as (m' & Hm' & Hmr).
  destruct (twoDigits_parseInt ss Ds) as (s' & Hs' & Hsr).
  assert (h' = h) by congruence. assert (m' = m) by congruence.
  assert (s' = s) by congruence. subst h' m' s'. clear Hh' Hm' Hs'.
  unfold parseLTCFrame. rewrite Hlr. fold userBits.
  replace (String.length userBits =? 8)%nat with true
    by (symmetry; apply Nat.eqb_eq; exact Hlen).
  cbn [negb]. rewrite Hmatch, Hh, Hm, Hs.
  eexists. eexists. split; [reflexivity|].
  cbn [hour minute second year month day JS.geb JS.rem option_map].
  rewrite !Z.rem_mod_nonneg by lia.
  set (invalidDate := (JS.ltb _ 1 || JS.gtb _ 12 || JS.ltb _ 1 || JS.gtb _ 31)%bool).
  repeat match goal with |- _ /\ _ => split end.
  - intros H24. destruct (Z.leb_spec 24 h); [|lia].
    split; [reflexivity|].
    apply in_or_app; right. left. reflexivity.
  - intros H24. destruct (Z.leb_spec 24 h); [lia|].
    split; [reflexivity|].
    intros a b Hin.
    destruct invalidDate, (60 <=? m), (60 <=? s); cbn in Hin;
      repeat (destruct Hin as [Hin | Hin]; [discriminate Hin|]); exact Hin.
  - reflexivity.
  - split.
    + intros H60. destruct (Z.leb_spec 60 m); [|lia].
      apply in_or_app; right. apply in_or_app; right. left. reflexivity.
    + intros Hin. destruct (Z.leb_spec 60 m); [assumption|].
      destruct invalidDate, (24 <=? h), (60 <=? s); cbn in Hin;
        repeat (destruct Hin as [Hin | Hin]; [discriminate Hin|]); destruct Hin.
  - reflexivity.
  - split.
    + intros H60. destruct (Z.leb_spec 60 s); [|lia].
      apply in_or_app; right. apply in_or_app; right. apply in_or_app; right.
      left. reflexivity.
    + intros Hin. destruct (Z.leb_spec 60 s); [assumption|].
      destruct invalidDate, (24 <=? h), (60 <=? m); cbn in Hin;
        repeat (destruct Hin as [Hin | Hin]; [discriminate Hin|]); destruct Hin.
  - intros Hout.
    assert (Hinv : invalidDate = true).
    { unfold invalidDate.
      destruct Hout as [(mo & -> & Hmo) | (d & -> & Hd)]; cbn [JS.ltb JS.gtb].
      - destruct (Z.ltb_spec mo 1), (Z.ltb_spec 12 mo); cbn [orb];
          try reflexivity; lia.
      - destruct (Z.ltb_spec d 1), (Z.ltb_spec 31 d);
          rewrite ?orb_true_r; cbn [orb]; try reflexivity; lia. }
    rewrite Hinv. repeat split. left. reflexivity.
  - intros mo d Hmo Hd Hrange.
    assert (Hinv : invalidDate = false).
    { destruct invalidDate eqn:Hi; [|reflexivity].
      unfold invalidDate in Hi. rewrite Hmo, Hd in Hi.
      apply invalidDate_spec in Hi. lia. }
    rewrite Hinv. repeat split; try assumption.
    intros Hin.
    destruct (24 <=? h), (60 <=? m), (60 <=? s); cbn in Hin;
      repeat (destruct Hin as [Hin | Hin]; [discriminate Hin|]); destruct Hin.
Qed.

Lemma parseLTCFrame_validation_witness :
  exists (fr : SyncLtc.LTCFrame) (warnings : list SyncLtc.Warning),
    SyncLtc.parseLTCFrame Reference.sampleNow Reference.corruptedLine
    = (Some fr, warnings)
    /\ SyncLtc.hour fr = Some 6 /\ SyncLtc.minute fr = Some 4
    /\ SyncLtc.second fr = Some 61
    /\ SyncLtc.year fr = Some 2026 /\ SyncLtc.month fr = Some 11
    /\ SyncLtc.day fr = Some 2.
Proof.
  destruct (parseLTCFrame_validation Reference.sampleNow Reference.corruptedLine
              "ce410081   30:04:61.16" "2660708  2662667 R"
              "30" "04" "61" "16" 30 4 61
              eq_refl eq_refl eq_refl eq_refl eq_refl eq_refl)
    as (fr & warnings & Hrun & H24 & _ & Hm & _ & Hs & _ & Hdate & _).
  exists fr, warnings.
  destruct H24 as [Hh _]; [lia|].
  destruct Hdate as (Hy & Hmo & Hd & _).
  { left. exists 41. split; [reflexivity | lia]. }
  repeat split; assumption.
Defined.

(** The date test has no case for a month or a day that is not a number:
    every comparison with [NaN] is false. When one of the two is [NaN] and
    the other is [NaN] too or a number in range, the date read from the user
    bits is kept as it is and nothing is reported. *)
Lemma parseLTCFrame_nan_date_kept
    (now : SyncLtc.Date) (line leftPart rightPart hh mm ss ff : string) :
  SyncLtc.leftRight line = Some (leftPart, rightPart) ->
  String.length (SyncLtc.userBitsOf leftPart) = 8%nat ->
  SyncLtc.matchTimecode (SyncLtc.timecodeOf leftPart) = Some (hh, mm, ss, ff) ->
  let userBits := SyncLtc.userBitsOf leftPart in
  let month := JS.parseInt (JS.substring userBits 2 4) in
  let day := JS.parseInt (JS.substring userBits 4 6) in
  (month = JS.NaN \/ exists mo, month = Some mo /\ 1 <= mo <= 12) ->
  (day = JS.NaN \/ exists d, day = Some d /\ 1 <= d <= 31) ->
  exists (fr : SyncLtc.LTCFrame) (warnings : list SyncLtc.Warning),
    SyncLtc.parseLTCFrame now line = (Some fr, warnings)
    /\ SyncLtc.year fr = JS.parseInt ("20" ++ JS.substring userBits 0 2)%string
    /\ SyncLtc.month fr = month /\ SyncLtc.day fr = day
    /\ ~ In (SyncLtc.InvalidDate userBits) warnings.
Proof.
  intros Hlr Hlen Hmatch userBits month day Hmonth Hday.
  unfold parseLTCFrame. rewrite Hlr. fold userBits.
  replace (String.length userBits =? 8)%nat with true
    by (symmetry; apply Nat.eqb_eq; exact Hlen).
  cbn [negb]. rewrite Hmatch. fold month. fold day.
  assert (Hinv : (JS.ltb month 1 || JS.gtb month 12
                  || JS.ltb day 1 || JS.gtb day 31)%bool = false).
  { destruct Hmonth as [-> | (mo & -> & Hmo)], Hday as [-> | (d & -> & Hd)];
      cbn [JS.NaN JS.ltb JS.gtb orb];
      repeat match goal with
             | |- context [?a <? ?b] => destruct (Z.ltb_spec a b); try lia
             end; reflexivity. }
  rewrite Hinv. eexists. eexists. split; [reflexivity|].
  cbn [year month day SyncLtc.year SyncLtc.month SyncLtc.day].
  repeat split. intros Hin.
  destruct (JS.geb (JS.parseInt hh) 24), (JS.geb (JS.parseInt mm) 60),
    (JS.geb (JS.parseInt ss) 60); cbn in Hin;
    repeat (destruct Hin as [Hin | Hin]; [discriminate Hin|]); destruct Hin.
Qed.

(** C7 (defect in the code). The validator replaces an hour of 24 or more,
    reports minutes and seconds of 60 or more, and replaces a date whose
    month or day is a number out of range (the lemma above on the
    corrections). It misses the month that is no number at all: on the line
    [hexMonthLine], whose user bits are 25c10581, the month text "c1" parses
    to [NaN], which is outside [1,12], yet the frame is returned with the
    date of the user bits, a [NaN] month and no reported correction, and the
    origination date written from it is 2025-NaN-05. *)
Theorem parseLTCFrame_nan_month_not_replaced :
  JS.parseInt (JS.substring (SyncLtc.userBitsOf "25c10581   06:04:00:16") 2 4)
  = JS.NaN
  /\ SyncLtc.parseLTCFrame Reference.sampleNow Reference.hexMonthLine
     = (Some Reference.hexMonthFrame, [])
  /\ SyncLtc.month Reference.hexMonthFrame = JS.NaN
  /\ SyncLtc.year Reference.hexMonthFrame
     <> Some (SyncLtc.getFullYear Reference.sampleNow)
  /\ SyncTool.originationDate Reference.hexMonthFrame = "2025-NaN-05"%string.
Proof.
  repeat split; try reflexivity. cbn. discriminate.
Qed.

End SyncLtcProperties.

(** ** User bits as a date, in both programs *)

Section UserBitsProperties.
Import ReadTimecode.

Lemma digitChar_digit (g : Z) :
  0 <= g <= 9 ->
  JS.isDigit (Reference.digitChar g) = true
  /\ JS.code (Reference.digitChar g) - 48 = g.
Proof.
  intros Hg.
  assert (H : (JS.isDigit (Reference.digitChar g)
               && (JS.code (Reference.digitChar g) - 48 =? g))%bool = true).
  { apply (forallb_Z_range
             (fun g => (JS.isDigit (Reference.digitChar g)
                        && (JS.code (Reference.digitChar g) - 48 =? g))%bool) 10);
      [vm_compute; reflexivity | lia]. }
  apply andb_true_iff in H as [H1 H2]. apply Z.eqb_eq in H2. split; assumption.
Qed.

(** A user-bit group prints as one character up to 9 and as two from 10. *)
Lemma toString_group (g : Z) :
  0 <= g < 16 ->
  JS.toString g
  = if g <=? 9 then String (Reference.digitChar g) EmptyString
    else String "1" (String (Reference.digitChar (g - 10)) EmptyString).
Proof.
  intros Hg. apply String.eqb_eq.
  apply (forallb_Z_range
           (fun g => String.eqb (JS.toString g)
              (if g <=? 9 then String (Reference.digitChar g) EmptyString
               else String "1" (String (Reference.digitChar (g - 10)) EmptyString)))
           16);
    [vm_compute; reflexivity | exact Hg].
Qed.

Lemma lsbFirst_nibble_range (b0 b1 b2 b3 : Z) :
  Reference.isBit b0 -> Reference.isBit b1 ->
  Reference.isBit b2 -> Reference.isBit b3 ->
  0 <= Reference.lsbFirst [b0; b1; b2; b3] < 16.
Proof. unfold Reference.isBit. cbn [Reference.lsbFirst]. lia. Qed.

(** The user-bit groups of a decoded frame are four-bit values. *)
Lemma decoded_groups_range (bits : list Z) (f : LTCFrame) :
  Forall Reference.isBit bits -> parseLTCFrame bits = Some f ->
  0 <= binaryGroup1 f < 16 /\ 0 <= binaryGroup2 f < 16 /\
  0 <= binaryGroup3 f < 16 /\ 0 <= binaryGroup4 f < 16 /\
  0 <= binaryGroup5 f < 16 /\ 0 <= binaryGroup6 f < 16 /\
  0 <= binaryGroup7 f < 16 /\ 0 <= binaryGroup8 f < 16.
Proof.
  intros Hall Hparse.
  destruct (Nat.ltb_spec (List.length bits) 80) as [Hshort | Hlong].
  - unfold parseLTCFrame in Hparse.
    rewrite (parseLTCFrameR_short bits Hshort) in Hparse.
    discriminate Hparse.
  - rewrite (parseLTCFrame_by_layout bits Hlong Hall) in Hparse.
    destruct (_ <? 14)%nat; [discriminate Hparse|].
    injection Hparse as <-.
    unfold Reference.decodeByLayout, Reference.field.
    cbn [binaryGroup1 binaryGroup2 binaryGroup3 binaryGroup4 binaryGroup5
         binaryGroup6 binaryGroup7 binaryGroup8 map].
    repeat split;
      apply lsbFirst_nibble_range; apply bitAt_isBit; (assumption || lia).
Qed.

Lemma substring_prefix2 (a b : ascii) (rest : string) :
  JS.substring (String a (String b rest)) 0 2 = String a (String b EmptyString).
Proof. unfold JS.substring. cbn. destruct rest; reflexivity. Qed.

(** The string of eight single-digit groups, and what the date block reads
    from it. *)
Lemma userBitsString_decimal (f : LTCFrame) :
  0 <= binaryGroup1 f <= 9 -> 0 <= binaryGroup2 f <= 9 ->
  0 <= binaryGroup3 f <= 9 -> 0 <= binaryGroup4 f <= 9 ->
  0 <= binaryGroup5 f <= 9 -> 0 <= binaryGroup6 f <= 9 ->
  0 <= binaryGroup7 f <= 9 -> 0 <= binaryGroup8 f <= 9 ->
  String.length (userBitsString f) = 8%nat
  /\ JS.parseInt (JS.substring (userBitsString f) 0 2)
     = Some (10 * binaryGroup8 f + binaryGroup7 f)
  /\ JS.parseInt (JS.substring (userBitsString f) 2 4)
     = Some (10 * binaryGroup6 f + binaryGroup5 f)
  /\ JS.parseInt (JS.substring (userBitsString f) 4 6)
     = Some (10 * binaryGroup4 f + binaryGroup3 f)
  /\ JS.substring (userBitsString f) 6 8
     = (JS.toString (binaryGroup2 f) ++ JS.toString (binaryGroup1 f))%string.
Proof.
  intros H1 H2 H3 H4 H5 H6 H7 H8. unfold userBitsString.
  rewrite !toString_group by lia.
  repeat match goal with
         | |- context [?g <=? 9] =>
             replace (g <=? 9) with true by (symmetry; apply Z.leb_le; lia)
         end.
  cbn [String.append JS.substring String.substring Nat.sub String.length].
  destruct (digitChar_digit _ H1) as [D1 V1].
  destruct (digitChar_digit _ H2) as [D2 V2].
  destruct (digitChar_digit _ H3) as [D3 V3].
  destruct (digitChar_digit _ H4) as [D4 V4].
  destruct (digitChar_digit _ H5) as [D5 V5].
  destruct (digitChar_digit _ H6) as [D6 V6].
  destruct (digitChar_digit _ H7) as [D7 V7].
  destruct (digitChar_digit _ H8) as [D8 V8].
  rewrite !parseInt_two_digits by assumption.
  rewrite ?V1, ?V2, ?V3, ?V4, ?V5, ?V6, ?V7, ?V8.
  repeat split; reflexivity.
Qed.

(** Each group of 10 or more adds a character. *)
Lemma userBitsString_length (f : LTCFrame) :
  0 <= binaryGroup1 f < 16 -> 0 <= binaryGroup2 f < 16 ->
  0 <= binaryGroup3 f < 16 -> 0 <= binaryGroup4 f < 16 ->
  0 <= binaryGroup5 f < 16 -> 0 <= binaryGroup6 f < 16 ->
  0 <= binaryGroup7 f < 16 -> 0 <= binaryGroup8 f < 16 ->
  (String.length (userBitsString f) = 8%nat <-> Reference.allDecimal f)
  /\ (8 <= String.length (userBitsString f) <= 16)%nat.
Proof.
  intros H1 H2 H3 H4 H5 H6 H7 H8. unfold userBitsString, Reference.allDecimal.
  rewrite !toString_group by lia.
  destruct (Z.leb_spec (binaryGroup1 f) 9), (Z.leb_spec (binaryGroup2 f) 9),
    (Z.leb_spec (binaryGroup3 f) 9), (Z.leb_spec (binaryGroup4 f) 9),
    (Z.leb_spec (binaryGroup5 f) 9), (Z.leb_spec (binaryGroup6 f) 9),
    (Z.leb_spec (binaryGroup7 f) 9), (Z.leb_spec (binaryGroup8 f) 9);
    cbn [String.append String.length]; lia.
Qed.

(** C9 (amended). For a decoded frame, the concatenation of the user-bit
    groups 8 down to 1 in decimal has exactly 8 characters precisely when
    every group is at most 9; it is then read as YYMMDDXX: the year is
    group 8 and group 7, the month group 6 and group 5, the day group 4 and
    group 3, the extra field group 2 and group 1. With a group of 10 or more
    the string is longer than 8 characters and no date is derived. *)
Theorem userBitsString_decoded :
  forall (bits : list Z) (f : ReadTimecode.LTCFrame),
    Forall Reference.isBit bits ->
    ReadTimecode.parseLTCFrame bits = Some f ->
    let s := ReadTimecode.userBitsString f in
    (String.length s = 8%nat <-> Reference.allDecimal f)
    /\ (Reference.allDecimal f ->
        JS.parseInt (JS.substring s 0 2)
        = Some (10 * ReadTimecode.binaryGroup8 f + ReadTimecode.binaryGroup7 f)
        /\ JS.parseInt (JS.substring s 2 4)
           = Some (10 * ReadTimecode.binaryGroup6 f + ReadTimecode.binaryGroup5 f)
        /\ JS.parseInt (JS.substring s 4 6)
           = Some (10 * ReadTimecode.binaryGroup4 f + ReadTimecode.binaryGroup3 f)
        /\ JS.substring s 6 8
           = (JS.toString (ReadTimecode.binaryGroup2 f)
              ++ JS.toString (ReadTimecode.binaryGroup1 f))%string)
    /\ (~ Reference.allDecimal f ->
        (8 < String.length s <= 16)%nat
        /\ ReadTimecode.userBitsDate f = None).
Proof.
  intros bits f Hall Hparse s.
  destruct (decoded_groups_range bits f Hall Hparse)
    as (H1 & H2 & H3 & H4 & H5 & H6 & H7 & H8).
  destruct (userBitsString_length f H1 H2 H3 H4 H5 H6 H7 H8) as [Hlen Hbounds].
  fold s in Hlen, Hbounds.
  split; [exact Hlen | split].
  - intros Hdec. unfold Reference.allDecimal in Hdec.
    apply userBitsString_decimal; lia.
  - intros Hnot.
    assert (Hne : String.length s <> 8%nat) by (intros H; apply Hnot, Hlen, H).
    split; [lia|].
    unfold userBitsDate. fold s.
    replace (String.length s =? 8)%nat with false
      by (symmetry; apply Nat.eqb_neq; exact Hne).
    reflexivity.
Qed.

Lemma userBitsString_decoded_witness :
  String.length
    (ReadTimecode.userBitsString Reference.frame_01020304) = 8%nat
  /\ JS.parseInt (JS.substring
                    (ReadTimecode.userBitsString Reference.frame_01020304) 0 2)
     = Some 25.
Proof.
  destruct (userBitsString_decoded
              (Reference.encodeLTCFrame Reference.frame_01020304)
              Reference.frame_01020304
              (encodeLTCFrame_bits Reference.frame_01020304) eq_refl)
    as (Hlen & Hread & _).
  assert (Hdec : Reference.allDecimal Reference.frame_01020304)
    by (unfold Reference.allDecimal; cbn; lia).
  split; [apply Hlen; exact Hdec | apply Hread; exact Hdec].
Defined.

(** C9, as stated, fails on a decoded frame whose user-bit group 1 is the
    hexadecimal digit A: the concatenation is "250915010", nine characters. *)
Lemma userBitsString_nine_characters :
  ReadTimecode.parseLTCFrame (Reference.encodeLTCFrame Reference.frame_hexUserBits)
  = Some Reference.frame_hexUserBits
  /\ ReadTimecode.userBitsString Reference.frame_hexUserBits = "250915010"%string
  /\ String.length (ReadTimecode.userBitsString Reference.frame_hexUserBits)
     <> 8%nat.
Proof. repeat split. cbn. discriminate. Qed.

(** What a returned text-form frame says about its date. *)
Lemma parseLTCFrame_date (now : SyncLtc.Date) (line : string)
    (fr : SyncLtc.LTCFrame) (warnings : list SyncLtc.Warning) :
  SyncLtc.parseLTCFrame now line = (Some fr, warnings) ->
  let ub := SyncLtc.userBits fr in
  let invalidDate :=
    (JS.ltb (JS.parseInt (JS.substring ub 2 4)) 1
     || JS.gtb (JS.parseInt (JS.substring ub 2 4)) 12
     || JS.ltb (JS.parseInt (JS.substring ub 4 6)) 1
     || JS.gtb (JS.parseInt (JS.substring ub 4 6)) 31)%bool in
  SyncLtc.year fr
  = (if invalidDate then Some (SyncLtc.getFullYear now)
     else JS.parseInt ("20" ++ JS.substring ub 0 2)%string)
  /\ (invalidDate = false -> ~ In (SyncLtc.InvalidDate ub) warnings).
Proof.
  unfold SyncLtc.parseLTCFrame.
  destruct (SyncLtc.leftRight line) as [[leftPart rightPart] |]; [|discriminate].
  destruct (negb _); [discriminate|].
  destruct (SyncLtc.matchTimecode _) as [[[[hh mm] ss] ff] |]; [|discriminate].
  intros H. injection H as <- <-. cbn [SyncLtc.userBits SyncLtc.year].
  split; [reflexivity|].
  intros Hvalid. rewrite Hvalid. intros Hin.
  destruct (JS.geb (JS.parseInt hh) 24), (JS.geb (JS.parseInt mm) 60),
    (JS.geb (JS.parseInt ss) 60); cbn in Hin;
    repeat (destruct Hin as [Hin | Hin]; [discriminate Hin|]); destruct Hin.
Qed.

(** C8 (amended). The text-form parser expands a two-digit year by
    prefixing "20", whatever the digits (no century heuristic): a frame whose
    date is kept has year 2000 + yy. The heuristic lives in the audio
    decoder's date display: a decoded frame whose user bits give a date shows
    the year 2000 + yy when yy < 50 and 1900 + yy otherwise. *)
Theorem century_expansion_by_path :
  (forall (now : SyncLtc.Date) (line : string) (fr : SyncLtc.LTCFrame)
          (warnings : list SyncLtc.Warning) (a b : ascii) (rest : string),
      SyncLtc.parseLTCFrame now line = (Some fr, warnings) ->
      SyncLtc.userBits fr = String a (String b rest) ->
      JS.isDigit a = true -> JS.isDigit b = true ->
      ~ In (SyncLtc.InvalidDate (SyncLtc.userBits fr)) warnings ->
      SyncLtc.year fr = Some (2000 + (10 * (JS.code a - 48) + (JS.code b - 48))))
  /\ (forall (bits : list Z) (f : ReadTimecode.LTCFrame)
             (d : ReadTimecode.UserDate),
        Forall Reference.isBit bits ->
        ReadTimecode.parseLTCFrame bits = Some f ->
        ReadTimecode.userBitsDate f = Some d ->
        let yy := 10 * ReadTimecode.binaryGroup8 f + ReadTimecode.binaryGroup7 f in
        0 <= yy <= 99
        /\ ReadTimecode.fullYear d
           = Some (if yy <? 50 then 2000 + yy else 1900 + yy)).
Proof.
  split.
  - intros now line fr warnings a b rest Hrun Hub Ha Hb Hnowarn.
    destruct (parseLTCFrame_date now line fr warnings Hrun) as [Hyear Hwarn].
    cbv zeta in Hyear, Hwarn.
    destruct (_ || _ || _ || _)%bool eqn:Hinv in Hyear.
    + exfalso. apply Hnowarn.
      unfold SyncLtc.parseLTCFrame in Hrun.
      destruct (SyncLtc.leftRight line) as [[leftPart rightPart] |];
        [|discriminate].
      destruct (negb _); [discriminate|].
      destruct (SyncLtc.matchTimecode _) as [[[[hh mm] ss] ff] |];
        [|discriminate].
      injection Hrun as <- <-. cbn [SyncLtc.userBits] in Hinv |- *.
      rewrite Hinv. left. reflexivity.
    + rewrite Hyear, Hub, substring_prefix2.
      apply parseInt_century_prefix; assumption.
  - intros bits f d Hall Hparse Hdate yy.
    destruct (decoded_groups_range bits f Hall Hparse)
      as (H1 & H2 & H3 & H4 & H5 & H6 & H7 & H8).
    destruct (userBitsString_length f H1 H2 H3 H4 H5 H6 H7 H8) as [Hlen _].
    unfold userBitsDate in Hdate.
    destruct (Nat.eqb_spec (String.length (userBitsString f)) 8) as [H8c | _];
      [|discriminate Hdate].
    apply Hlen in H8c. unfold Reference.allDecimal in H8c.
    destruct (userBitsString_decimal f) as (_ & Hyy & _); try lia.
    rewrite Hyy in Hdate. fold yy in Hdate.
    destruct (_ && _ && _ && _)%bool; [|discriminate Hdate].
    injection Hdate as <-. cbn [fullYear].
    split; [unfold yy; lia|].
    unfold fullYearOf. cbn [JS.ltb JS.add].
    destruct (yy <? 50); reflexivity.
Qed.

Lemma century_expansion_by_path_witness :
  (exists fr warnings,
      SyncLtc.parseLTCFrame Reference.sampleNow Reference.year75Line
      = (Some fr, warnings) /\ SyncLtc.year fr = Some 2075)
  /\ (exists d, ReadTimecode.userBitsDate Reference.frame_year75 = Some d
                /\ ReadTimecode.fullYear d = Some 1975).
Proof.
  split.
  - eexists. eexists. split; [reflexivity|].
    apply (proj1 century_expansion_by_path Reference.sampleNow
             Reference.year75Line _ _ "7"%char "5"%char "010100"%string eq_refl
             eq_refl eq_refl eq_refl).
    cbn. intros Hin. exact Hin.
  - eexists. split; [reflexivity|].
    apply (proj2 century_expansion_by_path
             (Reference.encodeLTCFrame Reference.frame_year75)
             Reference.frame_year75 _
             (encodeLTCFrame_bits Reference.frame_year75) eq_refl eq_refl).
Defined.

(** C8, as stated, fails in both directions on user bits that begin with
    75: the audio decoder's display shows 1975 (the heuristic, not the
    prefix "20"), and the text-form parser stores 2075 (the prefix, not the
    heuristic). *)
Lemma century_policies_are_swapped :
  option_map ReadTimecode.fullYear
    (ReadTimecode.userBitsDate Reference.frame_year75) = Some (Some 1975)
  /\ ReadTimecode.parseLTCFrame (Reference.encodeLTCFrame Reference.frame_year75)
     = Some Reference.frame_year75
  /\ option_map SyncLtc.year
       (fst (SyncLtc.parseLTCFrame Reference.sampleNow Reference.year75Line))
     = Some (Some 2075).
Proof. repeat split. Qed.

(** A month that does not start with a digit parses to [NaN]; every
    comparison with it is false, so the date test lets it through and the
    frame keeps a [NaN] month. *)
Example parseLTCFrame_nan_month_kept :
  option_map SyncLtc.month
    (fst (SyncLtc.parseLTCFrame Reference.sampleNow
            "25c10581   06:04:00:16 | 2660708"))
  = Some JS.NaN.
Proof. reflexivity. Qed.

(** End to end: the biphase-mark waveform of two copies of the frame
    01:02:03:04, scanned at 48 kHz, synchronizes on the first copy and decodes
    to the field values it was built from. *)
Example detectManchesterBits_end_to_end :
  ReadTimecode.parseLTCFrame
    (ReadTimecode.detectManchesterBits
       (Reference.biphaseMark
          (Reference.encodeLTCFrame Reference.frame_01020304
           ++ Reference.encodeLTCFrame Reference.frame_01020304) true)
       48000)
  = Some Reference.frame_01020304.
Proof. vm_compute. reflexivity. Qed.

End UserBitsProperties.

(** ** More on the bit recoverer and the frame search *)

Section BitRecoveryProperties.
Import ReadTimecode.

(** *** Only zeros and ones are collected *)

Lemma sampleStep_binary (keep gain : float) (st : DecoderState) (d : bool) :
  Forall Reference.isBit (bits st) ->
  Forall Reference.isBit (bits (sampleStep keep gain st d)).
Proof.
  intros Hall. unfold sampleStep, transition.
  assert (H1 : Forall Reference.isBit (bits st ++ [1]))
    by (apply Forall_app; split; [exact Hall | repeat constructor; right; reflexivity]).
  assert (H0 : Forall Reference.isBit (bits st ++ [0]))
    by (apply Forall_app; split; [exact Hall | repeat constructor; left; reflexivity]).
  assert (H10 : Forall Reference.isBit ((bits st ++ [1]) ++ [0]))
    by (apply Forall_app; split; [exact H1 | repeat constructor; left; reflexivity]).
  destruct (_ =? _); cbn [bits pendingBit samplesSinceChange samplesPerBit];
    [exact Hall|].
  destruct (_ <? _)%float; [|destruct (_ <? _)%float];
    destruct (pendingBit st); cbn [bits]; assumption.
Qed.

Lemma decodeLoop_binary (keep gain : float) (budget : nat) (rest : list bool)
    (st : DecoderState) :
  Forall Reference.isBit (bits st) ->
  Forall Reference.isBit (bits (decodeLoop keep gain budget st rest)).
Proof.
  revert st. induction rest as [| d rest IH]; intros st Hall; [exact Hall|].
  cbn [decodeLoop]. destruct (_ <? _)%nat; [|exact Hall].
  apply IH, sampleStep_binary, Hall.
Qed.

Lemma collectBits_binary (digital : list bool) (sampleRate : Z) :
  Forall Reference.isBit (collectBits digital sampleRate).
Proof.
  unfold collectBits.
  pose proof (decodeLoop_binary 0.99%float 0.01%float 1000 (tl digital)
                (initialState digital sampleRate) (Forall_nil _)) as Hall.
  destruct (pendingBit _); [|exact Hall].
  apply Forall_app; split; [exact Hall | repeat constructor; right; reflexivity].
Qed.

Lemma collectBitsFromPosition_binary (digital : list bool) (sampleRate : Z) :
  Forall Reference.isBit (collectBitsFromPosition digital sampleRate).
Proof.
  unfold collectBitsFromPosition.
  pose proof (decodeLoop_binary 0.95%float 0.05%float 80 (tl digital)
                (initialState digital sampleRate) (Forall_nil _)) as Hall.
  destruct (_ && _)%bool; [|exact Hall].
  apply Forall_app; split; [exact Hall | repeat constructor; right; reflexivity].
Qed.

Lemma slice_binary (xs : list Z) (a b : nat) :
  Forall Reference.isBit xs -> Forall Reference.isBit (JS.slice xs a b).
Proof.
  intros Hall. unfold JS.slice.
  rewrite <- (firstn_skipn a xs) in Hall. apply Forall_app in Hall as [_ Hskip].
  rewrite <- (firstn_skipn (b - a) (skipn a xs)) in Hskip.
  apply Forall_app in Hskip as [Hfirst _]. exact Hfirst.
Qed.

(** What the free scan hands on: nothing, or 80 zeros and ones whose sync
    word passes with at least 15 matches. *)
Lemma detectManchesterBits_window (digital : list bool) (sampleRate : Z) :
  detectManchesterBits digital sampleRate = []
  \/ (List.length (detectManchesterBits digital sampleRate) = 80%nat
      /\ Forall Reference.isBit (detectManchesterBits digital sampleRate)
      /\ (15 <= Reference.decoderSyncMatches
                  (detectManchesterBits digital sampleRate))%nat).
Proof.
  unfold detectManchesterBits.
  pose proof (collectBits_binary digital sampleRate) as Hbin.
  destruct (findSync_first (collectBits digital sampleRate))
    as [[Hnil _] | (k & [Hfit Hm] & _ & Hres)]; [left; exact Hnil|].
  right. rewrite Hres. repeat split.
  - apply frameCandidateAt_length. exact Hfit.
  - apply slice_binary. exact Hbin.
  - exact Hm.
Qed.

(** X1. Whatever the trace and the sample rate, the bit recoverer only ever
    produces the values 0 and 1: in the bits the free scan collects, in the
    window it returns, and in the result of the position-anchored decode. *)
Theorem recovered_bits_are_binary :
  forall (digital : list bool) (sampleRate : Z),
    Forall Reference.isBit (ReadTimecode.collectBits digital sampleRate)
    /\ Forall Reference.isBit (ReadTimecode.detectManchesterBits digital sampleRate)
    /\ Forall Reference.isBit
         (ReadTimecode.detectManchesterBitsFromPosition digital sampleRate).
Proof.
  intros digital sampleRate. repeat split.
  - apply collectBits_binary.
  - destruct (detectManchesterBits_window digital sampleRate) as [-> | (_ & H & _)];
      [constructor | exact H].
  - apply slice_binary, collectBitsFromPosition_binary.
Qed.

(** X2. The free scan returns either nothing or a window of exactly 80 bits
    with at least 15 matching sync bits, and the field decoder accepts every
    such window: when [detectManchesterBits] returns 80 bits,
    [parseLTCFrame] on them never returns [null]. *)
Theorem detectManchesterBits_always_parses :
  forall (digital : list bool) (sampleRate : Z),
    ReadTimecode.detectManchesterBits digital sampleRate = []
    \/ (List.length (ReadTimecode.detectManchesterBits digital sampleRate) = 80%nat
        /\ ReadTimecode.parseLTCFrame
             (ReadTimecode.detectManchesterBits digital sampleRate)
           = Some (Reference.decodeByLayout
                     (ReadTimecode.detectManchesterBits digital sampleRate))).
Proof.
  intros digital sampleRate.
  destruct (detectManchesterBits_window digital sampleRate)
    as [Hnil | (Hlen & Hbin & Hsync)]; [left; exact Hnil | right].
  split; [exact Hlen|].
  rewrite parseLTCFrame_by_layout by (assumption || lia).
  replace (_ <? 14)%nat with false by (symmetry; apply Nat.ltb_ge; lia).
  reflexivity.
Qed.

(** *** Traces without a transition *)

Lemma decodeLoop_constant (keep gain : float) (budget : nat) (rest : list bool)
    (b : bool) :
  (forall x, In x rest -> x = b) ->
  forall st,
    currentState st = Reference.polarity b ->
    bits (decodeLoop keep gain budget st rest) = bits st
    /\ pendingBit (decodeLoop keep gain budget st rest) = pendingBit st.
Proof.
  induction rest as [| d rest IH]; intros Hconst st Hcur; [split; reflexivity|].
  cbn [decodeLoop]. destruct (_ <? _)%nat; [|split; reflexivity].
  assert (d = b) by (apply Hconst; left; reflexivity). subst d.
  unfold sampleStep. rewrite Hcur. unfold Reference.polarity. rewrite Z.eqb_refl.
  match goal with |- context [decodeLoop _ _ _ ?s rest] => set (st' := s) end.
  destruct (IH (fun x Hx => Hconst x (or_intror Hx)) st' eq_refl) as [Hb Hp].
  rewrite Hb, Hp. split; reflexivity.
Qed.

(** X3. A trace that never changes polarity (in particular an empty one)
    yields no bit at all: both decoders return the empty sequence and the
    field decoder then returns [null]. *)
Theorem constant_trace_yields_nothing :
  forall (digital : list bool) (b : bool) (sampleRate : Z),
    (forall x, In x digital -> x = b) ->
    ReadTimecode.collectBits digital sampleRate = []
    /\ ReadTimecode.detectManchesterBits digital sampleRate = []
    /\ ReadTimecode.detectManchesterBitsFromPosition digital sampleRate = []
    /\ ReadTimecode.parseLTCFrame
         (ReadTimecode.detectManchesterBits digital sampleRate) = None.
Proof.
  intros digital b sampleRate Hconst.
  assert (Hloop : forall keep gain budget,
             bits (decodeLoop keep gain budget (initialState digital sampleRate)
                     (tl digital)) = []
             /\ pendingBit (decodeLoop keep gain budget
                              (initialState digital sampleRate) (tl digital))
                = false).
  { intros keep gain budget. destruct digital as [| d rest].
    - split; reflexivity.
    - assert (d = b) by (apply Hconst; left; reflexivity). subst d.
      apply (decodeLoop_constant keep gain budget rest b).
      + intros x Hx. apply Hconst. right. exact Hx.
      + reflexivity. }
  assert (Hc : collectBits digital sampleRate = []).
  { unfold collectBits. destruct (Hloop 0.99%float 0.01%float 1000%nat) as [-> ->].
    reflexivity. }
  assert (Hd : detectManchesterBits digital sampleRate = [])
    by (unfold detectManchesterBits; rewrite Hc; reflexivity).
  repeat split; try assumption.
  - unfold detectManchesterBitsFromPosition, collectBitsFromPosition.
    destruct (Hloop 0.95%float 0.05%float 80%nat) as [-> ->]. reflexivity.
  - rewrite Hd. reflexivity.
Qed.

Lemma constant_trace_yields_nothing_witness :
  ReadTimecode.detectManchesterBits (repeat true 100) 48000 = [].
Proof.
  apply (constant_trace_yields_nothing (repeat true 100) true 48000).
  intros x Hx. apply repeat_spec in Hx. exact Hx.
Defined.


(** *** Ideal biphase-mark waveforms at 20 samples per bit *)

Lemma biphaseMark_head (bs : list Z) (level : bool) :
  Reference.biphaseMark bs level = level :: tl (Reference.biphaseMark bs level).
Proof. destruct bs as [| b rest]; cbn; [reflexivity|]. destruct (b =? 0); reflexivity. Qed.

(** Samples at the current polarity only advance the counter. *)
Lemma decodeLoop_run (keep gain : float) (budget : nat) (level : bool)
    (rest : list bool) (n : nat) :
  forall st,
    currentState st = Reference.polarity level ->
    (List.length (bits st) < budget)%nat ->
    decodeLoop keep gain budget st (repeat level n ++ rest)
    = decodeLoop keep gain budget (Reference.advance st n) rest.
Proof.
  induction n as [| n IH]; intros st Hcur Hlt.
  - cbn [repeat app].
    replace (Reference.advance st 0) with st; [reflexivity|].
    destruct st; unfold Reference.advance; cbn. f_equal. lia.
  - cbn [repeat app decodeLoop].
    replace (List.length (bits st) <? budget)%nat with true
      by (symmetry; apply Nat.ltb_lt; exact Hlt).
    unfold sampleStep. rewrite Hcur. unfold Reference.polarity at 1.
    rewrite Z.eqb_refl.
    rewrite IH by (cbn; first [reflexivity | exact Hlt]).
    match goal with
    | |- decodeLoop _ _ _ ?a _ = decodeLoop _ _ _ ?b _ =>
        replace a with b; [reflexivity|]
    end.
    unfold Reference.advance. cbn. rewrite Hcur. f_equal. lia.
Qed.

Section IdealWaveform.
Variables keep gain : float.
Variable budget : nat.
(** The nominal period is a fixed point of the smoothing update. *)
Hypothesis period_fixed : (20 * keep + 20 * gain)%float = 20%float.

(** A full period after the cell opened: a zero. *)
Lemma sampleStep_zero (level : bool) (acc : list Z) :
  sampleStep keep gain (Reference.advance (Reference.cellState level acc) 19)
             (negb level)
  = Reference.cellState (negb level) (acc ++ [0]).
Proof.
  unfold sampleStep, transition, Reference.advance, Reference.cellState.
  destruct level; cbn -[PrimFloat.mul PrimFloat.add]; rewrite period_fixed;
    reflexivity.
Qed.

(** Half a period after the cell opened: a half bit is pending. *)
Lemma sampleStep_half (level : bool) (acc : list Z) :
  sampleStep keep gain (Reference.advance (Reference.cellState level acc) 9)
             (negb level)
  = {| currentState := Reference.polarity (negb level);
       samplesPerBit := 20%float; samplesSinceChange := 0;
       bits := acc; pendingBit := true |}.
Proof.
  unfold sampleStep, transition, Reference.advance, Reference.cellState.
  destruct level; reflexivity.
Qed.

(** Half a period later: the pending half bit becomes a one. *)
Lemma sampleStep_one (level : bool) (acc : list Z) :
  sampleStep keep gain
    (Reference.advance
       {| currentState := Reference.polarity (negb level);
          samplesPerBit := 20%float; samplesSinceChange := 0;
          bits := acc; pendingBit := true |} 9)
    level
  = Reference.cellState level (acc ++ [1]).
Proof.
  unfold sampleStep, transition, Reference.advance, Reference.cellState.
  destruct level; reflexivity.
Qed.

(** From the opening of a cell, the loop collects the bits of the waveform
    one by one until the budget is reached, and the smoothed period never
    leaves 20 samples. *)
Lemma decodeLoop_biphaseMark_state (bs : list Z) :
  forall (level : bool) (acc : list Z),
    Forall Reference.isBit bs ->
    (List.length acc <= budget)%nat ->
    let final := decodeLoop keep gain budget (Reference.cellState level acc)
                   (tl (Reference.biphaseMark bs level)) in
    bits final = acc ++ firstn (budget - List.length acc) bs
    /\ pendingBit final = false
    /\ samplesPerBit final = 20%float.
Proof.
  induction bs as [| b rest IH]; intros level acc Hbits Hacc.
  - cbn. rewrite firstn_nil, app_nil_r. split; [|split]; reflexivity.
  - inversion Hbits as [| ? ? Hb Hrest]; subst.
    destruct (Nat.eq_dec (List.length acc) budget) as [Hfull | Hroom].
    + (* the budget is reached: the loop condition fails at once *)
      replace (budget - List.length acc)%nat with 0%nat by lia.
      cbn [firstn]. rewrite app_nil_r.
      assert (Hstop : forall samples,
                 decodeLoop keep gain budget (Reference.cellState level acc) samples
                 = Reference.cellState level acc).
      { intros [| d samples]; [reflexivity|]. cbn [decodeLoop Reference.cellState bits].
        replace (List.length acc <? budget)%nat with false
          by (symmetry; apply Nat.ltb_ge; lia).
        reflexivity. }
      cbv zeta. rewrite Hstop. split; [|split]; reflexivity.
    + assert (Hlt : (List.length acc < budget)%nat) by lia.
      replace (budget - List.length acc)%nat
        with (S (budget - List.length (acc ++ [b])))
        by (rewrite length_app; cbn; lia).
      cbn [firstn].
      replace (acc ++ b :: firstn (budget - List.length (acc ++ [b])) rest)
        with ((acc ++ [b]) ++ firstn (budget - List.length (acc ++ [b])) rest)
        by (rewrite <- app_assoc; reflexivity).
      assert (Hacc' : (List.length (acc ++ [b]) <= budget)%nat)
        by (rewrite length_app; cbn; lia).
      destruct Hb as [-> | ->]; cbn [Reference.biphaseMark Z.eqb].
      * (* a zero: 20 samples, then the transition *)
        change (tl (repeat level 20 ++ Reference.biphaseMark rest (negb level)))
          with (repeat level 19 ++ Reference.biphaseMark rest (negb level)).
        cbv zeta.
        rewrite decodeLoop_run by (reflexivity || exact Hlt).
        rewrite (biphaseMark_head rest (negb level)).
        cbn [decodeLoop Reference.advance Reference.cellState bits].
        replace (List.length acc <? budget)%nat with true
          by (symmetry; apply Nat.ltb_lt; exact Hlt).
        fold (Reference.cellState level acc).
        change {| currentState := Reference.polarity level;
                  samplesPerBit := 20%float;
                  samplesSinceChange := 0 + Z.of_nat 19;
                  bits := acc; pendingBit := false |}
          with (Reference.advance (Reference.cellState level acc) 19).
        rewrite sampleStep_zero.
        apply (IH (negb level) (acc ++ [0]) Hrest Hacc').
      * (* a one: two half periods *)
        change (tl (repeat level 10 ++ repeat (negb level) 10
                    ++ Reference.biphaseMark rest level))
          with (repeat level 9 ++ negb level :: repeat (negb level) 9
                ++ Reference.biphaseMark rest level).
        cbv zeta.
        rewrite decodeLoop_run by (reflexivity || exact Hlt).
        cbn [decodeLoop Reference.advance Reference.cellState bits].
        replace (List.length acc <? budget)%nat with true
          by (symmetry; apply Nat.ltb_lt; exact Hlt).
        change {| currentState := Reference.polarity level;
                  samplesPerBit := 20%float;
                  samplesSinceChange := 0 + Z.of_nat 9;
                  bits := acc; pendingBit := false |}
          with (Reference.advance (Reference.cellState level acc) 9).
        rewrite sampleStep_half.
        rewrite decodeLoop_run by (reflexivity || exact Hlt).
        rewrite (biphaseMark_head rest level).
        cbn [decodeLoop Reference.advance bits].
        replace (List.length acc <? budget)%nat with true
          by (symmetry; apply Nat.ltb_lt; exact Hlt).
        change {| currentState := Reference.polarity (negb level);
                  samplesPerBit := 20%float;
                  samplesSinceChange := 0 + Z.of_nat 9;
                  bits := acc; pendingBit := true |}
          with (Reference.advance
                  {| currentState := Reference.polarity (negb level);
                     samplesPerBit := 20%float; samplesSinceChange := 0;
                     bits := acc; pendingBit := true |} 9).
        rewrite sampleStep_one.
        apply (IH level (acc ++ [1]) Hrest Hacc').
Qed.
(** The bits alone. *)
Lemma decodeLoop_biphaseMark (bs : list Z) :
  forall (level : bool) (acc : list Z),
    Forall Reference.isBit bs ->
    (List.length acc <= budget)%nat ->
    let final := decodeLoop keep gain budget (Reference.cellState level acc)
                   (tl (Reference.biphaseMark bs level)) in
    bits final = acc ++ firstn (budget - List.length acc) bs
    /\ pendingBit final = false.
Proof.
  intros level acc Hbits Hacc.
  destruct (decodeLoop_biphaseMark_state bs level acc Hbits Hacc) as (Hb & Hp & _).
  split; assumption.
Qed.
End IdealWaveform.

Lemma initialState_biphaseMark (bs : list Z) (level : bool) :
  initialState (Reference.biphaseMark bs level) 48000
  = Reference.cellState level [].
Proof. rewrite biphaseMark_head. reflexivity. Qed.

(** X4. On the ideal biphase-mark waveform of a bit sequence (48 kHz, 20
    samples per bit, either starting polarity) the free scan collects exactly
    the encoded bits, up to its budget of 1000, and the smoothed bit period
    it ends with is still 20 samples: the nominal period is a fixed point of
    the smoothing update. *)
Theorem collectBits_biphaseMark :
  forall (bs : list Z) (level : bool),
    Forall Reference.isBit bs ->
    ReadTimecode.collectBits (Reference.biphaseMark bs level) 48000
    = firstn 1000 bs
    /\ ReadTimecode.samplesPerBit
         (ReadTimecode.decodeLoop 0.99%float 0.01%float 1000
            (ReadTimecode.initialState (Reference.biphaseMark bs level) 48000)
            (tl (Reference.biphaseMark bs level)))
       = 20%float.
Proof.
  intros bs level Hbits. unfold collectBits.
  rewrite initialState_biphaseMark.
  destruct (decodeLoop_biphaseMark_state 0.99%float 0.01%float 1000 eq_refl bs
              level [] Hbits (Nat.le_0_l _)) as (Hb & Hp & Hs).
  cbv zeta in Hb, Hp, Hs. rewrite Hp, Hb, Hs. split; reflexivity.
Qed.

Lemma collectBits_biphaseMark_witness :
  ReadTimecode.collectBits (Reference.biphaseMark [1; 0; 0; 1; 1] false) 48000
  = [1; 0; 0; 1; 1]
  /\ ReadTimecode.samplesPerBit
       (ReadTimecode.decodeLoop 0.99%float 0.01%float 1000
          (ReadTimecode.initialState
             (Reference.biphaseMark [1; 0; 0; 1; 1] false) 48000)
          (tl (Reference.biphaseMark [1; 0; 0; 1; 1] false)))
     = 20%float.
Proof.
  apply (collectBits_biphaseMark [1; 0; 0; 1; 1] false).
  repeat constructor; (left; reflexivity) || (right; reflexivity).
Defined.

(** X5. On the same waveforms the position-anchored decode returns the first
    80 encoded bits: a whole frame when the waveform starts at a frame
    boundary. *)
Theorem detectManchesterBitsFromPosition_biphaseMark :
  forall (bs : list Z) (level : bool),
    Forall Reference.isBit bs ->
    ReadTimecode.detectManchesterBitsFromPosition
      (Reference.biphaseMark bs level) 48000
    = firstn 80 bs.
Proof.
  intros bs level Hbits.
  unfold detectManchesterBitsFromPosition, collectBitsFromPosition.
  rewrite initialState_biphaseMark.
  destruct (decodeLoop_biphaseMark 0.95%float 0.05%float 80 eq_refl bs level []
              Hbits (Nat.le_0_l _)) as [Hb Hp].
  cbv zeta in Hb, Hp. rewrite Hp, Hb. cbn [andb app List.length Nat.sub].
  unfold JS.slice. cbn [skipn Nat.sub]. apply firstn_all2.
  rewrite length_firstn. lia.
Qed.

Lemma detectManchesterBitsFromPosition_biphaseMark_witness :
  ReadTimecode.detectManchesterBitsFromPosition
    (Reference.biphaseMark [1; 0; 0; 1; 1] true) 48000
  = [1; 0; 0; 1; 1].
Proof.
  apply (detectManchesterBitsFromPosition_biphaseMark [1; 0; 0; 1; 1] true).
  repeat constructor; (left; reflexivity) || (right; reflexivity).
Defined.

(** A frame with a perfect sync word is what the scan returns for it. *)
Lemma findSync_encoded (f : LTCFrame) :
  findSync (Reference.encodeLTCFrame f) = Reference.encodeLTCFrame f.
Proof.
  assert (Hq : Reference.qualifies (Reference.encodeLTCFrame f) 0).
  { split; [rewrite encodeLTCFrame_length; lia|].
    unfold Reference.syncMatchesAt.
    rewrite frameCandidateAt_whole by apply encodeLTCFrame_length.
    change (countMatches (JS.slice (Reference.encodeLTCFrame f) 64 80) syncPattern)
      with (Reference.decoderSyncMatches (Reference.encodeLTCFrame f)).
    rewrite encodeLTCFrame_sync. lia. }
  destruct (findSync_first (Reference.encodeLTCFrame f))
    as [[_ Hnone] | (k & Hk & Hfirst & Hres)].
  - contradiction (Hnone 0%nat).
  - destruct k as [| k]; [| contradiction (Hfirst 0%nat); lia].
    rewrite Hres. apply frameCandidateAt_whole, encodeLTCFrame_length.
Qed.

Lemma parseLTCFrame_encoded (f : LTCFrame) :
  Reference.encodable f ->
  parseLTCFrame (Reference.encodeLTCFrame f) = Some f.
Proof.
  intros Hf.
  rewrite parseLTCFrame_by_layout
    by (apply encodeLTCFrame_bits || (rewrite encodeLTCFrame_length; lia)).
  rewrite encodeLTCFrame_sync. cbn [Nat.ltb Nat.leb].
  rewrite (decodeByLayout_encode f Hf). reflexivity.
Qed.

(** X6. End to end: for every frame of encodable field values, the ideal
    48 kHz waveform of its 80 bits is decoded back to exactly those values,
    by the free scan followed by the field decoder and by the
    position-anchored decode followed by the field decoder. *)
Theorem waveform_roundtrip :
  forall (f : ReadTimecode.LTCFrame) (level : bool),
    Reference.encodable f ->
    ReadTimecode.parseLTCFrame
      (ReadTimecode.detectManchesterBits
         (Reference.biphaseMark (Reference.encodeLTCFrame f) level) 48000)
    = Some f
    /\ ReadTimecode.parseLTCFrame
         (ReadTimecode.detectManchesterBitsFromPosition
            (Reference.biphaseMark (Reference.encodeLTCFrame f) level) 48000)
       = Some f.
Proof.
  intros f level Hf.
  assert (Hall : firstn 1000 (Reference.encodeLTCFrame f) = Reference.encodeLTCFrame f)
    by (apply firstn_all2; rewrite encodeLTCFrame_length; lia).
  assert (H80 : firstn 80 (Reference.encodeLTCFrame f) = Reference.encodeLTCFrame f)
    by (apply firstn_all2; rewrite encodeLTCFrame_length; lia).
  split.
  - unfold detectManchesterBits.
    unfold collectBits. rewrite initialState_biphaseMark.
    destruct (decodeLoop_biphaseMark 0.99%float 0.01%float 1000 eq_refl
                (Reference.encodeLTCFrame f) level []
                (encodeLTCFrame_bits f) (Nat.le_0_l _)) as [Hb Hp].
    cbv zeta in Hb, Hp. rewrite Hp, Hb. cbn [app List.length Nat.sub].
    rewrite Hall, findSync_encoded. apply parseLTCFrame_encoded, Hf.
  - unfold detectManchesterBitsFromPosition, collectBitsFromPosition.
    rewrite initialState_biphaseMark.
    destruct (decodeLoop_biphaseMark 0.95%float 0.05%float 80 eq_refl
                (Reference.encodeLTCFrame f) level []
                (encodeLTCFrame_bits f) (Nat.le_0_l _)) as [Hb Hp].
    cbv zeta in Hb, Hp. rewrite Hp, Hb. cbn [andb app List.length Nat.sub].
    rewrite H80. unfold JS.slice. cbn [skipn Nat.sub]. rewrite H80.
    apply parseLTCFrame_encoded, Hf.
Qed.

Lemma waveform_roundtrip_witness :
  ReadTimecode.parseLTCFrame
    (ReadTimecode.detectManchesterBits
       (Reference.biphaseMark
          (Reference.encodeLTCFrame Reference.frame_year75) false) 48000)
  = Some Reference.frame_year75.
Proof.
  apply (waveform_roundtrip Reference.frame_year75 false).
  unfold Reference.encodable. cbn. lia.
Defined.

End BitRecoveryProperties.

(** ** The frame search ([findFirstValidLTCFrame]) *)

Section FrameSearchProperties.
Import ReadTimecode.

Lemma searchFrom_unfold (fuel : nat) (digital : list bool)
    (sampleRate chunkSize step startPos : Z) :
  FrameSearch.searchFrom (S fuel) digital sampleRate chunkSize step startPos
  = if startPos <? Z.of_nat (List.length digital) - chunkSize then
      match Reference.chunkFrame digital sampleRate chunkSize startPos with
      | Some frame =>
          Some (Some {| FrameSearch.frame := frame;
                        FrameSearch.samplePosition := startPos |})
      | None =>
          FrameSearch.searchFrom fuel digital sampleRate chunkSize step
                                 (startPos + step)
      end
    else Some None.
Proof.
  cbn [FrameSearch.searchFrom]. unfold Reference.chunkFrame.
  destruct (_ <? _); [|reflexivity].
  destruct (80 <=? _)%nat; [|reflexivity].
  destruct (parseLTCFrame _); reflexivity.
Qed.

Lemma searchFrom_done (fuel : nat) (digital : list bool)
    (sampleRate chunkSize step startPos : Z) :
  Z.of_nat (List.length digital) - chunkSize <= startPos ->
  FrameSearch.searchFrom fuel digital sampleRate chunkSize step startPos
  = Some None.
Proof.
  intros Hge. destruct fuel; cbn [FrameSearch.searchFrom];
    (replace (_ <? _) with false by (symmetry; apply Z.ltb_ge; exact Hge));
    reflexivity.
Qed.

(** With a positive step and fuel for the positions that remain, the loop
    ends: at the first start position whose chunk gives a frame, or with
    nothing once the positions are used up. *)
Lemma searchFrom_first (digital : list bool) (sampleRate chunkSize step : Z) :
  0 < step ->
  forall (fuel : nat) (startPos : Z),
    Z.of_nat (List.length digital) - chunkSize - startPos <= Z.of_nat fuel ->
    (FrameSearch.searchFrom fuel digital sampleRate chunkSize step startPos
     = Some None
     /\ forall j, 0 <= j ->
          startPos + j * step < Z.of_nat (List.length digital) - chunkSize ->
          Reference.chunkFrame digital sampleRate chunkSize (startPos + j * step)
          = None)
    \/ (exists j frame,
          0 <= j
          /\ FrameSearch.searchFrom fuel digital sampleRate chunkSize step startPos
             = Some (Some {| FrameSearch.frame := frame;
                             FrameSearch.samplePosition := startPos + j * step |})
          /\ startPos + j * step < Z.of_nat (List.length digital) - chunkSize
          /\ Reference.chunkFrame digital sampleRate chunkSize
               (startPos + j * step) = Some frame
          /\ forall i, 0 <= i < j ->
               Reference.chunkFrame digital sampleRate chunkSize
                 (startPos + i * step) = None).
Proof.
  intros Hstep. induction fuel as [| fuel IH]; intros startPos Hfuel.
  - left. split; [apply searchFrom_done; lia|].
    intros j Hj Hlt. nia.
  - destruct (Z.ltb_spec startPos (Z.of_nat (List.length digital) - chunkSize))
      as [Hlt | Hge].
    + rewrite searchFrom_unfold.
      replace (_ <? _) with true by (symmetry; apply Z.ltb_lt; exact Hlt).
      destruct (Reference.chunkFrame digital sampleRate chunkSize startPos)
        as [frame |] eqn:Hchunk.
      * right. exists 0, frame. rewrite Z.mul_0_l, Z.add_0_r.
        repeat split; try assumption; try lia.
      * destruct (IH (startPos + step)) as [[Hnone Hall] | (j & frame & Hj & Hres & Hpos & Hfr & Hbefore)];
          [lia | |].
        -- left. split; [exact Hnone|].
           intros j Hj Hpos. destruct (Z.eq_dec j 0) as [-> | Hne].
           ++ rewrite Z.mul_0_l, Z.add_0_r. exact Hchunk.
           ++ replace (startPos + j * step)
                with (startPos + step + (j - 1) * step) by lia.
              apply Hall; [lia|]. lia.
        -- right. exists (j + 1), frame.
           replace (startPos + (j + 1) * step)
             with (startPos + step + j * step) by lia.
           repeat split; try assumption; try lia.
           intros i Hi. destruct (Z.eq_dec i 0) as [-> | Hne].
           ++ rewrite Z.mul_0_l, Z.add_0_r. exact Hchunk.
           ++ replace (startPos + i * step)
                with (startPos + step + (i - 1) * step) by lia.
              apply Hbefore. lia.
    + left. split; [apply searchFrom_done; lia|].
      intros j Hj Hpos. nia.
Qed.

(** X7. With a positive step (every sample rate of 120 Hz or more),
    [findFirstValidLTCFrame] terminates, and its answer is the first match
    in scan order: it returns the frame of the first chunk start
    [k * step] (below [length - chunkSize]) whose chunk decodes to a frame,
    with that start as sample position, and [null] exactly when no chunk
    start gives a frame. *)
Theorem findFirstValidLTCFrame_first_match :
  forall (digital : list bool) (sampleRate chunkSize step : Z),
    FrameSearch.chunkSizeOf sampleRate = Some chunkSize ->
    FrameSearch.stepOf sampleRate = Some step ->
    0 < step ->
    let limit := Z.of_nat (List.length digital) - chunkSize in
    (FrameSearch.findFirstValidLTCFrame digital sampleRate = Some None
     /\ forall k, 0 <= k -> k * step < limit ->
          Reference.chunkFrame digital sampleRate chunkSize (k * step) = None)
    \/ (exists k frame,
          0 <= k /\ k * step < limit
          /\ FrameSearch.findFirstValidLTCFrame digital sampleRate
             = Some (Some {| FrameSearch.frame := frame;
                             FrameSearch.samplePosition := k * step |})
          /\ Reference.chunkFrame digital sampleRate chunkSize (k * step)
             = Some frame
          /\ forall i, 0 <= i < k ->
               Reference.chunkFrame digital sampleRate chunkSize (i * step)
               = None).
Proof.
  intros digital sampleRate chunkSize step Hc Hs Hstep limit.
  unfold FrameSearch.findFirstValidLTCFrame. rewrite Hc, Hs.
  destruct (searchFrom_first digital sampleRate chunkSize step Hstep
              (Z.to_nat (Z.of_nat (List.length digital) - chunkSize)) 0)
    as [[Hnone Hall] | (j & frame & Hj & Hres & Hpos & Hfr & Hbefore)]; [lia | |].
  - left. split; [exact Hnone|]. intros k Hk Hlt.
    apply (Hall k Hk). unfold limit in Hlt. lia.
  - right. exists j, frame. cbn [Z.add] in *.
    repeat split; assumption.
Qed.

Lemma findFirstValidLTCFrame_first_match_witness :
  Reference.chunkFrame Reference.lateFrameTrace 48000 6400 0 = None
  /\ FrameSearch.findFirstValidLTCFrame Reference.lateFrameTrace 48000
     = Some (Some {| FrameSearch.frame := Reference.frame_01020304;
                     FrameSearch.samplePosition := 200 |}).
Proof.
  assert (H0 : Reference.chunkFrame Reference.lateFrameTrace 48000 6400 0 = None)
    by (vm_compute; reflexivity).
  assert (H1 : Reference.chunkFrame Reference.lateFrameTrace 48000 6400 200
               = Some Reference.frame_01020304)
    by (vm_compute; reflexivity).
  split; [exact H0|].
  destruct (findFirstValidLTCFrame_first_match Reference.lateFrameTrace 48000
              6400 200 eq_refl eq_refl eq_refl)
    as [[_ Hall] | (k & frame & Hk & Hlt & Hres & Hchunk & Hbefore)].
  - (* no match at all: refuted by the chunk at 200 *)
    specialize (Hall 1 ltac:(lia) ltac:(vm_compute; reflexivity)).
    change (1 * 200) with 200 in Hall. rewrite H1 in Hall. discriminate Hall.
  - assert (Hone : k = 1).
    { destruct (Z.eq_dec k 0) as [-> | Hne0].
      - change (0 * 200) with 0 in Hchunk. rewrite H0 in Hchunk.
        discriminate Hchunk.
      - destruct (Z.eq_dec k 1) as [-> | Hne1]; [reflexivity|].
        specialize (Hbefore 1 ltac:(lia)).
        change (1 * 200) with 200 in Hbefore. rewrite H1 in Hbefore.
        discriminate Hbefore. }
    subst k. change (1 * 200) with 200 in Hres, Hchunk.
    rewrite H1 in Hchunk. injection Hchunk as <-. exact Hres.
Defined.

(** X8. A trace no longer than one chunk (four frames: 6400 samples at
    48 kHz) is not searched at all: the function returns [null], even for a
    trace that holds a whole frame which the scan would decode. *)
Theorem findFirstValidLTCFrame_short_trace :
  forall (digital : list bool) (sampleRate chunkSize : Z),
    FrameSearch.chunkSizeOf sampleRate = Some chunkSize ->
    Z.of_nat (List.length digital) <= chunkSize ->
    FrameSearch.findFirstValidLTCFrame digital sampleRate = Some None.
Proof.
  intros digital sampleRate chunkSize Hc Hlen.
  unfold FrameSearch.findFirstValidLTCFrame. rewrite Hc.
  destruct (FrameSearch.stepOf sampleRate); [|reflexivity].
  apply searchFrom_done. lia.
Qed.

Lemma findFirstValidLTCFrame_short_trace_witness :
  FrameSearch.findFirstValidLTCFrame
    (Reference.biphaseMark (Reference.encodeLTCFrame Reference.frame_01020304)
       true) 48000
  = Some None.
Proof.
  apply (findFirstValidLTCFrame_short_trace _ 48000 6400 eq_refl).
  vm_compute. discriminate.
Defined.


(** *** A trace that starts with a frame *)

Lemma decodeLoop_stop (keep gain : float) (budget : nat) (st : DecoderState)
    (rest : list bool) :
  (budget <= List.length (bits st))%nat ->
  decodeLoop keep gain budget st rest = st.
Proof.
  intros Hfull. destruct rest as [| d rest]; [reflexivity|].
  cbn [decodeLoop].
  replace (_ <? _)%nat with false by (symmetry; apply Nat.ltb_ge; exact Hfull).
  reflexivity.
Qed.

Lemma decodeLoop_app (keep gain : float) (budget : nat) (l1 l2 : list bool) :
  forall st,
    decodeLoop keep gain budget st (l1 ++ l2)
    = decodeLoop keep gain budget (decodeLoop keep gain budget st l1) l2.
Proof.
  induction l1 as [| d l1 IH]; intros st; [reflexivity|].
  cbn [app decodeLoop].
  destruct (Nat.ltb_spec (List.length (bits st)) budget) as [Hlt | Hge].
  - apply IH.
  - symmetry. apply decodeLoop_stop. exact Hge.
Qed.

(** Bits are only ever appended. *)
Lemma sampleStep_extends (keep gain : float) (st : DecoderState) (d : bool) :
  exists extra, bits (sampleStep keep gain st d) = bits st ++ extra.
Proof.
  unfold sampleStep, transition.
  destruct (_ =? _); cbn [bits pendingBit samplesSinceChange samplesPerBit].
  - exists []. rewrite app_nil_r. reflexivity.
  - destruct (_ <? _)%float; [|destruct (_ <? _)%float];
      destruct (pendingBit st); cbn [bits];
      first [ exists []; rewrite app_nil_r; reflexivity
            | exists [1]; reflexivity
            | exists [0]; reflexivity
            | exists [1; 0]; rewrite <- app_assoc; reflexivity ].
Qed.

Lemma decodeLoop_extends (keep gain : float) (budget : nat) (rest : list bool) :
  forall st,
    exists extra, bits (decodeLoop keep gain budget st rest) = bits st ++ extra.
Proof.
  induction rest as [| d rest IH]; intros st.
  - exists []. rewrite app_nil_r. reflexivity.
  - cbn [decodeLoop]. destruct (_ <? _)%nat.
    + destruct (IH (sampleStep keep gain st d)) as [e2 H2].
      destruct (sampleStep_extends keep gain st d) as [e1 H1].
      exists (e1 ++ e2). rewrite H2, H1, app_assoc. reflexivity.
    + exists []. rewrite app_nil_r. reflexivity.
Qed.

Lemma biphaseMark_length (bs : list Z) (level : bool) :
  List.length (Reference.biphaseMark bs level) = (20 * List.length bs + 1)%nat.
Proof.
  revert level. induction bs as [| b rest IH]; intros level; [reflexivity|].
  cbn [Reference.biphaseMark]. destruct (b =? 0).
  - rewrite length_app, repeat_length, IH. cbn [List.length]. lia.
  - rewrite !length_app, !repeat_length, IH. cbn [List.length]. lia.
Qed.

(** What the free scan collects from a trace that begins with the waveform
    of a frame: the frame, then whatever the rest of the trace adds. *)
Lemma collectBits_frame_first (f : LTCFrame) (level : bool) (tail : list bool) :
  exists extra,
    collectBits
      (Reference.biphaseMark (Reference.encodeLTCFrame f) level ++ tail) 48000
    = Reference.encodeLTCFrame f ++ extra.
Proof.
  unfold collectBits.
  rewrite (biphaseMark_head (Reference.encodeLTCFrame f) level).
  cbn [app tl].
  change (initialState
            (level :: tl (Reference.biphaseMark (Reference.encodeLTCFrame f) level)
                      ++ tail) 48000)
    with (Reference.cellState level []).
  rewrite decodeLoop_app.
  destruct (decodeLoop_biphaseMark 0.99%float 0.01%float 1000 eq_refl
              (Reference.encodeLTCFrame f) level []
              (encodeLTCFrame_bits f) (Nat.le_0_l _)) as [Hb _].
  cbv zeta in Hb. cbn [app List.length Nat.sub] in Hb.
  rewrite firstn_all2 in Hb by (rewrite encodeLTCFrame_length; lia).
  match goal with
  | |- context [decodeLoop _ _ _ ?st tail] =>
      destruct (decodeLoop_extends 0.99%float 0.01%float 1000 tail st)
        as [extra Hext]
  end.
  rewrite Hb in Hext.
  destruct (pendingBit _).
  - exists (extra ++ [1]). rewrite Hext, app_assoc. reflexivity.
  - exists extra. exact Hext.
Qed.

Lemma findSync_frame_first (f : LTCFrame) (extra : list Z) :
  findSync (Reference.encodeLTCFrame f ++ extra) = Reference.encodeLTCFrame f.
Proof.
  assert (Hwin : frameCandidateAt (Reference.encodeLTCFrame f ++ extra) 0
                 = Reference.encodeLTCFrame f).
  { unfold frameCandidateAt, JS.slice. cbn [skipn Nat.add].
    rewrite Nat.sub_0_r, firstn_app, encodeLTCFrame_length, Nat.sub_diag.
    change (firstn 0 extra) with (@nil Z).
    rewrite app_nil_r. apply firstn_all2. rewrite encodeLTCFrame_length. lia. }
  assert (Hq : Reference.qualifies (Reference.encodeLTCFrame f ++ extra) 0).
  { split; [rewrite length_app, encodeLTCFrame_length; lia|].
    unfold Reference.syncMatchesAt. rewrite Hwin.
    change (countMatches (JS.slice (Reference.encodeLTCFrame f) 64 80) syncPattern)
      with (Reference.decoderSyncMatches (Reference.encodeLTCFrame f)).
    rewrite encodeLTCFrame_sync. lia. }
  destruct (findSync_first (Reference.encodeLTCFrame f ++ extra))
    as [[_ Hnone] | (k & Hk & Hfirst & Hres)].
  - contradiction (Hnone 0%nat).
  - destruct k as [| k]; [| contradiction (Hfirst 0%nat); lia].
    rewrite Hres. exact Hwin.
Qed.

Lemma searchFrom_frame_first :
  forall (f : ReadTimecode.LTCFrame) (level : bool) (tail : list bool),
    Reference.encodable f ->
    6400 < Z.of_nat (List.length
                       (Reference.biphaseMark (Reference.encodeLTCFrame f) level
                        ++ tail)) ->
    FrameSearch.findFirstValidLTCFrame
      (Reference.biphaseMark (Reference.encodeLTCFrame f) level ++ tail) 48000
    = Some (Some {| FrameSearch.frame := f; FrameSearch.samplePosition := 0 |}).
Proof.
  intros f level tail Hf Hlong.
  set (wave := Reference.biphaseMark (Reference.encodeLTCFrame f) level) in *.
  assert (Hwave : List.length wave = 1601%nat)
    by (unfold wave; rewrite biphaseMark_length, encodeLTCFrame_length; reflexivity).
  unfold FrameSearch.findFirstValidLTCFrame.
  change (FrameSearch.chunkSizeOf 48000) with (Some 6400).
  change (FrameSearch.stepOf 48000) with (Some 200). cbv iota.
  destruct (Z.to_nat (Z.of_nat (List.length (wave ++ tail)) - 6400))
    as [| fuel] eqn:Hfuel; [lia|].
  rewrite searchFrom_unfold.
  replace (_ <? _) with true by (symmetry; apply Z.ltb_lt; lia).
  assert (Hchunk : FrameSearch.sliceZ (wave ++ tail) 0 (0 + 6400)
                   = wave ++ firstn 4799 tail).
  { unfold FrameSearch.sliceZ. cbn [Z.ltb Z.compare Z.add].
    rewrite Z.min_l by lia. rewrite Z.min_l by lia.
    change (Z.to_nat (6400 - 0)) with (1601 + 4799)%nat.
    cbn [Z.to_nat skipn].
    rewrite firstn_app, Hwave.
    rewrite firstn_all2 by lia.
    replace (1601 + 4799 - 1601)%nat with 4799%nat by lia. reflexivity. }
  unfold Reference.chunkFrame. rewrite Hchunk.
  unfold detectManchesterBits, wave.
  destruct (collectBits_frame_first f level (firstn 4799 tail)) as [extra ->].
  rewrite findSync_frame_first, encodeLTCFrame_length. cbn [Nat.leb].
  rewrite (parseLTCFrame_encoded f Hf). reflexivity.
Qed.

(** X9. If the trace begins with the ideal 48 kHz waveform of a frame of
    encodable field values and is longer than one chunk (6400 samples),
    [findFirstValidLTCFrame] returns exactly that frame, at sample
    position 0, whatever follows the frame in the trace. *)
Theorem findFirstValidLTCFrame_frame_first :
  forall (f : ReadTimecode.LTCFrame) (level : bool) (tail : list bool),
    Reference.encodable f ->
    6400 < Z.of_nat (List.length
                       (Reference.biphaseMark (Reference.encodeLTCFrame f) level
                        ++ tail)) ->
    FrameSearch.findFirstValidLTCFrame
      (Reference.biphaseMark (Reference.encodeLTCFrame f) level ++ tail) 48000
    = Some (Some {| FrameSearch.frame := f; FrameSearch.samplePosition := 0 |}).
Proof. exact searchFrom_frame_first. Qed.

Lemma findFirstValidLTCFrame_frame_first_witness :
  FrameSearch.findFirstValidLTCFrame
    (Reference.biphaseMark (Reference.encodeLTCFrame Reference.frame_01020304)
       true
     ++ Reference.biphaseMark
          (Reference.encodeLTCFrame Reference.frame_01020304
           ++ Reference.encodeLTCFrame Reference.frame_01020304
           ++ Reference.encodeLTCFrame Reference.frame_01020304) true) 48000
  = Some (Some {| FrameSearch.frame := Reference.frame_01020304;
                  FrameSearch.samplePosition := 0 |}).
Proof.
  apply (findFirstValidLTCFrame_frame_first Reference.frame_01020304 true).
  - unfold Reference.encodable. cbn. lia.
  - vm_compute. reflexivity.
Defined.

End FrameSearchProperties.

(** ** The WAV header ([parseWavHeader]) *)

Section WavHeaderProperties.
Import WavHeader.

Lemma byteAt_range (buffer : list byte) (off v : Z) :
  ReadTimecode.byteAt buffer off = Some v ->
  0 <= v <= 255 /\ 0 <= off < Z.of_nat (List.length buffer).
Proof.
  unfold ReadTimecode.byteAt. destruct (Z.ltb_spec off 0); [discriminate|].
  destruct (nth_error buffer (Z.to_nat off)) as [b |] eqn:Hnth; [|discriminate].
  cbn. intros Hv. injection Hv as <-.
  pose proof (Byte.to_N_bounded b) as Hb.
  assert (Hin : (Z.to_nat off < List.length buffer)%nat)
    by (apply nth_error_Some; rewrite Hnth; discriminate).
  lia.
Qed.

Lemma readUInt16LE_range (buffer : list byte) (off v : Z) :
  readUInt16LE buffer off = Return v ->
  0 <= v < 2 ^ 16 /\ 0 <= off /\ off + 2 <= Z.of_nat (List.length buffer).
Proof.
  unfold readUInt16LE.
  destruct (ReadTimecode.byteAt buffer off) as [a |] eqn:Ha; [|discriminate].
  destruct (ReadTimecode.byteAt buffer (off + 1)) as [b |] eqn:Hb; [|discriminate].
  intros H. injection H as <-.
  apply byteAt_range in Ha, Hb. lia.
Qed.

Lemma readUInt32LE_range (buffer : list byte) (off v : Z) :
  readUInt32LE buffer off = Return v ->
  0 <= v < 2 ^ 32 /\ 0 <= off /\ off + 4 <= Z.of_nat (List.length buffer).
Proof.
  unfold readUInt32LE.
  destruct (ReadTimecode.byteAt buffer off) as [a |] eqn:Ha; [|discriminate].
  destruct (ReadTimecode.byteAt buffer (off + 1)) as [b |] eqn:Hb; [|discriminate].
  destruct (ReadTimecode.byteAt buffer (off + 2)) as [c |] eqn:Hc; [|discriminate].
  destruct (ReadTimecode.byteAt buffer (off + 3)) as [d |] eqn:Hd; [|discriminate].
  intros H. injection H as <-.
  apply byteAt_range in Ha, Hb, Hc, Hd. lia.
Qed.

Lemma chunkWalk_total (buffer : list byte) :
  forall (fuel : nat) (offset sr bps nc : Z),
    12 <= offset ->
    Z.of_nat (List.length buffer) - offset <= Z.of_nat fuel ->
    0 <= sr < 2 ^ 32 -> 0 <= bps < 2 ^ 16 -> 0 <= nc < 2 ^ 16 ->
    exists r, chunkWalk fuel buffer offset sr bps nc = Some r
              /\ forall info, r = Return info -> Reference.headerInRange buffer info.
Proof.
  induction fuel as [| fuel IH]; intros offset sr bps nc Hoff Hfuel Hsr Hbps Hnc.
  - cbn [chunkWalk].
    replace (_ <? _) with false by (symmetry; apply Z.ltb_ge; lia).
    eexists. split; [reflexivity | discriminate].
  - cbn [chunkWalk].
    destruct (Z.ltb_spec offset (Z.of_nat (List.length buffer))) as [Hlt | Hge];
      [|eexists; split; [reflexivity | discriminate]].
    destruct (readUInt32LE buffer (offset + 4)) as [chunkSize | e] eqn:Hsize;
      [|eexists; split; [reflexivity | discriminate]].
    apply readUInt32LE_range in Hsize as (Hcs & _ & Hfit).
    destruct (String.eqb _ "fmt ").
    + destruct (readUInt16LE buffer (offset + 4 + 4)) as [v1 | ?];
        [|eexists; split; [reflexivity | discriminate]].
      destruct (readUInt16LE buffer (offset + 4 + 4 + 2)) as [v2 | ?] eqn:H2;
        [|eexists; split; [reflexivity | discriminate]].
      destruct (readUInt32LE buffer (offset + 4 + 4 + 4)) as [v3 | ?] eqn:H3;
        [|eexists; split; [reflexivity | discriminate]].
      destruct (readUInt32LE buffer (offset + 4 + 4 + 8)) as [v4 | ?];
        [|eexists; split; [reflexivity | discriminate]].
      destruct (readUInt16LE buffer (offset + 4 + 4 + 12)) as [v5 | ?];
        [|eexists; split; [reflexivity | discriminate]].
      destruct (readUInt16LE buffer (offset + 4 + 4 + 14)) as [v6 | ?] eqn:H6;
        [|eexists; split; [reflexivity | discriminate]].
      apply readUInt16LE_range in H2, H6. apply readUInt32LE_range in H3.
      apply IH; lia.
    + destruct (String.eqb _ "data").
      * eexists. split; [reflexivity|].
        intros info Hinfo. injection Hinfo as <-. unfold Reference.headerInRange. cbn. lia.
      * apply IH; lia.
Qed.

(** X10. [parseWavHeader] terminates on every buffer, and when it returns a
    header, the data offset lies inside the buffer, after at least the 12
    RIFF bytes and one 8-byte chunk header, and every field is within the
    range of the unsigned integer it was read from. *)
Theorem parseWavHeader_in_range :
  forall buffer : list byte,
    exists r, WavHeader.parseWavHeader buffer = Some r
              /\ forall info,
                   r = WavHeader.Return info ->
                   20 <= WavHeader.dataOffset info <= Z.of_nat (List.length buffer)
                   /\ 0 <= WavHeader.dataSize info < 2 ^ 32
                   /\ 0 <= WavHeader.sampleRate info < 2 ^ 32
                   /\ 0 <= WavHeader.bitsPerSample info < 2 ^ 16
                   /\ 0 <= WavHeader.numChannels info < 2 ^ 16.
Proof.
  intros buffer. unfold parseWavHeader.
  destruct (readUInt32LE buffer 4); [|eexists; split; [reflexivity | discriminate]].
  apply chunkWalk_total; lia.
Qed.

(** *** Reading back what was laid out *)

Lemma byteOfZ_value (z : Z) :
  Z.of_N (Byte.to_N (Reference.byteOfZ z)) = z mod 256.
Proof.
  unfold Reference.byteOfZ.
  assert (Hlt : (Z.to_N (z mod 256) < 256)%N)
    by (pose proof (Z.mod_pos_bound z 256 ltac:(lia)); lia).
  destruct (Byte.of_N (Z.to_N (z mod 256))) as [b |] eqn:Hb.
  - apply Byte.to_of_N in Hb. rewrite Hb.
    pose proof (Z.mod_pos_bound z 256 ltac:(lia)). lia.
  - apply Byte.of_N_None_iff in Hb. lia.
Qed.

Lemma byteAt_app (pre l : list byte) (k : Z) :
  0 <= k ->
  ReadTimecode.byteAt (pre ++ l) (Z.of_nat (List.length pre) + k)
  = ReadTimecode.byteAt l k.
Proof.
  intros Hk. unfold ReadTimecode.byteAt.
  replace (_ + k <? 0) with false by (symmetry; apply Z.ltb_ge; lia).
  replace (k <? 0) with false by (symmetry; apply Z.ltb_ge; lia).
  replace (Z.to_nat (Z.of_nat (List.length pre) + k))
    with (List.length pre + Z.to_nat k)%nat by lia.
  rewrite nth_error_app2 by lia.
  replace (List.length pre + Z.to_nat k - List.length pre)%nat
    with (Z.to_nat k) by lia.
  reflexivity.
Qed.

Lemma readUInt16LE_app (pre l : list byte) (k : Z) :
  0 <= k ->
  readUInt16LE (pre ++ l) (Z.of_nat (List.length pre) + k) = readUInt16LE l k.
Proof.
  intros Hk. unfold readUInt16LE.
  rewrite <- !Z.add_assoc, !byteAt_app by lia. reflexivity.
Qed.

Lemma readUInt32LE_app (pre l : list byte) (k : Z) :
  0 <= k ->
  readUInt32LE (pre ++ l) (Z.of_nat (List.length pre) + k) = readUInt32LE l k.
Proof.
  intros Hk. unfold readUInt32LE.
  rewrite <- !Z.add_assoc, !byteAt_app by lia. reflexivity.
Qed.

Lemma readUInt16LE_u16le (z : Z) (post : list byte) :
  0 <= z < 2 ^ 16 ->
  readUInt16LE (Reference.u16le z ++ post) 0 = Return z.
Proof.
  intros Hz. unfold readUInt16LE, Reference.u16le, ReadTimecode.byteAt. cbn.
  change (Pos.to_nat 1) with 1%nat. cbn.
  rewrite !byteOfZ_value. f_equal.
  change (2 ^ 8) with 256 in *. change (2 ^ 16) with 65536 in *.
  pose proof (Z.div_mod z 256 ltac:(lia)).
  rewrite (Z.mod_small (z / 256) 256)
    by (split; [apply Z.div_pos; lia | apply Z.div_lt_upper_bound; lia]).
  lia.
Qed.

Lemma readUInt32LE_u32le (z : Z) (post : list byte) :
  0 <= z < 2 ^ 32 ->
  readUInt32LE (Reference.u32le z ++ post) 0 = Return z.
Proof.
  intros Hz. unfold readUInt32LE, Reference.u32le, ReadTimecode.byteAt. cbn.
  change (Pos.to_nat 1) with 1%nat. change (Pos.to_nat 2) with 2%nat.
  change (Pos.to_nat 3) with 3%nat. cbn.
  rewrite !byteOfZ_value. f_equal.
  change (2 ^ 8) with 256 in *. change (2 ^ 16) with 65536 in *.
  change (2 ^ 24) with 16777216 in *. change (2 ^ 32) with 4294967296 in *.
  Z.to_euclidean_division_equations. lia.
Qed.

Lemma toStringAscii_app (pre l : list byte) (a b c d : byte) :
  toStringAscii (pre ++ a :: b :: c :: d :: l)
                (Z.of_nat (List.length pre)) (Z.of_nat (List.length pre) + 4)
  = asciiString [a; b; c; d].
Proof.
  unfold toStringAscii. cbv zeta.
  rewrite Z.max_l by lia. rewrite Z.min_l by (rewrite length_app; cbn; lia).
  replace (Z.to_nat (_ + 4 - _)) with 4%nat by lia.
  rewrite Nat2Z.id, skipn_app, skipn_all, Nat.sub_diag. reflexivity.
Qed.

Lemma readUInt16LE_at (buffer pre post : list byte) (z off : Z) :
  buffer = pre ++ Reference.u16le z ++ post ->
  off = Z.of_nat (List.length pre) ->
  0 <= z < 2 ^ 16 ->
  readUInt16LE buffer off = Return z.
Proof.
  intros -> -> Hz.
  rewrite <- (Z.add_0_r (Z.of_nat _)), readUInt16LE_app by lia.
  now apply readUInt16LE_u16le.
Qed.

Lemma readUInt32LE_at (buffer pre post : list byte) (z off : Z) :
  buffer = pre ++ Reference.u32le z ++ post ->
  off = Z.of_nat (List.length pre) ->
  0 <= z < 2 ^ 32 ->
  readUInt32LE buffer off = Return z.
Proof.
  intros -> -> Hz.
  rewrite <- (Z.add_0_r (Z.of_nat _)), readUInt32LE_app by lia.
  now apply readUInt32LE_u32le.
Qed.

Lemma toStringAscii_at (buffer pre post : list byte) (a b c d : byte) (off : Z) :
  buffer = pre ++ [a; b; c; d] ++ post ->
  off = Z.of_nat (List.length pre) ->
  toStringAscii buffer off (off + 4) = asciiString [a; b; c; d].
Proof. intros -> ->. apply toStringAscii_app. Qed.

Lemma encodeChunk_length (c : Reference.Chunk) :
  (1 <= List.length (Reference.encodeChunk c))%nat.
Proof.
  destruct c as [? ? ? ? ? ? ext | id payload]; cbn [Reference.encodeChunk].
  - cbn. lia.
  - rewrite !length_app. cbn. lia.
Qed.

Lemma chunks_length (chunks : list Reference.Chunk) :
  (List.length chunks
   <= List.length (List.concat (map Reference.encodeChunk chunks)))%nat.
Proof.
  induction chunks as [| c cs IH]; cbn [map List.concat List.length]; [lia|].
  rewrite length_app. pose proof (encodeChunk_length c). lia.
Qed.

Ltac unfold_locals := repeat match goal with x := _ |- _ => subst x end.
Ltac split_buffer := unfold_locals; rewrite <- ?app_assoc; reflexivity.
Ltac split_offset :=
  unfold_locals;
  first [lia
        | rewrite ?length_app; cbv delta [Reference.u16le Reference.u32le];
          cbn [List.length]; lia].

Lemma chunkWalk_chunks (n : Z) (rest : list byte) :
  0 <= n < 2 ^ 32 ->
  forall (chunks : list Reference.Chunk) (fuel : nat) (pre : list byte)
         (sr bps nc : Z),
    Forall Reference.wellFormedChunk chunks ->
    (List.length chunks < fuel)%nat ->
    chunkWalk fuel
      (pre ++ List.concat (map Reference.encodeChunk chunks)
           ++ ["d"; "a"; "t"; "a"]%byte ++ Reference.u32le n ++ rest)
      (Z.of_nat (List.length pre)) sr bps nc
    = Some (Return (Reference.headerOf (Z.of_nat (List.length pre)) chunks
                                       sr bps nc n)).
Proof.
  intros Hn. induction chunks as [| c cs IH];
    intros fuel pre sr bps nc Hwf Hfuel;
    (destruct fuel as [| fuel]; [cbn in Hfuel; lia|]).
  - cbn [map List.concat]. rewrite app_nil_l.
    set (buffer := pre ++ _). set (p := Z.of_nat (List.length pre)).
    cbn [chunkWalk].
    replace (p <? _) with true
      by (symmetry; apply Z.ltb_lt; subst buffer p; rewrite length_app; cbn; lia).
    rewrite (toStringAscii_at buffer pre (Reference.u32le n ++ rest)
               "d" "a" "t" "a")%byte by split_buffer.
    rewrite (readUInt32LE_at buffer (pre ++ ["d"; "a"; "t"; "a"]%byte) rest n)
      by (first [split_buffer | split_offset | exact Hn]).
    cbn. do 2 f_equal. unfold Reference.headerOf. cbn. f_equal. lia.
  - inversion Hwf as [| ? ? Hc Hcs]; subst.
    cbn [map List.concat]. rewrite <- app_assoc.
    set (tail := List.concat _ ++ _).
    assert (Hrec : forall sr' bps' nc',
      chunkWalk fuel (pre ++ Reference.encodeChunk c ++ tail)
        (Z.of_nat (List.length pre)
         + Z.of_nat (List.length (Reference.encodeChunk c))) sr' bps' nc'
      = Some (Return (Reference.headerOf
                        (Z.of_nat (List.length pre)
                         + Z.of_nat (List.length (Reference.encodeChunk c)))
                        cs sr' bps' nc' n))).
    { intros sr' bps' nc'. rewrite app_assoc, <- Nat2Z.inj_add, <- length_app.
      apply IH; [exact Hcs | cbn in Hfuel; lia]. }
    set (p := Z.of_nat (List.length pre)) in *.
    destruct c as [af nc1 sr1 br ba bps1 ext | id payload];
      cbn [Reference.wellFormedChunk] in Hc.
    + destruct Hc as (Haf & Hnc1 & Hsr1 & Hbr & Hba & Hbps1 & Hext).
      cbn [Reference.encodeChunk] in *.
      set (size := 16 + Z.of_nat (List.length ext)) in *.
      set (buffer := pre ++ _) in *.
      set (tag := ["f"; "m"; "t"; " "]%byte) in *.
      cbn [chunkWalk].
      replace (p <? _) with true
        by (symmetry; apply Z.ltb_lt; subst buffer p tag;
            rewrite !length_app; cbn; lia).
      rewrite (toStringAscii_at buffer pre
                 (Reference.u32le size ++ Reference.u16le af
                  ++ Reference.u16le nc1 ++ Reference.u32le sr1
                  ++ Reference.u32le br ++ Reference.u16le ba
                  ++ Reference.u16le bps1 ++ ext ++ tail)
                 "f" "m" "t" " ")%byte
        by (first [split_buffer | reflexivity]).
      rewrite (readUInt32LE_at buffer (pre ++ tag)
                 (Reference.u16le af ++ Reference.u16le nc1
                  ++ Reference.u32le sr1 ++ Reference.u32le br
                  ++ Reference.u16le ba ++ Reference.u16le bps1 ++ ext ++ tail)
                 size)
        by (first [split_buffer | split_offset]).
      change (asciiString ["f"; "m"; "t"; " "]%byte) with "fmt "%string.
      rewrite String.eqb_refl.
      rewrite (readUInt16LE_at buffer (pre ++ tag ++ Reference.u32le size)
                 (Reference.u16le nc1 ++ Reference.u32le sr1
                  ++ Reference.u32le br ++ Reference.u16le ba
                  ++ Reference.u16le bps1 ++ ext ++ tail) af)
        by (first [split_buffer | split_offset]).
      rewrite (readUInt16LE_at buffer
                 (pre ++ tag ++ Reference.u32le size ++ Reference.u16le af)
                 (Reference.u32le sr1 ++ Reference.u32le br
                  ++ Reference.u16le ba ++ Reference.u16le bps1 ++ ext ++ tail)
                 nc1)
        by (first [split_buffer | split_offset]).
      rewrite (readUInt32LE_at buffer
                 (pre ++ tag ++ Reference.u32le size ++ Reference.u16le af
                  ++ Reference.u16le nc1)
                 (Reference.u32le br ++ Reference.u16le ba
                  ++ Reference.u16le bps1 ++ ext ++ tail) sr1)
        by (first [split_buffer | split_offset]).
      rewrite (readUInt32LE_at buffer
                 (pre ++ tag ++ Reference.u32le size ++ Reference.u16le af
                  ++ Reference.u16le nc1 ++ Reference.u32le sr1)
                 (Reference.u16le ba ++ Reference.u16le bps1 ++ ext ++ tail) br)
        by (first [split_buffer | split_offset]).
      rewrite (readUInt16LE_at buffer
                 (pre ++ tag ++ Reference.u32le size ++ Reference.u16le af
                  ++ Reference.u16le nc1 ++ Reference.u32le sr1
                  ++ Reference.u32le br)
                 (Reference.u16le bps1 ++ ext ++ tail) ba)
        by (first [split_buffer | split_offset]).
      rewrite (readUInt16LE_at buffer
                 (pre ++ tag ++ Reference.u32le size ++ Reference.u16le af
                  ++ Reference.u16le nc1 ++ Reference.u32le sr1
                  ++ Reference.u32le br ++ Reference.u16le ba)
                 (ext ++ tail) bps1)
        by (first [split_buffer | split_offset]).
      replace (p + 4 + 4 + size)
        with (p + Z.of_nat (List.length
                (tag ++ Reference.u32le size ++ Reference.u16le af
                 ++ Reference.u16le nc1 ++ Reference.u32le sr1
                 ++ Reference.u32le br ++ Reference.u16le ba
                 ++ Reference.u16le bps1 ++ ext)))
        by split_offset.
      rewrite Hrec. do 2 f_equal.
      unfold Reference.headerOf. cbn [Reference.formatAfter map List.concat].
      destruct (Reference.formatAfter cs sr1 bps1 nc1) as [[sr' bps'] nc'].
      f_equal. rewrite (length_app (Reference.encodeChunk _)).
      cbn [Reference.encodeChunk]. fold size tag. lia.
    + destruct Hc as (Hid & Hfmt & Hdata & Hlen).
      destruct id as [| a [| b [| c [| d [| ? ?]]]]]; try discriminate Hid.
      cbn [Reference.encodeChunk] in *.
      set (size := Z.of_nat (List.length payload)) in *.
      set (buffer := pre ++ _) in *.
      cbn [chunkWalk].
      replace (p <? _) with true
        by (symmetry; apply Z.ltb_lt; subst buffer p;
            rewrite !length_app; cbn; lia).
      rewrite (toStringAscii_at buffer pre
                 (Reference.u32le size ++ payload ++ tail) a b c d)
        by (first [split_buffer | reflexivity]).
      rewrite (readUInt32LE_at buffer (pre ++ [a; b; c; d]) (payload ++ tail) size)
        by (first [split_buffer | split_offset]).
      apply String.eqb_neq in Hfmt, Hdata. rewrite Hfmt, Hdata.
      replace (p + 4 + 4 + size)
        with (p + Z.of_nat (List.length
                ([a; b; c; d] ++ Reference.u32le size ++ payload)))
        by split_offset.
      rewrite Hrec. do 2 f_equal.
      unfold Reference.headerOf. cbn [Reference.formatAfter map List.concat].
      destruct (Reference.formatAfter cs sr bps nc) as [[sr' bps'] nc'].
      f_equal. rewrite (length_app (Reference.encodeChunk _)).
      cbn [Reference.encodeChunk]. fold size. lia.
Qed.

Lemma parseWavHeader_chunks :
  forall (riff : list byte) (chunks : list Reference.Chunk) (dataSize : Z)
         (rest : list byte),
    List.length riff = 12%nat ->
    Forall Reference.wellFormedChunk chunks ->
    0 <= dataSize < 2 ^ 32 ->
    WavHeader.parseWavHeader (Reference.wavFile riff chunks dataSize rest)
    = Some (WavHeader.Return
              (Reference.headerOf 12 chunks 48000 16 1 dataSize)).
Proof.
  intros riff chunks n rest Hriff Hwf Hn. unfold parseWavHeader, Reference.wavFile.
  destruct (readUInt32LE _ 4) as [fileSize | e] eqn:Hsize.
  - cbv zeta. change 12 with (Z.of_nat 12). rewrite <- Hriff.
    apply chunkWalk_chunks; [exact Hn | exact Hwf |].
    rewrite !length_app. pose proof (chunks_length chunks). cbn. lia.
  - exfalso. revert Hsize.
    do 12 (destruct riff as [| ? riff]; [discriminate Hriff|]).
    unfold readUInt32LE, ReadTimecode.byteAt. cbn. discriminate.
Qed.

(** X11. A file laid out as twelve leading bytes, any well-formed chunks,
    and a data chunk header is read back exactly: the data offset is eight
    bytes past the chunks, the data size is the stated one (whatever
    follows), and the format is that of the last format chunk, or 48000 Hz,
    16 bits, one channel when there is none. The twelve leading bytes are
    not looked at. *)
Theorem parseWavHeader_wavFile :
  forall (riff : list byte) (chunks : list Reference.Chunk) (dataSize : Z)
         (rest : list byte),
    List.length riff = 12%nat ->
    Forall Reference.wellFormedChunk chunks ->
    0 <= dataSize < 2 ^ 32 ->
    WavHeader.parseWavHeader (Reference.wavFile riff chunks dataSize rest)
    = Some (WavHeader.Return
              (Reference.headerOf 12 chunks 48000 16 1 dataSize)).
Proof. exact parseWavHeader_chunks. Qed.

Lemma parseWavHeader_wavFile_witness :
  WavHeader.parseWavHeader
    (Reference.wavFile (repeat x00 12)
       [Reference.OtherChunk ["b"; "e"; "x"; "t"]%byte [x01; x02];
        Reference.FmtChunk 1 2 44100 176400 4 24 []] 1000 [])
  = Some (WavHeader.Return
            {| WavHeader.dataOffset := 54; WavHeader.dataSize := 1000;
               WavHeader.sampleRate := 44100; WavHeader.bitsPerSample := 24;
               WavHeader.numChannels := 2 |}).
Proof.
  apply (parseWavHeader_wavFile (repeat x00 12)
           [Reference.OtherChunk ["b"; "e"; "x"; "t"]%byte [x01; x02];
            Reference.FmtChunk 1 2 44100 176400 4 24 []] 1000 []).
  - reflexivity.
  - repeat constructor; cbn; try lia; discriminate.
  - lia.
Defined.

End WavHeaderProperties.
(** ** From the bytes of the file to the first frame ([parseFirstLTCFrame]) *)

Section ReadToolProperties.
Import ReadTimecode.

Lemma pcm16_length (vs : list Z) :
  List.length (Reference.pcm16 vs) = (2 * List.length vs)%nat.
Proof.
  induction vs as [| v vs IH]; [reflexivity|].
  change (Reference.pcm16 (v :: vs))
    with (Reference.sample16 v ++ Reference.pcm16 vs).
  rewrite length_app, IH. cbn. lia.
Qed.

Lemma pcm16_app (xs ys : list Z) :
  Reference.pcm16 (xs ++ ys) = Reference.pcm16 xs ++ Reference.pcm16 ys.
Proof. apply flat_map_app. Qed.

Lemma signal_length (amplitude : Z) (levels : list bool) :
  List.length (Reference.signal amplitude levels) = List.length levels.
Proof. apply length_map. Qed.

Lemma readInt16LE_sample16 (pre post : list byte) (v : Z) :
  - 32768 <= v < 32768 ->
  readInt16LE (pre ++ Reference.sample16 v ++ post) (Z.of_nat (List.length pre))
  = Return (IntSample v).
Proof.
  intros Hv. unfold readInt16LE.
  rewrite <- (Z.add_0_r (Z.of_nat (List.length pre))) at 1.
  rewrite !byteAt_app by lia.
  unfold Reference.sample16, Reference.u16le, byteAt. cbn.
  change (Pos.to_nat 1) with 1%nat. cbn.
  rewrite !byteOfZ_value. do 2 f_equal.
  change (2 ^ 8) with 256. change (2 ^ 16) with 65536.
  destruct (Z.leb_spec 32768
              ((v mod 65536) mod 256 + (v mod 65536 / 256) mod 256 * 256));
    Z.to_euclidean_division_equations; lia.
Qed.

Lemma aboveThreshold_signal (amplitude : Z) (level : bool) :
  0 < amplitude ->
  aboveThreshold (IntSample (if level then amplitude else - amplitude)) = level.
Proof.
  intros Ha. destruct level; cbn [aboveThreshold].
  - apply Z.ltb_lt. lia.
  - apply Z.ltb_ge. lia.
Qed.

Lemma digitize_pcm16 (pre : list byte) (amplitude : Z) :
  0 < amplitude < 32768 ->
  forall (n : nat) (todo done : list bool) (acc : list bool),
    (n <= List.length todo)%nat ->
    digitize (pre ++ Reference.pcm16 (Reference.signal amplitude (done ++ todo)))
             (Z.of_nat (List.length pre)) 16 n (Z.of_nat (List.length done)) acc
    = Return (acc ++ firstn n todo).
Proof.
  intros Hamp. induction n as [| n IH]; intros todo done acc Hn.
  - cbn. now rewrite app_nil_r.
  - destruct todo as [| level todo]; [cbn in Hn; lia|].
    cbn [digitize firstn].
    assert (Hread :
      readSample (pre ++ Reference.pcm16
                          (Reference.signal amplitude (done ++ level :: todo)))
                 (Z.of_nat (List.length pre)) 16 (Z.of_nat (List.length done))
      = Return (IntSample (if level then amplitude else - amplitude))).
    { unfold readSample, sampleOffset.
      replace ((Z.of_nat (List.length done) * 16) mod 8 =? 0) with true
        by (symmetry; apply Z.eqb_eq; Z.to_euclidean_division_equations; lia).
      change (16 =? 32) with false. change (16 =? 16) with true. cbv iota.
      unfold Reference.signal. rewrite map_app, pcm16_app. cbn [map].
      change (Reference.pcm16 (?x :: ?l))
        with (Reference.sample16 x ++ Reference.pcm16 l).
      rewrite app_assoc.
      replace (Z.of_nat (List.length pre) + Z.of_nat (List.length done) * 16 / 8)
        with (Z.of_nat (List.length
                (pre ++ Reference.pcm16
                          (map (fun l : bool => if l then amplitude else - amplitude)
                               done))))
        by (rewrite length_app, pcm16_length, length_map;
            Z.to_euclidean_division_equations; lia).
      apply readInt16LE_sample16. destruct level; lia. }
    rewrite Hread, aboveThreshold_signal by lia.
    replace (done ++ level :: todo) with ((done ++ [level]) ++ todo)
      by (now rewrite <- app_assoc).
    replace (Z.of_nat (List.length done) + 1)
      with (Z.of_nat (List.length (done ++ [level])))
      by (rewrite length_app; cbn; lia).
    rewrite IH by (cbn in Hn; lia).
    now rewrite <- app_assoc.
Qed.

Lemma audioToDigital_pcm16 (pre : list byte) (amplitude sampleRate maxSamples : Z)
    (levels : list bool) :
  0 < amplitude < 32768 ->
  0 <= maxSamples ->
  audioToDigital (pre ++ Reference.pcm16 (Reference.signal amplitude levels))
                 (Z.of_nat (List.length pre)) sampleRate 16 maxSamples
  = Return (firstn (Z.to_nat maxSamples) levels).
Proof.
  intros Hamp Hmax. unfold audioToDigital, availableSamples. cbv zeta.
  change (16 =? 0) with false. cbv iota. cbn [numSamples iterations].
  rewrite length_app, pcm16_length, signal_length.
  replace (8 * (Z.of_nat (List.length pre + 2 * List.length levels)
                - Z.of_nat (List.length pre)) / 16)
    with (Z.of_nat (List.length levels))
    by (Z.to_euclidean_division_equations; lia).
  rewrite (digitize_pcm16 pre amplitude Hamp _ levels [] []) by lia.
  cbn [app]. f_equal.
  destruct (Z.le_ge_cases (Z.of_nat (List.length levels)) maxSamples) as [Hle | Hge].
  - rewrite Z.min_l by lia. rewrite Nat2Z.id.
    rewrite !firstn_all2 by lia. reflexivity.
  - rewrite Z.min_r by lia. reflexivity.
Qed.

(** X12. End to end: a file made of twelve leading bytes, well-formed chunks
    that leave the format at 48000 Hz and 16 bits, a data chunk header
    stating any size, and 16-bit samples of any positive amplitude that
    begin with the ideal waveform of a frame of encodable field values and
    number more than one chunk (6400), gives exactly that frame at sample
    position 0. The stated data size and the channel count play no part. *)
Theorem parseFirstLTCFrame_wavFile :
  forall (riff : list byte) (chunks : list Reference.Chunk)
         (dataSize numChannels amplitude : Z)
         (f : ReadTimecode.LTCFrame) (level : bool) (tail : list bool),
    List.length riff = 12%nat ->
    Forall Reference.wellFormedChunk chunks ->
    Reference.formatAfter chunks 48000 16 1 = (48000, 16, numChannels) ->
    0 <= dataSize < 2 ^ 32 ->
    0 < amplitude < 32768 ->
    Reference.encodable f ->
    6400 < Z.of_nat (List.length
                       (Reference.biphaseMark (Reference.encodeLTCFrame f) level
                        ++ tail)) ->
    ReadTool.parseFirstLTCFrame
      (Reference.wavFile riff chunks dataSize
         (Reference.pcm16
            (Reference.signal amplitude
               (Reference.biphaseMark (Reference.encodeLTCFrame f) level
                ++ tail))))
    = Some (ReadTool.Return
              (Some {| FrameSearch.frame := f;
                       FrameSearch.samplePosition := 0 |})).
Proof.
  intros riff chunks n nc amp f level tail Hriff Hwf Hfmt Hn Hamp Hf Hlong.
  unfold ReadTool.parseFirstLTCFrame.
  rewrite (parseWavHeader_chunks riff chunks n _ Hriff Hwf Hn).
  unfold Reference.headerOf. rewrite Hfmt.
  cbn [WavHeader.dataOffset WavHeader.sampleRate WavHeader.bitsPerSample].
  set (wave := Reference.biphaseMark (Reference.encodeLTCFrame f) level) in *.
  assert (Hwave : List.length wave = 1601%nat)
    by (unfold wave; rewrite biphaseMark_length, encodeLTCFrame_length; reflexivity).
  unfold Reference.wavFile.
  set (body := List.concat (map Reference.encodeChunk chunks)).
  replace (riff ++ body ++ ["d"; "a"; "t"; "a"]%byte ++ Reference.u32le n
           ++ Reference.pcm16 (Reference.signal amp (wave ++ tail)))
    with ((riff ++ body ++ ["d"; "a"; "t"; "a"]%byte ++ Reference.u32le n)
          ++ Reference.pcm16 (Reference.signal amp (wave ++ tail)))
    by (now rewrite <- !app_assoc).
  replace (12 + Z.of_nat (List.length body) + 8)
    with (Z.of_nat (List.length
            (riff ++ body ++ ["d"; "a"; "t"; "a"]%byte ++ Reference.u32le n)))
    by (rewrite !length_app, Hriff; unfold Reference.u32le;
        cbn [List.length]; lia).
  rewrite audioToDigital_pcm16 by (unfold defaultMaxSamples; lia).
  rewrite firstn_app, Hwave.
  rewrite (firstn_all2 wave) by (rewrite Hwave; unfold defaultMaxSamples; lia).
  subst wave. rewrite searchFrom_frame_first; [reflexivity | exact Hf |].
  rewrite length_app, Hwave, length_firstn.
  rewrite length_app, Hwave in Hlong. unfold defaultMaxSamples. lia.
Qed.

Lemma parseFirstLTCFrame_wavFile_witness :
  ReadTool.parseFirstLTCFrame
    (Reference.wavFile (repeat x00 12)
       [Reference.FmtChunk 1 1 48000 96000 2 16 []] 0
       (Reference.pcm16
          (Reference.signal 1
             (Reference.biphaseMark
                (Reference.encodeLTCFrame Reference.frame_01020304) true
              ++ repeat true 4800))))
  = Some (ReadTool.Return
            (Some {| FrameSearch.frame := Reference.frame_01020304;
                     FrameSearch.samplePosition := 0 |})).
Proof.
  apply (parseFirstLTCFrame_wavFile (repeat x00 12)
           [Reference.FmtChunk 1 1 48000 96000 2 16 []] 0 1 1
           Reference.frame_01020304 true (repeat true 4800)).
  - reflexivity.
  - repeat constructor; cbn; lia.
  - reflexivity.
  - lia.
  - lia.
  - vm_compute. intuition congruence.
  - rewrite length_app, biphaseMark_length, encodeLTCFrame_length, repeat_length.
    cbn. lia.
Defined.

End ReadToolProperties.
(** ** What a decoded frame can hold *)

Section DecodedRangeProperties.
Import ReadTimecode.

Lemma lsbFirst_pair_range (b0 b1 : Z) :
  Reference.isBit b0 -> Reference.isBit b1 ->
  0 <= Reference.lsbFirst [b0; b1] < 4.
Proof. unfold Reference.isBit. cbn [Reference.lsbFirst]. lia. Qed.

Lemma lsbFirst_triple_range (b0 b1 b2 : Z) :
  Reference.isBit b0 -> Reference.isBit b1 -> Reference.isBit b2 ->
  0 <= Reference.lsbFirst [b0; b1; b2] < 8.
Proof. unfold Reference.isBit. cbn [Reference.lsbFirst]. lia. Qed.

(** The time fields of a decoded frame are BCD sums, nothing more. *)
Lemma decoded_time_range (bits : list Z) (f : LTCFrame) :
  Forall Reference.isBit bits -> parseLTCFrame bits = Some f ->
  0 <= frame f <= 45 /\ 0 <= second f <= 85 /\
  0 <= minute f <= 85 /\ 0 <= hour f <= 45.
Proof.
  intros Hall Hparse.
  destruct (Nat.ltb_spec (List.length bits) 80) as [Hshort | Hlong].
  - unfold parseLTCFrame in Hparse.
    rewrite (parseLTCFrameR_short bits Hshort) in Hparse.
    discriminate Hparse.
  - rewrite (parseLTCFrame_by_layout bits Hlong Hall) in Hparse.
    destruct (_ <? 14)%nat; [discriminate Hparse|].
    injection Hparse as <-.
    unfold Reference.decodeByLayout, Reference.field.
    cbn [frame second minute hour map].
    assert (Hbit : forall i, (i < 80)%nat ->
                             Reference.isBit (Reference.bitAt bits i))
      by (intros i Hi; apply bitAt_isBit; [exact Hall | lia]).
    pose proof (lsbFirst_nibble_range _ _ _ _ (Hbit 0%nat ltac:(lia)) (Hbit 1%nat ltac:(lia))
                  (Hbit 2%nat ltac:(lia)) (Hbit 3%nat ltac:(lia))).
    pose proof (lsbFirst_pair_range _ _ (Hbit 8%nat ltac:(lia)) (Hbit 9%nat ltac:(lia))).
    pose proof (lsbFirst_nibble_range _ _ _ _ (Hbit 16%nat ltac:(lia)) (Hbit 17%nat ltac:(lia))
                  (Hbit 18%nat ltac:(lia)) (Hbit 19%nat ltac:(lia))).
    pose proof (lsbFirst_triple_range _ _ _ (Hbit 24%nat ltac:(lia)) (Hbit 25%nat ltac:(lia))
                  (Hbit 26%nat ltac:(lia))).
    pose proof (lsbFirst_nibble_range _ _ _ _ (Hbit 32%nat ltac:(lia)) (Hbit 33%nat ltac:(lia))
                  (Hbit 34%nat ltac:(lia)) (Hbit 35%nat ltac:(lia))).
    pose proof (lsbFirst_triple_range _ _ _ (Hbit 40%nat ltac:(lia)) (Hbit 41%nat ltac:(lia))
                  (Hbit 42%nat ltac:(lia))).
    pose proof (lsbFirst_nibble_range _ _ _ _ (Hbit 48%nat ltac:(lia)) (Hbit 49%nat ltac:(lia))
                  (Hbit 50%nat ltac:(lia)) (Hbit 51%nat ltac:(lia))).
    pose proof (lsbFirst_pair_range _ _ (Hbit 56%nat ltac:(lia)) (Hbit 57%nat ltac:(lia))).
    lia.
Qed.

(** A frame the search returns is the frame of the chunk at the position
    it returns. *)
Lemma searchFrom_chunkFrame (digital : list bool) (sampleRate chunkSize step : Z)
    (found : FrameSearch.Found) :
  forall (fuel : nat) (startPos : Z),
    FrameSearch.searchFrom fuel digital sampleRate chunkSize step startPos
    = Some (Some found) ->
    Reference.chunkFrame digital sampleRate chunkSize
      (FrameSearch.samplePosition found)
    = Some (FrameSearch.frame found).
Proof.
  induction fuel as [| fuel IH]; intros startPos Hres.
  - cbn [FrameSearch.searchFrom] in Hres. destruct (_ <? _); discriminate Hres.
  - rewrite searchFrom_unfold in Hres.
    destruct (_ <? _); [|discriminate Hres].
    destruct (Reference.chunkFrame digital sampleRate chunkSize startPos)
      as [fr |] eqn:Hchunk.
    + injection Hres as <-. exact Hchunk.
    + exact (IH (startPos + step) Hres).
Qed.

(** X13. Whatever the trace and the sample rate, a frame returned by
    [findFirstValidLTCFrame] holds BCD sums that were never validated: a
    frame number and an hour of at most 45, a second and a minute of at
    most 85, and user-bit groups below 16. *)
Theorem findFirstValidLTCFrame_field_ranges :
  forall (digital : list bool) (sampleRate : Z) (found : FrameSearch.Found),
    FrameSearch.findFirstValidLTCFrame digital sampleRate = Some (Some found) ->
    let f := FrameSearch.frame found in
    0 <= frame f <= 45 /\ 0 <= second f <= 85
    /\ 0 <= minute f <= 85 /\ 0 <= hour f <= 45
    /\ 0 <= binaryGroup1 f < 16 /\ 0 <= binaryGroup2 f < 16
    /\ 0 <= binaryGroup3 f < 16 /\ 0 <= binaryGroup4 f < 16
    /\ 0 <= binaryGroup5 f < 16 /\ 0 <= binaryGroup6 f < 16
    /\ 0 <= binaryGroup7 f < 16 /\ 0 <= binaryGroup8 f < 16.
Proof.
  intros digital sampleRate found Hres f.
  unfold FrameSearch.findFirstValidLTCFrame in Hres.
  destruct (FrameSearch.chunkSizeOf sampleRate) as [chunkSize |];
    [|discriminate Hres].
  destruct (FrameSearch.stepOf sampleRate) as [step |]; [|discriminate Hres].
  apply searchFrom_chunkFrame in Hres. unfold Reference.chunkFrame in Hres.
  set (chunk := FrameSearch.sliceZ _ _ _) in Hres.
  destruct (80 <=? _)%nat; [|discriminate Hres].
  assert (Hbin : Forall Reference.isBit (detectManchesterBits chunk sampleRate)).
  { destruct (detectManchesterBits_window chunk sampleRate) as [-> | (_ & H & _)];
      [constructor | exact H]. }
  pose proof (decoded_time_range _ _ Hbin Hres) as (Hf & Hs & Hm & Hh).
  pose proof (decoded_groups_range _ _ Hbin Hres) as Hgroups.
  fold f in Hf, Hs, Hm, Hh, Hgroups.
  lia.
Qed.

Lemma findFirstValidLTCFrame_field_ranges_witness :
  0 <= frame Reference.frame_01020304 <= 45
  /\ 0 <= hour Reference.frame_01020304 <= 45.
Proof.
  pose proof (findFirstValidLTCFrame_field_ranges
                (Reference.biphaseMark
                   (Reference.encodeLTCFrame Reference.frame_01020304) true
                 ++ repeat true 4800) 48000
                {| FrameSearch.frame := Reference.frame_01020304;
                   FrameSearch.samplePosition := 0 |}) as H.
  cbv zeta in H. cbn [FrameSearch.frame] in H.
  destruct H as (Hf & _ & _ & Hh & _); [vm_compute; reflexivity|].
  split; assumption.
Defined.

End DecodedRangeProperties.
(** ** The other methods of the synchronisation tool *)

Section SyncToolProperties.
Import SyncLtc SyncTool.

(** *** Sibling files *)

Lemma splitChar_no_separator (c : ascii) (s : string) :
  Forall (fun tok => JS.includes c tok = false) (JS.splitChar c s).
Proof.
  induction s as [| d rest IH]; cbn [JS.splitChar].
  - repeat constructor.
  - destruct (Ascii.eqb c d) eqn:Hcd.
    + constructor; [reflexivity | exact IH].
    + destruct (JS.splitChar c rest) as [| tok toks].
      * repeat constructor. cbn. now rewrite Hcd.
      * inversion IH as [| ? ? Htok Htoks]; subst.
        constructor; [|exact Htoks]. cbn. now rewrite Hcd, Htok.
Qed.

Lemma append_separator_inj (c : ascii) (a a' b b' : string) :
  JS.includes c a = false -> JS.includes c a' = false ->
  (a ++ String c b)%string = (a' ++ String c b')%string ->
  a = a' /\ b = b'.
Proof.
  revert a'. induction a as [| x a IH]; intros [| y a'] Ha Ha' Heq;
    cbn in Heq, Ha, Ha'.
  - injection Heq as <-. split; reflexivity.
  - injection Heq as <- _. rewrite Ascii.eqb_refl in Ha'. discriminate Ha'.
  - injection Heq as <- _. rewrite Ascii.eqb_refl in Ha. discriminate Ha.
  - injection Heq as <- Heq.
    apply orb_false_iff in Ha as [_ Ha]. apply orb_false_iff in Ha' as [_ Ha'].
    destruct (IH a' Ha Ha' Heq) as [-> ->]. split; reflexivity.
Qed.

(** X14. Two base names are siblings exactly when each splits at its
    underscores into at least three parts and the first two parts of the
    one are the first two parts of the other. *)
Theorem isSiblingFile_parts :
  forall sourceBase targetBase : string,
    SyncTool.isSiblingFile sourceBase targetBase = true
    <-> exists (date sequence : string) (sourceRest targetRest : list string),
          sourceRest <> [] /\ targetRest <> []
          /\ JS.splitChar "_" sourceBase = date :: sequence :: sourceRest
          /\ JS.splitChar "_" targetBase = date :: sequence :: targetRest.
Proof.
  intros s t. unfold isSiblingFile. cbv zeta.
  pose proof (splitChar_no_separator "_" s) as Hs.
  pose proof (splitChar_no_separator "_" t) as Ht.
  split.
  - destruct (JS.splitChar "_" s) as [| a [| b [| c rs]]]; try discriminate.
    destruct (JS.splitChar "_" t) as [| a' [| b' [| c' rt]]]; try discriminate.
    cbn. intros Heq. apply String.eqb_eq in Heq.
    inversion Hs as [| ? ? Ha _]; subst. inversion Ht as [| ? ? Ha' _]; subst.
    destruct (append_separator_inj "_" a a' b b' Ha Ha' Heq) as [-> ->].
    exists a', b', (c :: rs), (c' :: rt).
    repeat split; discriminate.
  - intros (a & b & rs & rt & Hrs & Hrt & -> & ->).
    destruct rs as [| c rs]; [contradiction|].
    destruct rt as [| c' rt]; [contradiction|].
    cbn. apply String.eqb_refl.
Qed.

(** *** From a parsed line to the metadata text *)

Lemma padStart_pad2 (z : Z) :
  0 <= z <= 99 ->
  padStart (JS.toString z) 2 "0" = Reference.pad2 z.
Proof.
  intros Hz. apply String.eqb_eq.
  apply (forallb_Z_range
           (fun z => String.eqb (padStart (JS.toString z) 2 "0") (Reference.pad2 z))
           100);
    [vm_compute; reflexivity | lia].
Qed.

(** What the parser stores when it returns a frame. *)
Lemma parseLTCFrame_fields (now : Date) (line : string) (f : LTCFrame)
    (warnings : list Warning) :
  parseLTCFrame now line = (Some f, warnings) ->
  exists leftPart rightPart hh mm ss ff,
    leftRight line = Some (leftPart, rightPart)
    /\ userBits f = userBitsOf leftPart
    /\ String.length (userBits f) = 8%nat
    /\ timecode f = timecodeOf leftPart
    /\ matchTimecode (timecode f) = Some (hh, mm, ss, ff)
    /\ hour f = (if JS.geb (JS.parseInt hh) 24
                 then JS.rem (JS.parseInt hh) 24 else JS.parseInt hh)
    /\ minute f = JS.parseInt mm /\ second f = JS.parseInt ss
    /\ frame f = JS.parseInt ff
    /\ dropFrame f = JS.includes "." (timecode f).
Proof.
  unfold parseLTCFrame.
  destruct (leftRight line) as [[leftPart rightPart] |]; [|discriminate].
  destruct (String.length (userBitsOf leftPart) =? 8)%nat eqn:Hlen;
    [|discriminate].
  cbn [negb].
  destruct (matchTimecode (timecodeOf leftPart)) as [[[[hh mm] ss] ff] |] eqn:Hm;
    [|discriminate].
  intros H. injection H as <- _.
  exists leftPart, rightPart, hh, mm, ss, ff. cbn.
  apply Nat.eqb_eq in Hlen. repeat split; assumption.
Qed.

(** X15. For every frame the text parser returns, the hour lies in
    [0, 23] and the minute, the second and the frame number in [0, 99]
    (minutes and seconds of 60 to 99 are kept), the user bits have eight
    characters, and [formatCreationTime] writes exactly eight characters:
    two digits for each of hour, minute and second, with colons between. *)
Theorem formatCreationTime_of_parsed :
  forall (now : SyncLtc.Date) (line : string) (f : SyncLtc.LTCFrame)
         (warnings : list SyncLtc.Warning),
    SyncLtc.parseLTCFrame now line = (Some f, warnings) ->
    exists h m s fr : Z,
      SyncLtc.hour f = Some h /\ SyncLtc.minute f = Some m
      /\ SyncLtc.second f = Some s /\ SyncLtc.frame f = Some fr
      /\ 0 <= h <= 23 /\ 0 <= m <= 99 /\ 0 <= s <= 99 /\ 0 <= fr <= 99
      /\ String.length (SyncLtc.userBits f) = 8%nat
      /\ SyncTool.formatCreationTime f
         = (Reference.pad2 h ++ ":" ++ Reference.pad2 m ++ ":"
            ++ Reference.pad2 s)%string
      /\ String.length (SyncTool.formatCreationTime f) = 8%nat.
Proof.
  intros now line f warnings Hparse.
  destruct (parseLTCFrame_fields now line f warnings Hparse)
    as (leftPart & rightPart & hh & mm & ss & ff & _ & _ & Hlen & _ & Hmatch
        & Hh & Hm & Hs & Hfr & _).
  destruct (matchTimecode_digits _ _ _ _ _ Hmatch) as (Dh & Dm & Ds & Df).
  destruct (twoDigits_parseInt hh Dh) as (h & Hh' & Hhr).
  destruct (twoDigits_parseInt mm Dm) as (m & Hm' & Hmr).
  destruct (twoDigits_parseInt ss Ds) as (s & Hs' & Hsr).
  destruct (twoDigits_parseInt ff Df) as (fr & Hf' & Hfr').
  rewrite Hh' in Hh. rewrite Hm' in Hm. rewrite Hs' in Hs. rewrite Hf' in Hfr.
  cbn [JS.geb JS.rem option_map] in Hh.
  assert (Hhour : exists h', hour f = Some h' /\ 0 <= h' <= 23).
  { destruct (Z.leb_spec 24 h).
    - exists (Z.rem h 24). split; [exact Hh|].
      rewrite Z.rem_mod_nonneg by lia.
      pose proof (Z.mod_pos_bound h 24 ltac:(lia)). lia.
    - exists h. split; [exact Hh | lia]. }
  destruct Hhour as (h' & Hh'' & Hh'r).
  assert (Htext : formatCreationTime f
                  = (Reference.pad2 h' ++ ":" ++ Reference.pad2 m ++ ":"
                     ++ Reference.pad2 s)%string).
  { unfold formatCreationTime. rewrite Hh'', Hm, Hs. cbn [JS.numToString].
    rewrite !padStart_pad2 by lia. reflexivity. }
  exists h', m, s, fr.
  repeat match goal with |- _ /\ _ => split end;
    try assumption; try lia.
  rewrite Htext. reflexivity.
Qed.

Lemma formatCreationTime_of_parsed_witness :
  SyncTool.formatCreationTime Reference.corruptedFrame = "06:04:61"%string.
Proof.
  destruct (formatCreationTime_of_parsed Reference.sampleNow
              Reference.corruptedLine Reference.corruptedFrame
              Reference.corruptedWarnings ltac:(vm_compute; reflexivity))
    as (h & m & s & fr & Hh & Hm & Hs & _ & _ & _ & _ & _ & _ & Htext & _).
  cbn in Hh, Hm, Hs.
  injection Hh as <-. injection Hm as <-. injection Hs as <-. exact Htext.
Defined.

(** Case analysis on a character known to be a decimal digit. *)
Ltac decimal_cases c Hc :=
  destruct c as [[] [] [] [] [] [] [] []];
  vm_compute in Hc; try discriminate Hc; clear Hc.

Lemma toString_century (a b : ascii) :
  JS.isDigit a = true -> JS.isDigit b = true ->
  JS.toString (2000 + (10 * (JS.code a - 48) + (JS.code b - 48)))
  = String "2" (String "0" (String a (String b EmptyString))).
Proof.
  intros Ha Hb. decimal_cases a Ha; decimal_cases b Hb; reflexivity.
Qed.

Lemma padStart_two_digits (a b : ascii) :
  JS.isDigit a = true -> JS.isDigit b = true ->
  padStart (JS.toString (10 * (JS.code a - 48) + (JS.code b - 48))) 2 "0"
  = String a (String b EmptyString).
Proof.
  intros Ha Hb. decimal_cases a Ha; decimal_cases b Hb; reflexivity.
Qed.

(** X16. When the user bits of a returned frame begin with six decimal
    digits YYMMDD whose month is in [1, 12] and whose day is in [1, 31], the
    origination date written to the file is those digits, as 20YY-MM-DD. *)
Theorem originationDate_of_parsed :
  forall (now : SyncLtc.Date) (line : string) (f : SyncLtc.LTCFrame)
         (warnings : list SyncLtc.Warning)
         (y1 y2 m1 m2 d1 d2 : ascii) (rest : string),
    SyncLtc.parseLTCFrame now line = (Some f, warnings) ->
    SyncLtc.userBits f
    = String y1 (String y2 (String m1 (String m2 (String d1 (String d2 rest))))) ->
    JS.isDigit y1 = true -> JS.isDigit y2 = true ->
    JS.isDigit m1 = true -> JS.isDigit m2 = true ->
    JS.isDigit d1 = true -> JS.isDigit d2 = true ->
    1 <= 10 * (JS.code m1 - 48) + (JS.code m2 - 48) <= 12 ->
    1 <= 10 * (JS.code d1 - 48) + (JS.code d2 - 48) <= 31 ->
    SyncTool.originationDate f
    = String "2" (String "0" (String y1 (String y2 (String "-"
        (String m1 (String m2 (String "-"
           (String d1 (String d2 EmptyString))))))))).
Proof.
  intros now line f warnings y1 y2 m1 m2 d1 d2 rest Hparse Hbits
         Hy1 Hy2 Hm1 Hm2 Hd1 Hd2 Hmonth Hday.
  revert Hparse Hbits. unfold parseLTCFrame.
  destruct (leftRight line) as [[leftPart rightPart] |]; [|discriminate].
  destruct (negb _); [discriminate|].
  destruct (matchTimecode (timecodeOf leftPart)) as [[[[hh mm] ss] ff] |];
    [|discriminate].
  intros H. injection H as <- _. cbn [userBits]. intros ->.
  unfold originationDate. cbn [year month day].
  assert (Hy : JS.substring
                 (String y1 (String y2 (String m1 (String m2
                    (String d1 (String d2 rest)))))) 0 2
               = String y1 (String y2 EmptyString)) by apply substring_prefix2.
  assert (Hm : JS.substring
                 (String y1 (String y2 (String m1 (String m2
                    (String d1 (String d2 rest)))))) 2 4
               = String m1 (String m2 EmptyString))
    by (unfold JS.substring; cbn; destruct rest; reflexivity).
  assert (Hd : JS.substring
                 (String y1 (String y2 (String m1 (String m2
                    (String d1 (String d2 rest)))))) 4 6
               = String d1 (String d2 EmptyString))
    by (unfold JS.substring; cbn; destruct rest; reflexivity).
  rewrite Hy, Hm, Hd.
  pose proof (parseInt_century_prefix y1 y2 Hy1 Hy2) as Hyear.
  cbn [String.append] in Hyear. rewrite Hyear.
  rewrite (parseInt_two_digits m1 m2 Hm1 Hm2), (parseInt_two_digits d1 d2 Hd1 Hd2).
  replace (JS.ltb _ 1 || JS.gtb _ 12 || JS.ltb _ 1 || JS.gtb _ 31)%bool with false.
  - cbn [JS.numToString].
    rewrite (toString_century y1 y2 Hy1 Hy2).
    rewrite (padStart_two_digits m1 m2 Hm1 Hm2), (padStart_two_digits d1 d2 Hd1 Hd2).
    reflexivity.
  - symmetry. apply not_true_is_false. intros Hinv.
    apply invalidDate_spec in Hinv. lia.
Qed.

Lemma originationDate_of_parsed_witness :
  SyncTool.originationDate Reference.year75Frame = "2075-01-01"%string.
Proof.
  apply (originationDate_of_parsed Reference.sampleNow Reference.year75Line
           Reference.year75Frame [] "7" "5" "0" "1" "0" "1" "00");
    try reflexivity; vm_compute; intuition discriminate.
Defined.

(** *** The reference frame *)

(** The first frame of the list [runLTCdump] builds comes from the first
    line that parses. *)
Lemma framesFrom_first (clock : nat -> Date) (lines : list string) :
  forall k : nat,
    match framesFrom clock k lines with
    | [] =>
        forall j line,
          nth_error lines j = Some line ->
          fst (parseLTCFrame (clock (k + j)%nat) line) = None
    | f :: _ =>
        exists j line,
          nth_error lines j = Some line
          /\ fst (parseLTCFrame (clock (k + j)%nat) line) = Some f
          /\ forall i line',
               (i < j)%nat -> nth_error lines i = Some line' ->
               fst (parseLTCFrame (clock (k + i)%nat) line') = None
    end.
Proof.
  induction lines as [| line rest IH]; intros k; cbn [framesFrom].
  - intros [| j] line' H; discriminate H.
  - destruct (fst (parseLTCFrame (clock k) line)) as [f |] eqn:Hline.
    + exists 0%nat, line. rewrite Nat.add_0_r.
      repeat split; [exact Hline|]. intros i line' Hi. lia.
    + specialize (IH (S k)).
      destruct (framesFrom clock (S k) rest) as [| f frames].
      * intros [| j] line' Hnth.
        -- injection Hnth as <-. rewrite Nat.add_0_r. exact Hline.
        -- replace (k + S j)%nat with (S k + j)%nat by lia.
           apply IH. exact Hnth.
      * destruct IH as (j & line' & Hnth & Hparse & Hbefore).
        exists (S j), line'.
        replace (k + S j)%nat with (S k + j)%nat by lia.
        repeat split; [exact Hnth | exact Hparse |].
        intros [| i] line'' Hi Hnth'.
        -- injection Hnth' as <-. rewrite Nat.add_0_r. exact Hline.
        -- replace (k + S i)%nat with (S k + i)%nat by lia.
           apply (Hbefore i line''); [lia | exact Hnth'].
Qed.

(** X17. [runLTCdump] fails (no LTC frames found) exactly when the filter
    leaves no line of the output; otherwise it returns, lines that do not
    parse are dropped without a word, and [getFirstValidFrame] takes the
    frame of the first kept line that parses, or fails (no valid LTC
    frames found) when none does. *)
Theorem reference_frame_is_first_parsed :
  forall (clock : nat -> SyncLtc.Date) (output : string),
    let lines := filter SyncTool.keepLine (JS.splitChar "010" output) in
    match SyncTool.runLTCdump clock output with
    | SyncTool.Throw e => e = SyncTool.NoLTCFramesFound /\ lines = []
    | SyncTool.Return frames =>
        lines <> []
        /\ match SyncTool.getFirstValidFrame frames with
           | SyncTool.Throw e =>
               e = SyncTool.NoValidLTCFramesFound
               /\ forall j line,
                    nth_error lines j = Some line ->
                    fst (SyncLtc.parseLTCFrame (clock j) line) = None
           | SyncTool.Return f =>
               exists j line,
                 nth_error lines j = Some line
                 /\ fst (SyncLtc.parseLTCFrame (clock j) line) = Some f
                 /\ forall i line',
                      (i < j)%nat -> nth_error lines i = Some line' ->
                      fst (SyncLtc.parseLTCFrame (clock i) line') = None
           end
    end.
Proof.
  intros clock output lines. unfold runLTCdump. fold lines.
  destruct lines as [| line rest] eqn:Hlines; [split; reflexivity|].
  split; [discriminate|].
  pose proof (framesFrom_first clock (line :: rest) 0) as Hfirst.
  unfold getFirstValidFrame.
  destruct (framesFrom clock 0 (line :: rest)) as [| f frames].
  - split; [reflexivity | exact Hfirst].
  - exact Hfirst.
Qed.

End SyncToolProperties.
(** ** How many bits the scans collect *)

Section ScanLengthProperties.
Import ReadTimecode.

(** X18. Whatever the trace and the sample rate, the free scan collects at
    most 1001 bits and the positioned scan at most 81, of which it hands on
    at most 80; and the length test that guards the final flush of the
    positioned scan never decides anything: a half bit is pending only
    below the budget, so the flush happens exactly when one is pending. *)
Theorem scan_length_bounds :
  forall (digital : list bool) (sampleRate : Z),
    (List.length (ReadTimecode.collectBits digital sampleRate) <= 1001)%nat
    /\ (List.length (ReadTimecode.collectBitsFromPosition digital sampleRate)
        <= 81)%nat
    /\ (List.length
          (ReadTimecode.detectManchesterBitsFromPosition digital sampleRate)
        <= 80)%nat
    /\ let final := ReadTimecode.decodeLoop 0.95%float 0.05%float 80
                      (ReadTimecode.initialState digital sampleRate)
                      (tl digital) in
       ReadTimecode.collectBitsFromPosition digital sampleRate
       = if ReadTimecode.pendingBit final
         then ReadTimecode.bits final ++ [1]
         else ReadTimecode.bits final.
Proof.
  intros digital sampleRate.
  pose proof (decodeLoop_withinBudget 0.99%float 0.01%float 1000 (tl digital) _
                (initialState_withinBudget 1000 digital sampleRate)) as [Hle Hp].
  pose proof (decodeLoop_withinBudget 0.95%float 0.05%float 80 (tl digital) _
                (initialState_withinBudget 80 digital sampleRate)) as [Hle' Hp'].
  unfold collectBits, collectBitsFromPosition, detectManchesterBitsFromPosition,
    collectBitsFromPosition, JS.slice.
  cbv zeta. rewrite length_firstn.
  set (free := decodeLoop 0.99%float 0.01%float 1000 _ _) in *.
  set (final := decodeLoop 0.95%float 0.05%float 80 _ _) in *.
  destruct (pendingBit free); [specialize (Hp eq_refl)|];
    (destruct (pendingBit final); cbn [andb];
     [specialize (Hp' eq_refl);
      replace (_ <? 80)%nat with true by (symmetry; apply Nat.ltb_lt; exact Hp')|]);
    rewrite ?length_app; cbn [List.length];
    repeat match goal with |- _ /\ _ => split end; try reflexivity; lia.
Qed.

End ScanLengthProperties.
